(** * django-cryptography: [django_cryptography/utils/crypto.py]

    A shallow embedding of the cryptographic helpers of django-cryptography
    ([salted_hmac], [pbkdf2], [FernetBytes], [Fernet]) together with models of
    the library primitives they call (base64, PKCS7 padding, AES-CBC cipher
    contexts, HMAC, PBKDF2-HMAC), and the properties of these helpers.

    The block cipher and the digests are primitives of a [Backend]; the
    properties are proved for every backend that satisfies [BackendLaws]
    and every signer of the [Signer] protocol. To run the model, a backend
    with AES, SHA-1, SHA-224 and SHA-256 and a signer class are defined as
    instances, and checked against published test vectors.

    Python values are represented as follows:
    - [bytes] is [list byte];
    - [str] is a [string] holding the UTF-8 code units of the text, so that
      [force_bytes] of a [str] is the list of its code units;
    - [Union[bytes, str]] is the tagged union [bytes_or_str];
    - [int] is [Z];
    - a raised exception is the left injection of a sum, see [result]. *)

From Stdlib Require Import String Ascii Strings.Byte.
From Stdlib Require Import ZArith NArith Arith Lia Bool List Btauto.
Import ListNotations.

Local Open Scope list_scope.

(** ** Python values *)

Definition bytes := list byte.

Inductive bytes_or_str : Type :=
| PyBytes (b : bytes)
| PyStr (s : string).

(** The exceptions that can leave the functions of the module. [BinasciiError]
    is [binascii.Error]; in Python it is a subclass of [ValueError], and
    [SignatureExpired] is a subclass of [BadSignature]: see [isinstance_exn].
    [InvalidAlgorithm] carries the name of the algorithm that its message
    quotes, the others their message. *)
Inductive exn : Type :=
| InvalidToken
| InvalidAlgorithm (algorithm : string)
| ValueError (msg : string)
| BinasciiError (msg : string)
| TypeError (msg : string)
| BadSignature (msg : string)
| SignatureExpired (msg : string).

Inductive exn_class : Type :=
| InvalidTokenC | InvalidAlgorithmC | ValueErrorC | BinasciiErrorC
| TypeErrorC | BadSignatureC | SignatureExpiredC.

Definition class_of (e : exn) : exn_class :=
  match e with
  | InvalidToken => InvalidTokenC
  | InvalidAlgorithm _ => InvalidAlgorithmC
  | ValueError _ => ValueErrorC
  | BinasciiError _ => BinasciiErrorC
  | TypeError _ => TypeErrorC
  | BadSignature _ => BadSignatureC
  | SignatureExpired _ => SignatureExpiredC
  end.

Definition exn_class_eqb (a b : exn_class) : bool :=
  match a, b with
  | InvalidTokenC, InvalidTokenC
  | InvalidAlgorithmC, InvalidAlgorithmC
  | ValueErrorC, ValueErrorC
  | BinasciiErrorC, BinasciiErrorC
  | TypeErrorC, TypeErrorC
  | BadSignatureC, BadSignatureC
  | SignatureExpiredC, SignatureExpiredC => true
  | _, _ => false
  end.

(** [subclass a b]: class [a] is [b] or derives from it. *)
Definition subclass (a b : exn_class) : bool :=
  exn_class_eqb a b ||
  match a, b with
  | BinasciiErrorC, ValueErrorC => true
  | SignatureExpiredC, BadSignatureC => true
  | _, _ => false
  end.

(** [isinstance_exn e cs]: would [except (c1, ..., cn)] catch [e]? *)
Definition isinstance_exn (e : exn) (cs : list exn_class) : bool :=
  existsb (subclass (class_of e)) cs.

(** A computation that returns an [A] or raises. *)
Definition result (A : Type) : Type := (exn + A)%type.

Definition ret {A} (a : A) : result A := inr a.
Definition raise {A} (e : exn) : result A := inl e.

Definition bind {A B} (m : result A) (k : A -> result B) : result B :=
  match m with
  | inl e => inl e
  | inr a => k a
  end.

(** [try_except m cs e']: run [m]; an exception caught by [except cs] is
    replaced by [e'], any other one propagates. *)
Definition try_except {A} (m : result A) (cs : list exn_class) (e' : exn)
  : result A :=
  match m with
  | inl e => if isinstance_exn e cs then inl e' else inl e
  | inr a => inr a
  end.

Declare Scope py_scope.
Delimit Scope py_scope with py.
Notation "x <- m ;; k" := (bind m (fun x => k))
  (at level 61, m at next level, right associativity) : py_scope.

Local Open Scope py_scope.

(** ** Bytes *)

Definition byte_of_N (n : N) : byte :=
  match Byte.of_N (n mod 256) with
  | Some b => b
  | None => x00
  end.

Definition byte_of_nat (n : nat) : byte := byte_of_N (N.of_nat n).

(** The 256 bytes, in order. *)
Definition all_bytes : bytes := map byte_of_nat (seq 0 256).

Definition byte_xor (a b : byte) : byte :=
  byte_of_N (N.lxor (Byte.to_N a) (Byte.to_N b)).

Fixpoint xor_bytes (a b : bytes) : bytes :=
  match a, b with
  | x :: a', y :: b' => byte_xor x y :: xor_bytes a' b'
  | _, _ => []
  end.

(** [b[:n]] and [b[n:]] for [0 <= n]. *)
Definition take (n : nat) (b : bytes) : bytes := firstn n b.
Definition drop (n : nat) (b : bytes) : bytes := skipn n b.

Definition bytes_of_string (s : string) : bytes := list_byte_of_string s.

(** [django.utils.encoding.force_bytes]: [bytes] are returned unchanged, a
    [str] is encoded as UTF-8. *)
Definition force_bytes (v : bytes_or_str) : bytes :=
  match v with
  | PyBytes b => b
  | PyStr s => bytes_of_string s
  end.

(** Truthiness of an optional [bytes]/[str] argument: [None] and the empty
    sequence are false. *)
Definition truthy (v : option bytes_or_str) : bool :=
  match v with
  | None => false
  | Some (PyBytes []) => false
  | Some (PyStr EmptyString) => false
  | Some _ => true
  end.

(** [a or b] on an optional [bytes]/[str] and a default. *)
Definition py_or (v : option bytes_or_str) (d : bytes_or_str) : bytes_or_str :=
  match v with
  | Some x => if truthy v then x else d
  | None => d
  end.

(** ** [base64]: the standard library's URL-safe encoder and decoder

    [base64.urlsafe_b64encode] is [binascii.b2a_base64] without the newline,
    followed by the translation of [+/] to [-_]; [base64.urlsafe_b64decode]
    translates back and calls [binascii.a2b_base64] in its default mode, in
    which characters outside the alphabet are skipped and only a truncated
    final quantum is an error. *)

Definition b64_alphabet : bytes :=
  bytes_of_string
    "ABCDEFGHIJKLMNOPQRSTUVWXYZabcdefghijklmnopqrstuvwxyz0123456789+/".

Definition BASE64_PAD : byte := "="%byte.

Definition table_b2a_base64 (v : N) : byte :=
  nth (N.to_nat v) b64_alphabet x00.

Fixpoint index_of (c : byte) (l : bytes) (i : N) : option N :=
  match l with
  | [] => None
  | x :: l' => if Byte.eqb c x then Some i else index_of c l' (N.succ i)
  end.

Definition table_a2b_base64 (c : byte) : option N := index_of c b64_alphabet 0.

(** The four sextets of a three-byte group. *)
Definition sextet0 (a : byte) : N := N.shiftr (Byte.to_N a) 2.
Definition sextet1 (a b : byte) : N :=
  N.lor (N.shiftl (N.land (Byte.to_N a) 3) 4) (N.shiftr (Byte.to_N b) 4).
Definition sextet2 (b c : byte) : N :=
  N.lor (N.shiftl (N.land (Byte.to_N b) 15) 2) (N.shiftr (Byte.to_N c) 6).
Definition sextet3 (c : byte) : N := N.land (Byte.to_N c) 63.

Fixpoint b2a_base64 (s : bytes) : bytes :=
  match s with
  | [] => []
  | [a] =>
      [table_b2a_base64 (sextet0 a); table_b2a_base64 (sextet1 a x00);
       BASE64_PAD; BASE64_PAD]
  | [a; b] =>
      [table_b2a_base64 (sextet0 a); table_b2a_base64 (sextet1 a b);
       table_b2a_base64 (sextet2 b x00); BASE64_PAD]
  | a :: b :: c :: s' =>
      table_b2a_base64 (sextet0 a) :: table_b2a_base64 (sextet1 a b) ::
      table_b2a_base64 (sextet2 b c) :: table_b2a_base64 (sextet3 c) ::
      b2a_base64 s'
  end.

(** [bytes.translate] with a table that maps [x] to [x'] and [y] to [y']. *)
Definition translate_char (x x' y y' c : byte) : byte :=
  if Byte.eqb c x then x' else if Byte.eqb c y then y' else c.

Definition translate2 (x x' y y' : byte) (s : bytes) : bytes :=
  map (translate_char x x' y y') s.

Definition urlsafe_b64encode (s : bytes) : bytes :=
  translate2 "+" "-" "/" "_" (b2a_base64 s).

(** The decoding loop of [binascii.a2b_base64]: [quad_pos] is the position
    in the current quantum, [leftchar] the bits not yet written, [pads] the
    number of padding characters seen in a row, [out] the bytes written. *)
Fixpoint a2b_loop (s : bytes) (quad_pos : nat) (leftchar : N) (pads : nat)
  (out : bytes) : result bytes :=
  match s with
  | [] =>
      match quad_pos with
      | 0 => ret out
      | 1 => raise (BinasciiError
               "Invalid base64-encoded string: number of data characters cannot be 1 more than a multiple of 4")
      | _ => raise (BinasciiError "Incorrect padding")
      end
  | this_ch :: s' =>
      if Byte.eqb this_ch BASE64_PAD then
        if 2 <=? quad_pos then
          if 4 <=? quad_pos + (pads + 1) then ret out
          else a2b_loop s' quad_pos leftchar (pads + 1) out
        else a2b_loop s' quad_pos leftchar pads out
      else
        match table_a2b_base64 this_ch with
        | None => a2b_loop s' quad_pos leftchar pads out
        | Some v =>
            match quad_pos with
            | 0 => a2b_loop s' 1 v 0 out
            | 1 => a2b_loop s' 2 (N.land v 15) 0
                     (out ++ [byte_of_N (N.lor (N.shiftl leftchar 2) (N.shiftr v 4))])
            | 2 => a2b_loop s' 3 (N.land v 3) 0
                     (out ++ [byte_of_N (N.lor (N.shiftl leftchar 4) (N.shiftr v 2))])
            | _ => a2b_loop s' 0 0 0
                     (out ++ [byte_of_N (N.lor (N.shiftl leftchar 6) v)])
            end
        end
  end.

Definition a2b_base64 (s : bytes) : result bytes := a2b_loop s 0 0 0 [].

Definition is_ascii (b : bytes) : bool :=
  forallb (fun c => Byte.to_N c <? 128)%N b.

(** [base64._bytes_from_decode_types]: a [str] must be ASCII. *)
Definition bytes_from_decode_types (s : bytes_or_str) : result bytes :=
  match s with
  | PyBytes b => ret b
  | PyStr t =>
      if is_ascii (bytes_of_string t) then ret (bytes_of_string t)
      else raise (ValueError "string argument should contain only ASCII characters")
  end.

Definition urlsafe_b64decode (s : bytes_or_str) : result bytes :=
  b <- bytes_from_decode_types s ;;
  a2b_base64 (translate2 "-" "+" "_" "/" b).

(** ** [cryptography.hazmat.primitives.padding]: PKCS7 contexts *)

(** [algorithms.AES.block_size], in bits. *)
Definition AES_block_size : nat := 128.

Record PaddingContext : Type := {
  pad_block_size : nat;   (* in bits *)
  pad_buffer : bytes
}.

Definition PKCS7_padder (block_size : nat) : PaddingContext :=
  {| pad_block_size := block_size; pad_buffer := [] |}.

Definition PKCS7_unpadder (block_size : nat) : PaddingContext :=
  {| pad_block_size := block_size; pad_buffer := [] |}.

(** [padder.update(data)]: the whole blocks of [buffer + data] are returned,
    the rest is kept. *)
Definition padder_update (ctx : PaddingContext) (data : bytes)
  : PaddingContext * bytes :=
  let bs := pad_block_size ctx / 8 in
  let buffer := pad_buffer ctx ++ data in
  let finished_blocks := length buffer / bs in
  ({| pad_block_size := pad_block_size ctx;
      pad_buffer := drop (finished_blocks * bs) buffer |},
   take (finished_blocks * bs) buffer).

(** [padder.finalize()]: [pad_size] bytes of value [pad_size]. *)
Definition padder_finalize (ctx : PaddingContext) : bytes :=
  let pad_size := pad_block_size ctx / 8 - length (pad_buffer ctx) in
  pad_buffer ctx ++ repeat (byte_of_nat pad_size) pad_size.

(** [unpadder.update(data)]: as [padder_update], but the last block is
    always kept back: [max(len(buffer) // bs - 1, 0)] blocks are finished
    (the subtraction on [nat] stops at zero). *)
Definition unpadder_update (ctx : PaddingContext) (data : bytes)
  : PaddingContext * bytes :=
  let bs := pad_block_size ctx / 8 in
  let buffer := pad_buffer ctx ++ data in
  let finished_blocks := length buffer / bs - 1 in
  ({| pad_block_size := pad_block_size ctx;
      pad_buffer := drop (finished_blocks * bs) buffer |},
   take (finished_blocks * bs) buffer).

(** The padding check on a full block: the last byte [p] satisfies
    [0 < p <= block_len] and the last [p] bytes all equal [p]. *)
Definition check_pkcs7_padding (data : bytes) (block_len : nat) : bool :=
  let last_byte := last data x00 in
  let pad_size := N.to_nat (Byte.to_N last_byte) in
  (0 <? pad_size) && (pad_size <=? block_len) &&
  forallb (Byte.eqb last_byte) (drop (block_len - pad_size) data).

Definition unpadder_finalize (ctx : PaddingContext) : result bytes :=
  let bs := pad_block_size ctx / 8 in
  let buffer := pad_buffer ctx in
  if negb (length buffer =? bs) then raise (ValueError "Invalid padding bytes.")
  else if negb (check_pkcs7_padding buffer bs) then
    raise (ValueError "Invalid padding bytes.")
  else
    let pad_size := N.to_nat (Byte.to_N (last buffer x00)) in
    ret (take (length buffer - pad_size) buffer).

(** ** The environment: clock and entropy

    [time.time()] and [os.urandom] read the world; [os.urandom] consumes
    entropy, so it returns the world it leaves behind. *)

Record World : Type := {
  clock : Z;                 (* seconds since the epoch *)
  entropy : nat -> byte;     (* the stream [os.urandom] draws from *)
  cursor : nat               (* how much of the stream has been drawn *)
}.

Definition os_urandom (n : nat) (w : World) : bytes * World :=
  (map (entropy w) (seq (cursor w) n),
   {| clock := clock w; entropy := entropy w; cursor := cursor w + n |}).

(** [int(time.time())] *)
Definition int_time_time (w : World) : Z := clock w.

(** ** [cryptography.hazmat.primitives.hashes] *)

(** The digests with a fixed output size. *)
Inductive HashAlgorithm : Type :=
| MD5 | SHA1 | SHA224 | SHA256 | SHA384 | SHA512 | SHA512_224 | SHA512_256
| SHA3_224 | SHA3_256 | SHA3_384 | SHA3_512 | SM3.

(** [digest_size], in bytes. *)
Definition digest_size (a : HashAlgorithm) : nat :=
  match a with
  | MD5 => 16
  | SHA1 => 20
  | SHA224 | SHA512_224 | SHA3_224 => 28
  | SHA256 | SHA512_256 | SHA3_256 | SM3 => 32
  | SHA384 | SHA3_384 => 48
  | SHA512 | SHA3_512 => 64
  end.

(** The block size HMAC uses for the digest, in bytes. *)
Definition hmac_block_size (a : HashAlgorithm) : nat :=
  match a with
  | MD5 | SHA1 | SHA224 | SHA256 | SM3 => 64
  | SHA384 | SHA512 | SHA512_224 | SHA512_256 => 128
  | SHA3_224 => 144
  | SHA3_256 => 136
  | SHA3_384 => 104
  | SHA3_512 => 72
  end.

(** The classes that [getattr(hashes, NAME)] finds for an upper-case [NAME]:
    the fixed-size digests, and the two extendable-output classes, whose
    constructor has a required [digest_size] argument. ([BLAKE2b] and
    [BLAKE2s] have a lower-case letter in their names and are never found.) *)
Inductive hasher_class : Type :=
| Digest (a : HashAlgorithm)
| SHAKE128
| SHAKE256.

Definition hashes_table : list (string * hasher_class) :=
  [ ("MD5", Digest MD5); ("SHA1", Digest SHA1); ("SHA224", Digest SHA224);
    ("SHA256", Digest SHA256); ("SHA384", Digest SHA384);
    ("SHA512", Digest SHA512); ("SHA512_224", Digest SHA512_224);
    ("SHA512_256", Digest SHA512_256); ("SHA3_224", Digest SHA3_224);
    ("SHA3_256", Digest SHA3_256); ("SHA3_384", Digest SHA3_384);
    ("SHA3_512", Digest SHA3_512); ("SM3", Digest SM3);
    ("SHAKE128", SHAKE128); ("SHAKE256", SHAKE256) ]%string.

Fixpoint assoc {A} (name : string) (l : list (string * A)) : option A :=
  match l with
  | [] => None
  | (k, v) :: l' => if String.eqb name k then Some v else assoc name l'
  end.

(** [getattr(hashes, name)]; [None] stands for [AttributeError]. *)
Definition hashes_getattr (name : string) : option hasher_class :=
  assoc name hashes_table.

(** [hasher()]: the call of the class without arguments. *)
Definition call_hasher (h : hasher_class) : result HashAlgorithm :=
  match h with
  | Digest a => ret a
  | SHAKE128 | SHAKE256 =>
      raise (TypeError "__init__() missing 1 required positional argument: 'digest_size'")
  end.

(** ** [str.upper]

    [str.upper] replaces every character of the text by its upper-case
    mapping in the Unicode character database, which may have several
    characters (the German sharp s becomes [SS]); it looks at one character
    at a time. The mapping is the one of Unicode 14.0, the database of
    CPython 3.11. *)

(** The characters with a one-character mapping, in runs:
    [(first, count, step, image)] maps [first + i * step] to
    [image + i * step] for [i < count]. *)
Definition upper_runs : list (N * N * N * N) :=
  [
    (0x61, 26, 1, 0x41); (0xb5, 1, 1, 0x39c); (0xe0, 23, 1, 0xc0);
    (0xf8, 7, 1, 0xd8); (0xff, 1, 1, 0x178); (0x101, 24, 2, 0x100);
    (0x131, 1, 1, 0x49); (0x133, 3, 2, 0x132); (0x13a, 8, 2, 0x139);
    (0x14b, 23, 2, 0x14a); (0x17a, 3, 2, 0x179); (0x17f, 1, 1, 0x53);
    (0x180, 1, 1, 0x243); (0x183, 2, 2, 0x182); (0x188, 1, 1, 0x187);
    (0x18c, 1, 1, 0x18b); (0x192, 1, 1, 0x191); (0x195, 1, 1, 0x1f6);
    (0x199, 1, 1, 0x198); (0x19a, 1, 1, 0x23d); (0x19e, 1, 1, 0x220);
    (0x1a1, 3, 2, 0x1a0); (0x1a8, 1, 1, 0x1a7); (0x1ad, 1, 1, 0x1ac);
    (0x1b0, 1, 1, 0x1af); (0x1b4, 2, 2, 0x1b3); (0x1b9, 1, 1, 0x1b8);
    (0x1bd, 1, 1, 0x1bc); (0x1bf, 1, 1, 0x1f7); (0x1c5, 1, 1, 0x1c4);
    (0x1c6, 1, 1, 0x1c4); (0x1c8, 1, 1, 0x1c7); (0x1c9, 1, 1, 0x1c7);
    (0x1cb, 1, 1, 0x1ca); (0x1cc, 1, 1, 0x1ca); (0x1ce, 8, 2, 0x1cd);
    (0x1dd, 1, 1, 0x18e); (0x1df, 9, 2, 0x1de); (0x1f2, 1, 1, 0x1f1);
    (0x1f3, 1, 1, 0x1f1); (0x1f5, 1, 1, 0x1f4); (0x1f9, 20, 2, 0x1f8);
    (0x223, 9, 2, 0x222); (0x23c, 1, 1, 0x23b); (0x23f, 2, 1, 0x2c7e);
    (0x242, 1, 1, 0x241); (0x247, 5, 2, 0x246); (0x250, 1, 1, 0x2c6f);
    (0x251, 1, 1, 0x2c6d); (0x252, 1, 1, 0x2c70); (0x253, 1, 1, 0x181);
    (0x254, 1, 1, 0x186); (0x256, 2, 1, 0x189); (0x259, 1, 1, 0x18f);
    (0x25b, 1, 1, 0x190); (0x25c, 1, 1, 0xa7ab); (0x260, 1, 1, 0x193);
    (0x261, 1, 1, 0xa7ac); (0x263, 1, 1, 0x194); (0x265, 1, 1, 0xa78d);
    (0x266, 1, 1, 0xa7aa); (0x268, 1, 1, 0x197); (0x269, 1, 1, 0x196);
    (0x26a, 1, 1, 0xa7ae); (0x26b, 1, 1, 0x2c62); (0x26c, 1, 1, 0xa7ad);
    (0x26f, 1, 1, 0x19c); (0x271, 1, 1, 0x2c6e); (0x272, 1, 1, 0x19d);
    (0x275, 1, 1, 0x19f); (0x27d, 1, 1, 0x2c64); (0x280, 1, 1, 0x1a6);
    (0x282, 1, 1, 0xa7c5); (0x283, 1, 1, 0x1a9); (0x287, 1, 1, 0xa7b1);
    (0x288, 1, 1, 0x1ae); (0x289, 1, 1, 0x244); (0x28a, 2, 1, 0x1b1);
    (0x28c, 1, 1, 0x245); (0x292, 1, 1, 0x1b7); (0x29d, 1, 1, 0xa7b2);
    (0x29e, 1, 1, 0xa7b0); (0x345, 1, 1, 0x399); (0x371, 2, 2, 0x370);
    (0x377, 1, 1, 0x376); (0x37b, 3, 1, 0x3fd); (0x3ac, 1, 1, 0x386);
    (0x3ad, 3, 1, 0x388); (0x3b1, 17, 1, 0x391); (0x3c2, 1, 1, 0x3a3);
    (0x3c3, 9, 1, 0x3a3); (0x3cc, 1, 1, 0x38c); (0x3cd, 2, 1, 0x38e);
    (0x3d0, 1, 1, 0x392); (0x3d1, 1, 1, 0x398); (0x3d5, 1, 1, 0x3a6);
    (0x3d6, 1, 1, 0x3a0); (0x3d7, 1, 1, 0x3cf); (0x3d9, 12, 2, 0x3d8);
    (0x3f0, 1, 1, 0x39a); (0x3f1, 1, 1, 0x3a1); (0x3f2, 1, 1, 0x3f9);
    (0x3f3, 1, 1, 0x37f); (0x3f5, 1, 1, 0x395); (0x3f8, 1, 1, 0x3f7);
    (0x3fb, 1, 1, 0x3fa); (0x430, 32, 1, 0x410); (0x450, 16, 1, 0x400);
    (0x461, 17, 2, 0x460); (0x48b, 27, 2, 0x48a); (0x4c2, 7, 2, 0x4c1);
    (0x4cf, 1, 1, 0x4c0); (0x4d1, 48, 2, 0x4d0); (0x561, 38, 1, 0x531);
    (0x10d0, 43, 1, 0x1c90); (0x10fd, 3, 1, 0x1cbd); (0x13f8, 6, 1, 0x13f0);
    (0x1c80, 1, 1, 0x412); (0x1c81, 1, 1, 0x414); (0x1c82, 1, 1, 0x41e);
    (0x1c83, 2, 1, 0x421); (0x1c85, 1, 1, 0x422); (0x1c86, 1, 1, 0x42a);
    (0x1c87, 1, 1, 0x462); (0x1c88, 1, 1, 0xa64a); (0x1d79, 1, 1, 0xa77d);
    (0x1d7d, 1, 1, 0x2c63); (0x1d8e, 1, 1, 0xa7c6); (0x1e01, 75, 2, 0x1e00);
    (0x1e9b, 1, 1, 0x1e60); (0x1ea1, 48, 2, 0x1ea0); (0x1f00, 8, 1, 0x1f08);
    (0x1f10, 6, 1, 0x1f18); (0x1f20, 8, 1, 0x1f28); (0x1f30, 8, 1, 0x1f38);
    (0x1f40, 6, 1, 0x1f48); (0x1f51, 4, 2, 0x1f59); (0x1f60, 8, 1, 0x1f68);
    (0x1f70, 2, 1, 0x1fba); (0x1f72, 4, 1, 0x1fc8); (0x1f76, 2, 1, 0x1fda);
    (0x1f78, 2, 1, 0x1ff8); (0x1f7a, 2, 1, 0x1fea); (0x1f7c, 2, 1, 0x1ffa);
    (0x1fb0, 2, 1, 0x1fb8); (0x1fbe, 1, 1, 0x399); (0x1fd0, 2, 1, 0x1fd8);
    (0x1fe0, 2, 1, 0x1fe8); (0x1fe5, 1, 1, 0x1fec); (0x214e, 1, 1, 0x2132);
    (0x2170, 16, 1, 0x2160); (0x2184, 1, 1, 0x2183); (0x24d0, 26, 1, 0x24b6);
    (0x2c30, 48, 1, 0x2c00); (0x2c61, 1, 1, 0x2c60); (0x2c65, 1, 1, 0x23a);
    (0x2c66, 1, 1, 0x23e); (0x2c68, 3, 2, 0x2c67); (0x2c73, 1, 1, 0x2c72);
    (0x2c76, 1, 1, 0x2c75); (0x2c81, 50, 2, 0x2c80); (0x2cec, 2, 2, 0x2ceb);
    (0x2cf3, 1, 1, 0x2cf2); (0x2d00, 38, 1, 0x10a0); (0x2d27, 1, 1, 0x10c7);
    (0x2d2d, 1, 1, 0x10cd); (0xa641, 23, 2, 0xa640); (0xa681, 14, 2, 0xa680);
    (0xa723, 7, 2, 0xa722); (0xa733, 31, 2, 0xa732); (0xa77a, 2, 2, 0xa779);
    (0xa77f, 5, 2, 0xa77e); (0xa78c, 1, 1, 0xa78b); (0xa791, 2, 2, 0xa790);
    (0xa794, 1, 1, 0xa7c4); (0xa797, 10, 2, 0xa796); (0xa7b5, 8, 2, 0xa7b4);
    (0xa7c8, 2, 2, 0xa7c7); (0xa7d1, 1, 1, 0xa7d0); (0xa7d7, 2, 2, 0xa7d6);
    (0xa7f6, 1, 1, 0xa7f5); (0xab53, 1, 1, 0xa7b3); (0xab70, 80, 1, 0x13a0);
    (0xff41, 26, 1, 0xff21); (0x10428, 40, 1, 0x10400);
    (0x104d8, 36, 1, 0x104b0); (0x10597, 11, 1, 0x10570);
    (0x105a3, 15, 1, 0x1057c); (0x105b3, 7, 1, 0x1058c);
    (0x105bb, 2, 1, 0x10594); (0x10cc0, 51, 1, 0x10c80);
    (0x118c0, 32, 1, 0x118a0); (0x16e60, 32, 1, 0x16e40);
    (0x1e922, 34, 1, 0x1e900) ]%N.

(** The characters whose upper-case mapping has several characters. *)
Definition upper_special : list (N * list N) :=
  [
    (0xdf, [0x53; 0x53]); (0x149, [0x2bc; 0x4e]); (0x1f0, [0x4a; 0x30c]);
    (0x390, [0x399; 0x308; 0x301]); (0x3b0, [0x3a5; 0x308; 0x301]);
    (0x587, [0x535; 0x552]); (0x1e96, [0x48; 0x331]);
    (0x1e97, [0x54; 0x308]); (0x1e98, [0x57; 0x30a]);
    (0x1e99, [0x59; 0x30a]); (0x1e9a, [0x41; 0x2be]);
    (0x1f50, [0x3a5; 0x313]); (0x1f52, [0x3a5; 0x313; 0x300]);
    (0x1f54, [0x3a5; 0x313; 0x301]); (0x1f56, [0x3a5; 0x313; 0x342]);
    (0x1f80, [0x1f08; 0x399]); (0x1f81, [0x1f09; 0x399]);
    (0x1f82, [0x1f0a; 0x399]); (0x1f83, [0x1f0b; 0x399]);
    (0x1f84, [0x1f0c; 0x399]); (0x1f85, [0x1f0d; 0x399]);
    (0x1f86, [0x1f0e; 0x399]); (0x1f87, [0x1f0f; 0x399]);
    (0x1f88, [0x1f08; 0x399]); (0x1f89, [0x1f09; 0x399]);
    (0x1f8a, [0x1f0a; 0x399]); (0x1f8b, [0x1f0b; 0x399]);
    (0x1f8c, [0x1f0c; 0x399]); (0x1f8d, [0x1f0d; 0x399]);
    (0x1f8e, [0x1f0e; 0x399]); (0x1f8f, [0x1f0f; 0x399]);
    (0x1f90, [0x1f28; 0x399]); (0x1f91, [0x1f29; 0x399]);
    (0x1f92, [0x1f2a; 0x399]); (0x1f93, [0x1f2b; 0x399]);
    (0x1f94, [0x1f2c; 0x399]); (0x1f95, [0x1f2d; 0x399]);
    (0x1f96, [0x1f2e; 0x399]); (0x1f97, [0x1f2f; 0x399]);
    (0x1f98, [0x1f28; 0x399]); (0x1f99, [0x1f29; 0x399]);
    (0x1f9a, [0x1f2a; 0x399]); (0x1f9b, [0x1f2b; 0x399]);
    (0x1f9c, [0x1f2c; 0x399]); (0x1f9d, [0x1f2d; 0x399]);
    (0x1f9e, [0x1f2e; 0x399]); (0x1f9f, [0x1f2f; 0x399]);
    (0x1fa0, [0x1f68; 0x399]); (0x1fa1, [0x1f69; 0x399]);
    (0x1fa2, [0x1f6a; 0x399]); (0x1fa3, [0x1f6b; 0x399]);
    (0x1fa4, [0x1f6c; 0x399]); (0x1fa5, [0x1f6d; 0x399]);
    (0x1fa6, [0x1f6e; 0x399]); (0x1fa7, [0x1f6f; 0x399]);
    (0x1fa8, [0x1f68; 0x399]); (0x1fa9, [0x1f69; 0x399]);
    (0x1faa, [0x1f6a; 0x399]); (0x1fab, [0x1f6b; 0x399]);
    (0x1fac, [0x1f6c; 0x399]); (0x1fad, [0x1f6d; 0x399]);
    (0x1fae, [0x1f6e; 0x399]); (0x1faf, [0x1f6f; 0x399]);
    (0x1fb2, [0x1fba; 0x399]); (0x1fb3, [0x391; 0x399]);
    (0x1fb4, [0x386; 0x399]); (0x1fb6, [0x391; 0x342]);
    (0x1fb7, [0x391; 0x342; 0x399]); (0x1fbc, [0x391; 0x399]);
    (0x1fc2, [0x1fca; 0x399]); (0x1fc3, [0x397; 0x399]);
    (0x1fc4, [0x389; 0x399]); (0x1fc6, [0x397; 0x342]);
    (0x1fc7, [0x397; 0x342; 0x399]); (0x1fcc, [0x397; 0x399]);
    (0x1fd2, [0x399; 0x308; 0x300]); (0x1fd3, [0x399; 0x308; 0x301]);
    (0x1fd6, [0x399; 0x342]); (0x1fd7, [0x399; 0x308; 0x342]);
    (0x1fe2, [0x3a5; 0x308; 0x300]); (0x1fe3, [0x3a5; 0x308; 0x301]);
    (0x1fe4, [0x3a1; 0x313]); (0x1fe6, [0x3a5; 0x342]);
    (0x1fe7, [0x3a5; 0x308; 0x342]); (0x1ff2, [0x1ffa; 0x399]);
    (0x1ff3, [0x3a9; 0x399]); (0x1ff4, [0x38f; 0x399]);
    (0x1ff6, [0x3a9; 0x342]); (0x1ff7, [0x3a9; 0x342; 0x399]);
    (0x1ffc, [0x3a9; 0x399]); (0xfb00, [0x46; 0x46]); (0xfb01, [0x46; 0x49]);
    (0xfb02, [0x46; 0x4c]); (0xfb03, [0x46; 0x46; 0x49]);
    (0xfb04, [0x46; 0x46; 0x4c]); (0xfb05, [0x53; 0x54]);
    (0xfb06, [0x53; 0x54]); (0xfb13, [0x544; 0x546]);
    (0xfb14, [0x544; 0x535]); (0xfb15, [0x544; 0x53b]);
    (0xfb16, [0x54e; 0x546]); (0xfb17, [0x544; 0x53d]) ]%N.

Definition in_run (c : N) (r : N * N * N * N) : option N :=
  let '(first, count, step, image) := r in
  if ((first <=? c) && (c <? first + count * step) &&
      ((c - first) mod step =? 0))%N
  then Some (image + (c - first))%N
  else None.

Fixpoint find_run (c : N) (l : list (N * N * N * N)) : option N :=
  match l with
  | [] => None
  | r :: l' =>
      match in_run c r with
      | Some u => Some u
      | None => find_run c l'
      end
  end.

Fixpoint find_special (c : N) (l : list (N * list N)) : option (list N) :=
  match l with
  | [] => None
  | (k, u) :: l' => if (c =? k)%N then Some u else find_special c l'
  end.

(** The upper-case mapping of the code point [c], when it is not [c]. *)
Definition to_upper (c : N) : option (list N) :=
  match find_special c upper_special with
  | Some u => Some u
  | None =>
      match find_run c upper_runs with
      | Some u => Some [u]
      | None => None
      end
  end.

(** The UTF-8 code units of a code point. *)
Definition utf8_encode (c : N) : string :=
  let unit n := String (ascii_of_N n) EmptyString in
  let tail n := unit (0x80 + n mod 64)%N in
  (if c <? 0x80 then unit c
   else if c <? 0x800 then unit (0xC0 + c / 64) ++ tail c
   else if c <? 0x10000 then
     unit (0xE0 + c / 4096) ++ tail (c / 64) ++ tail c
   else
     unit (0xF0 + c / 262144) ++ tail (c / 4096) ++ tail (c / 64) ++ tail c)%N
  %string.

Fixpoint utf8_encode_all (l : list N) : string :=
  match l with
  | [] => EmptyString
  | c :: l' => (utf8_encode c ++ utf8_encode_all l')%string
  end.

(** The payload of a continuation unit ([10xxxxxx]). *)
Definition continuation (a : ascii) : option N :=
  let b := N_of_ascii a in
  if ((0x80 <=? b) && (b <? 0xC0))%N then Some (b - 0x80)%N else None.

(** The upper-case form of the character [c], whose code units are [units]. *)
Definition upper_char (c : N) (units : string) : string :=
  match to_upper c with
  | Some u => utf8_encode_all u
  | None => units
  end.

(** [s.upper()] on the code units of [s]: the text is read one character at
    a time, a character being one to four code units. Code units that are
    not the encoding of a character (no [str] has them) are left as they
    are. *)
Fixpoint upper (s : string) : string :=
  match s with
  | EmptyString => EmptyString
  | String a0 s1 =>
      let b0 := N_of_ascii a0 in
      let other := String a0 (upper s1) in
      if (b0 <? 0x80)%N then
        (upper_char b0 (String a0 EmptyString) ++ upper s1)%string
      else
        match s1 with
        | EmptyString => other
        | String a1 s2 =>
            match continuation a1 with
            | None => other
            | Some x1 =>
                if (b0 <? 0xC0)%N then other
                else if (b0 <? 0xE0)%N then
                  let c := ((b0 - 0xC0) * 64 + x1)%N in
                  if (0x80 <=? c)%N then
                    (upper_char c (String a0 (String a1 EmptyString))
                       ++ upper s2)%string
                  else other
                else
                  match s2 with
                  | EmptyString => other
                  | String a2 s3 =>
                      match continuation a2 with
                      | None => other
                      | Some x2 =>
                          if (b0 <? 0xF0)%N then
                            let c := (((b0 - 0xE0) * 64 + x1) * 64 + x2)%N in
                            if (0x800 <=? c)%N then
                              (upper_char c
                                 (String a0 (String a1 (String a2 EmptyString)))
                                 ++ upper s3)%string
                            else other
                          else
                            match s3 with
                            | EmptyString => other
                            | String a3 s4 =>
                                match continuation a3 with
                                | None => other
                                | Some x3 =>
                                    let c :=
                                      ((((b0 - 0xF0) * 64 + x1) * 64 + x2) * 64
                                       + x3)%N in
                                    if ((b0 <? 0xF8) && (0x10000 <=? c) &&
                                        (c <? 0x110000))%N then
                                      (upper_char c
                                         (String a0 (String a1 (String a2
                                            (String a3 EmptyString))))
                                         ++ upper s4)%string
                                    else other
                                end
                            end
                      end
                  end
            end
        end
  end.

(** A code point of Unicode. *)
Definition code_point (c : N) : bool := (c <? 0x110000)%N.

(** The upper-case mapping of the character [c], as code points. *)
Definition upper_code_point (c : N) : list N :=
  match to_upper c with
  | Some u => u
  | None => [c]
  end.

(** ** The cryptography backend

    The block cipher and the digests are primitives of the backend that
    [settings.CRYPTOGRAPHY_BACKEND] names. *)

Record Backend : Type := {
  aes_encrypt_block : bytes -> bytes -> bytes;   (* key, 16-byte block *)
  aes_decrypt_block : bytes -> bytes -> bytes;
  hash_digest : HashAlgorithm -> bytes -> bytes
}.

(** What the code relies on: with a key of a valid size, the block cipher
    maps blocks to blocks and decryption inverts encryption; a digest has
    its [digest_size]. *)
Definition aes_key_size_ok (key : bytes) : bool :=
  (length key =? 16) || (length key =? 24) || (length key =? 32).

Record BackendLaws (B : Backend) : Prop := {
  aes_encrypt_block_length : forall k b,
    aes_key_size_ok k = true -> length b = 16 ->
    length (aes_encrypt_block B k b) = 16;
  aes_decrypt_encrypt_block : forall k b,
    aes_key_size_ok k = true -> length b = 16 ->
    aes_decrypt_block B k (aes_encrypt_block B k b) = b;
  hash_digest_length : forall a m,
    length (hash_digest B a m) = digest_size a
}.

(** ** [cryptography.hazmat.primitives.ciphers]: AES in CBC mode *)

(** [algorithms.AES(key)]: the key size is checked at construction; 512-bit
    keys are accepted here (they exist for XTS) and refused by the mode. *)
Definition AES (key : bytes) : result bytes :=
  if aes_key_size_ok key || (length key =? 64) then ret key
  else raise (ValueError "Invalid key size for AES.").

(** [modes.CBC(iv)] only stores the vector. *)
Definition CBC (iv : bytes) : bytes := iv.

Record CipherObj : Type := {
  cipher_backend : Backend;
  cipher_key : bytes;
  cipher_iv : bytes
}.

(** [Cipher(algorithm, mode, backend)]: the mode validates itself against
    the algorithm, first the key length, then the IV length. *)
Definition Cipher (algorithm : bytes) (mode : bytes) (backend : Backend)
  : result CipherObj :=
  if 32 <? length algorithm then
    raise (ValueError "Only 128, 192, and 256 bit keys are allowed for this AES mode")
  else if negb (length mode * 8 =? AES_block_size) then
    raise (ValueError "Invalid IV size for AES.")
  else
    ret {| cipher_backend := backend; cipher_key := algorithm; cipher_iv := mode |}.

(** An encryption or decryption context: the chaining value (the IV, then
    the last ciphertext block) and the input not yet forming a block. *)
Record CipherContext : Type := {
  ctx_backend : Backend;
  ctx_key : bytes;
  ctx_chain : bytes;
  ctx_buffer : bytes
}.

Definition new_context (c : CipherObj) : CipherContext :=
  {| ctx_backend := cipher_backend c; ctx_key := cipher_key c;
     ctx_chain := cipher_iv c; ctx_buffer := [] |}.

Definition encryptor (c : CipherObj) : CipherContext := new_context c.
Definition decryptor (c : CipherObj) : CipherContext := new_context c.

(** CBC over [n] whole blocks of [data]: the output and the new chaining
    value. *)
Fixpoint cbc_encrypt_blocks (B : Backend) (key : bytes) (n : nat)
  (chain data : bytes) : bytes * bytes :=
  match n with
  | 0 => ([], chain)
  | S n' =>
      let c := aes_encrypt_block B key (xor_bytes (take 16 data) chain) in
      let '(out, chain') := cbc_encrypt_blocks B key n' c (drop 16 data) in
      (c ++ out, chain')
  end.

Fixpoint cbc_decrypt_blocks (B : Backend) (key : bytes) (n : nat)
  (chain data : bytes) : bytes * bytes :=
  match n with
  | 0 => ([], chain)
  | S n' =>
      let c := take 16 data in
      let p := xor_bytes (aes_decrypt_block B key c) chain in
      let '(out, chain') := cbc_decrypt_blocks B key n' c (drop 16 data) in
      (p ++ out, chain')
  end.

Definition context_update
  (blocks : Backend -> bytes -> nat -> bytes -> bytes -> bytes * bytes)
  (ctx : CipherContext) (data : bytes) : CipherContext * bytes :=
  let buffer := ctx_buffer ctx ++ data in
  let n := length buffer / 16 in
  let '(out, chain') :=
    blocks (ctx_backend ctx) (ctx_key ctx) n (ctx_chain ctx) buffer in
  ({| ctx_backend := ctx_backend ctx; ctx_key := ctx_key ctx;
      ctx_chain := chain'; ctx_buffer := drop (n * 16) buffer |}, out).

Definition encryptor_update := context_update cbc_encrypt_blocks.
Definition decryptor_update := context_update cbc_decrypt_blocks.

(** [finalize()]: without cipher-level padding, input left in the buffer
    means the data was not a whole number of blocks. *)
Definition context_finalize (ctx : CipherContext) : result bytes :=
  match ctx_buffer ctx with
  | [] => ret []
  | _ :: _ =>
      raise (ValueError
        "The length of the provided data is not a multiple of the block length.")
  end.

Definition encryptor_finalize := context_finalize.
Definition decryptor_finalize := context_finalize.

(** ** Hash and HMAC contexts *)

Record HashContext : Type := {
  hash_backend : Backend;
  hash_algorithm : HashAlgorithm;
  hash_data : bytes
}.

Definition Hash (a : HashAlgorithm) (backend : Backend) : HashContext :=
  {| hash_backend := backend; hash_algorithm := a; hash_data := [] |}.

Definition Hash_update (h : HashContext) (data : bytes) : HashContext :=
  {| hash_backend := hash_backend h; hash_algorithm := hash_algorithm h;
     hash_data := hash_data h ++ data |}.

Definition Hash_finalize (h : HashContext) : bytes :=
  hash_digest (hash_backend h) (hash_algorithm h) (hash_data h).

(** HMAC (RFC 2104) over a digest of the backend. *)
Definition hmac (B : Backend) (a : HashAlgorithm) (key msg : bytes) : bytes :=
  let bs := hmac_block_size a in
  let key' := if bs <? length key then hash_digest B a key else key in
  let key0 := key' ++ repeat x00 (bs - length key') in
  hash_digest B a
    (map (byte_xor x5c) key0 ++
     hash_digest B a (map (byte_xor x36) key0 ++ msg)).

(** A live HMAC object: key, digest and the data fed so far. *)
Record HMACContext : Type := {
  hmac_backend : Backend;
  hmac_key : bytes;
  hmac_algorithm : HashAlgorithm;
  hmac_data : bytes
}.

Definition HMAC (key : bytes) (a : HashAlgorithm) (backend : Backend)
  : HMACContext :=
  {| hmac_backend := backend; hmac_key := key; hmac_algorithm := a;
     hmac_data := [] |}.

Definition HMAC_update (h : HMACContext) (data : bytes) : HMACContext :=
  {| hmac_backend := hmac_backend h; hmac_key := hmac_key h;
     hmac_algorithm := hmac_algorithm h; hmac_data := hmac_data h ++ data |}.

Definition HMAC_finalize (h : HMACContext) : bytes :=
  hmac (hmac_backend h) (hmac_algorithm h) (hmac_key h) (hmac_data h).

(** ** [cryptography.hazmat.primitives.kdf.pbkdf2]: PBKDF2-HMAC (RFC 8018) *)

Definition INT_32_BE (i : N) : bytes :=
  [byte_of_N (N.shiftr i 24); byte_of_N (N.shiftr i 16);
   byte_of_N (N.shiftr i 8); byte_of_N i].

(** [n] further applications of the pseudo-random function, each one
    folded into the accumulator. *)
Fixpoint pbkdf2_rounds (prf : bytes -> bytes) (n : nat) (u acc : bytes)
  : bytes :=
  match n with
  | 0 => acc
  | S n' => let u' := prf u in pbkdf2_rounds prf n' u' (xor_bytes acc u')
  end.

(** Block [i] of the derived key: [U_1 xor ... xor U_c]. *)
Definition pbkdf2_F (B : Backend) (a : HashAlgorithm) (password salt : bytes)
  (c : nat) (i : N) : bytes :=
  let u1 := hmac B a password (salt ++ INT_32_BE i) in
  pbkdf2_rounds (hmac B a password) (c - 1) u1 u1.

Fixpoint pbkdf2_blocks (B : Backend) (a : HashAlgorithm)
  (password salt : bytes) (c : nat) (l : nat) (i : N) : bytes :=
  match l with
  | 0 => []
  | S l' =>
      pbkdf2_F B a password salt c i ++
      pbkdf2_blocks B a password salt c l' (N.succ i)
  end.

Record PBKDF2HMAC_obj : Type := {
  kdf_backend : Backend;
  kdf_algorithm : HashAlgorithm;
  kdf_length : Z;
  kdf_salt : bytes;
  kdf_iterations : Z
}.

Definition PBKDF2HMAC (algorithm : HashAlgorithm) (length : Z) (salt : bytes)
  (iterations : Z) (backend : Backend) : PBKDF2HMAC_obj :=
  {| kdf_backend := backend; kdf_algorithm := algorithm; kdf_length := length;
     kdf_salt := salt; kdf_iterations := iterations |}.

(** [kdf.derive(key_material)]. A negative length, an iteration count below
    one and a length above [(2^32 - 1) * hLen] are refused. *)
Definition PBKDF2HMAC_derive (kdf : PBKDF2HMAC_obj) (key_material : bytes)
  : result bytes :=
  let hlen := digest_size (kdf_algorithm kdf) in
  if (kdf_length kdf <? 0)%Z then raise (ValueError "Invalid key length.")
  else if (kdf_iterations kdf <? 1)%Z then
    raise (ValueError "Invalid iteration count.")
  else if ((2 ^ 32 - 1) * Z.of_nat hlen <? kdf_length kdf)%Z then
    raise (ValueError "Derived key too long.")
  else
    let dklen := Z.to_nat (kdf_length kdf) in
    let l := (dklen + hlen - 1) / hlen in
    ret (take dklen
           (pbkdf2_blocks (kdf_backend kdf) (kdf_algorithm kdf) key_material
              (kdf_salt kdf) (Z.to_nat (kdf_iterations kdf)) l 1)).

(** ** [django_cryptography/typing.py]: the [Signer] protocol

    A signer class gives the three methods of the protocol; they receive the
    attributes [__init__(key, algorithm)] stored. [unsign] checks the age of
    a signature against the clock. An instance remembers its class, so that
    [type(signer)(key)] can build another instance of it. *)

Record SignerClass : Type := {
  signature_method :
    option bytes_or_str -> option string -> bytes_or_str -> result bytes;
  sign_method :
    option bytes_or_str -> option string -> bytes_or_str -> Z -> result bytes;
  unsign_method :
    option bytes_or_str -> option string -> World -> bytes -> option Z ->
    result bytes
}.

Record Signer : Type := {
  signer_type : SignerClass;
  signer_key : option bytes_or_str;
  signer_algorithm : option string
}.

(** [cls(key, algorithm)] *)
Definition new_signer (cls : SignerClass) (key : option bytes_or_str)
  (algorithm : option string) : Signer :=
  {| signer_type := cls; signer_key := key; signer_algorithm := algorithm |}.

Definition sign (s : Signer) (value : bytes_or_str) (current_time : Z)
  : result bytes :=
  sign_method (signer_type s) (signer_key s) (signer_algorithm s)
    value current_time.

Definition unsign (s : Signer) (w : World) (signed_value : bytes)
  (max_age : option Z) : result bytes :=
  unsign_method (signer_type s) (signer_key s) (signer_algorithm s)
    w signed_value max_age.

(** ** [django_cryptography/utils/crypto.py] *)

(** [settings = CryptographyConf()]: the three settings the module reads. *)
Record CryptographyConf : Type := {
  SECRET_KEY : bytes_or_str;
  CRYPTOGRAPHY_KEY : bytes_or_str;
  CRYPTOGRAPHY_BACKEND : Backend
}.

(** The engine classes; [Fernet] derives from [FernetBytes]. *)
Inductive engine_class : Type := FernetBytesClass | FernetClass.

(** An instance of [FernetBytes] or of [Fernet]. *)
Record FernetObj : Type := {
  self_class : engine_class;
  self_key : bytes_or_str;
  self_signer : Signer
}.

Section Crypto.

Variable settings : CryptographyConf.

(** [django_cryptography.core.signing.FernetSigner], the class of the
    default signer. *)
Variable FernetSigner : SignerClass.

(** The default of the keyword argument [algorithm]. *)
Definition salted_hmac_default_algorithm : string := "sha1".

(** [salted_hmac] (lines 26-64): the HMAC object of [value] under a key
    derived from [key_salt] and [secret]. The lookup of the digest class is
    the only statement inside the [try]; [AttributeError] becomes
    [InvalidAlgorithm], which carries the name given. *)
Definition salted_hmac (key_salt value : bytes_or_str)
  (secret : option bytes_or_str) (algorithm : string) : result HMACContext :=
  let secret :=
    match secret with
    | None => SECRET_KEY settings
    | Some s => s
    end in
  let key_salt := force_bytes key_salt in
  let secret := force_bytes secret in
  hasher <-
    match hashes_getattr (upper algorithm) with
    | Some h => ret h
    | None => raise (InvalidAlgorithm algorithm)
    end ;;
  a <- call_hasher hasher ;;
  let digest := Hash a (CRYPTOGRAPHY_BACKEND settings) in
  let digest := Hash_update digest (key_salt ++ secret) in
  let key := Hash_finalize digest in
  a' <- call_hasher hasher ;;
  let h := HMAC key a' (CRYPTOGRAPHY_BACKEND settings) in
  ret (HMAC_update h (force_bytes value)).

(** [constant_time.bytes_eq] decides equality of the two byte strings. *)
Fixpoint bytes_eq (a b : bytes) : bool :=
  match a, b with
  | [], [] => true
  | x :: a', y :: b' => Byte.eqb x y && bytes_eq a' b'
  | _, _ => false
  end.

(** [constant_time_compare] (lines 70-72). *)
Definition constant_time_compare (val1 val2 : bytes_or_str) : bool :=
  bytes_eq (force_bytes val1) (force_bytes val2).

(** [pbkdf2] (lines 75-94); [digest = None] and [dklen = 0] are the
    defaults of the two optional arguments. *)
Definition pbkdf2 (password salt : bytes_or_str) (iterations : Z) (dklen : Z)
  (digest : option HashAlgorithm) : result bytes :=
  let digest :=
    match digest with
    | None => SHA256
    | Some d => d
    end in
  let dklen := if (dklen =? 0)%Z then Z.of_nat (digest_size digest) else dklen in
  let password := force_bytes password in
  let salt := force_bytes salt in
  let kdf :=
    PBKDF2HMAC digest dklen salt iterations (CRYPTOGRAPHY_BACKEND settings) in
  PBKDF2HMAC_derive kdf password.

(** [FernetBytes.__init__] (lines 105-111), run on an instance of class
    [cls]. *)
Definition FernetBytes_init (cls : engine_class) (key : option bytes_or_str)
  (signer : option Signer) : FernetObj :=
  let signer :=
    match signer with
    | None => new_signer FernetSigner None None
    | Some s => s
    end in
  {| self_class := cls;
     self_key := py_or key (CRYPTOGRAPHY_KEY settings);
     self_signer := signer |}.

(** [FernetBytes._encrypt_from_parts] (lines 121-131). *)
Definition FernetBytes_encrypt_from_parts (self : FernetObj) (data : bytes)
  (current_time : Z) (iv : bytes) : result bytes :=
  let padder := PKCS7_padder AES_block_size in
  let '(padder, head) := padder_update padder data in
  let padded_data := head ++ padder_finalize padder in
  algorithm <- AES (force_bytes (self_key self)) ;;
  cipher <- Cipher algorithm (CBC iv) (CRYPTOGRAPHY_BACKEND settings) ;;
  let encryptor := encryptor cipher in
  let '(encryptor, head) := encryptor_update encryptor padded_data in
  tail <- encryptor_finalize encryptor ;;
  let ciphertext := head ++ tail in
  sign (self_signer self) (PyBytes (iv ++ ciphertext)) current_time.

(** [FernetBytes.decrypt] (lines 133-156). The calls of [unsign], [AES] and
    [Cipher] are outside the two [try] blocks, which enclose the two calls
    of [finalize] only. *)
Definition FernetBytes_decrypt (self : FernetObj) (w : World) (data : bytes)
  (ttl : option Z) : result bytes :=
  data <- unsign (self_signer self) w data ttl ;;
  let iv := take 16 data in
  let ciphertext := drop 16 data in
  algorithm <- AES (force_bytes (self_key self)) ;;
  cipher <- Cipher algorithm (CBC iv) (CRYPTOGRAPHY_BACKEND settings) ;;
  let decryptor := decryptor cipher in
  let '(decryptor, plaintext_padded) := decryptor_update decryptor ciphertext in
  tail <- try_except (decryptor_finalize decryptor) [ValueErrorC] InvalidToken ;;
  let plaintext_padded := plaintext_padded ++ tail in
  let unpadder := PKCS7_unpadder AES_block_size in
  let '(unpadder, unpadded) := unpadder_update unpadder plaintext_padded in
  tail <- try_except (unpadder_finalize unpadder) [ValueErrorC] InvalidToken ;;
  ret (unpadded ++ tail).

(** [Fernet.__init__] (lines 160-172). With [key = None] the base
    constructor is called without arguments. *)
Definition Fernet_init (key : option bytes_or_str) (signer : option Signer)
  : result FernetObj :=
  let signer :=
    match signer with
    | None => new_signer FernetSigner None None
    | Some s => s
    end in
  match key with
  | None => ret (FernetBytes_init FernetClass None None)
  | Some key =>
      key <- urlsafe_b64decode key ;;
      if negb (length key =? 32) then
        raise (ValueError "Fernet key must be 32 url-safe base64-encoded bytes.")
      else
        ret (FernetBytes_init FernetClass
               (Some (PyBytes (drop 16 key)))
               (Some (new_signer (signer_type signer)
                        (Some (PyBytes (take 16 key))) None)))
  end.

(** [Fernet._encrypt_from_parts] (lines 174-176). *)
Definition Fernet_encrypt_from_parts (self : FernetObj) (data : bytes)
  (current_time : Z) (iv : bytes) : result bytes :=
  payload <- FernetBytes_encrypt_from_parts self data current_time iv ;;
  ret (urlsafe_b64encode payload).

(** [Fernet.decrypt] (lines 178-183). *)
Definition Fernet_decrypt (self : FernetObj) (w : World) (token : bytes)
  (ttl : option Z) : result bytes :=
  data <- try_except (urlsafe_b64decode (PyBytes token))
            [TypeErrorC; BinasciiErrorC] InvalidToken ;;
  FernetBytes_decrypt self w data ttl.

(** Method lookup on the class of [self]. *)
Definition encrypt_from_parts (self : FernetObj) :=
  match self_class self with
  | FernetBytesClass => FernetBytes_encrypt_from_parts self
  | FernetClass => Fernet_encrypt_from_parts self
  end.

Definition decrypt (self : FernetObj) :=
  match self_class self with
  | FernetBytesClass => FernetBytes_decrypt self
  | FernetClass => Fernet_decrypt self
  end.

(** [encrypt_at_time] (lines 116-119) and [encrypt] (lines 113-114) are
    defined in [FernetBytes] only and inherited by [Fernet]; the call of
    [self._encrypt_from_parts] goes to the method of the class of [self]. *)
Definition encrypt_at_time (self : FernetObj) (data : bytes_or_str)
  (current_time : Z) (w : World) : result bytes * World :=
  let data := force_bytes data in
  let '(iv, w') := os_urandom 16 w in
  (encrypt_from_parts self data current_time iv, w').

Definition encrypt (self : FernetObj) (data : bytes_or_str) (w : World)
  : result bytes * World :=
  encrypt_at_time self data (int_time_time w) w.

End Crypto.

(** ** Instances on which the model runs *)

(** *** SHA-1, SHA-224 and SHA-256

    The digests of FIPS 180-4 on 32-bit words, held in [N]. *)

Definition w32 (x : N) : N := N.land x 4294967295.
Definition add32 (a b : N) : N := w32 (a + b).
Definition rotr (n x : N) : N :=
  N.lor (N.shiftr x n) (w32 (N.shiftl x (32 - n))).
Definition sha_Ch (x y z : N) : N :=
  N.lxor (N.land x y) (N.land (N.lxor x 4294967295) z).
Definition sha_Maj (x y z : N) : N :=
  N.lxor (N.lxor (N.land x y) (N.land x z)) (N.land y z).
Definition big_sigma0 (x : N) : N :=
  N.lxor (N.lxor (rotr 2 x) (rotr 13 x)) (rotr 22 x).
Definition big_sigma1 (x : N) : N :=
  N.lxor (N.lxor (rotr 6 x) (rotr 11 x)) (rotr 25 x).
Definition small_sigma0 (x : N) : N :=
  N.lxor (N.lxor (rotr 7 x) (rotr 18 x)) (N.shiftr x 3).
Definition small_sigma1 (x : N) : N :=
  N.lxor (N.lxor (rotr 17 x) (rotr 19 x)) (N.shiftr x 10).

(** The constants of SHA-2 come from the first primes: the first 32 bits of
    the fractional parts of their cube roots are the round constants, those
    of their square roots the initial state. *)
Definition is_prime (n : N) : bool :=
  (1 <? n)%N &&
  forallb (fun d => negb (n mod N.of_nat d =? 0)%N) (seq 2 (N.to_nat n - 2)).

Definition first_primes : list N :=
  Eval vm_compute in filter is_prime (map N.of_nat (seq 0 312)).

(** [cube_root_bits bits r n]: the cube root of [n], rounded down, by
    bisection on the [bits] low bits of [r]. *)
Fixpoint cube_root_bits (bits : nat) (r n : N) : N :=
  match bits with
  | 0 => r
  | S b =>
      let r' := (r + 2 ^ N.of_nat b)%N in
      if (r' * r' * r' <=? n)%N then cube_root_bits b r' n
      else cube_root_bits b r n
  end.

Definition sha256_K : list N :=
  Eval vm_compute in
    map (fun p => (cube_root_bits 40 0 (p * 2 ^ 96)) mod 2 ^ 32)%N first_primes.

Definition sqrt_fraction (shift : N) (p : N) : N :=
  (N.sqrt (p * 2 ^ shift) mod 2 ^ 32)%N.

Definition sha256_state : Type := (N * N * N * N * N * N * N * N)%type.

Definition state_of_list (l : list N) : sha256_state :=
  (nth 0 l 0, nth 1 l 0, nth 2 l 0, nth 3 l 0,
   nth 4 l 0, nth 5 l 0, nth 6 l 0, nth 7 l 0)%N.

Definition sha256_H0 : sha256_state :=
  Eval vm_compute in
    state_of_list (map (sqrt_fraction 64) (firstn 8 first_primes)).

(** The rounds of the compression function; [w] is the window of the last
    sixteen words of the message schedule. *)
Fixpoint sha256_rounds (ks : list N) (w : list N) (st : sha256_state)
  : sha256_state :=
  match ks with
  | [] => st
  | k :: ks' =>
      let '(a, b, c, d, e, f, g, h) := st in
      let wt := nth 0 w 0%N in
      let t1 :=
        add32 (add32 (add32 (add32 h (big_sigma1 e)) (sha_Ch e f g)) k) wt in
      let t2 := add32 (big_sigma0 a) (sha_Maj a b c) in
      let next :=
        add32 (add32 (add32 (small_sigma1 (nth 14 w 0%N)) (nth 9 w 0%N))
                 (small_sigma0 (nth 1 w 0%N))) wt in
      sha256_rounds ks' (tl w ++ [next])
        (add32 t1 t2, a, b, c, add32 d t1, e, f, g)
  end.

Definition word_of_bytes (b : bytes) : N :=
  fold_left (fun acc c => acc * 256 + Byte.to_N c)%N b 0%N.

Fixpoint words_of_bytes (n : nat) (b : bytes) : list N :=
  match n with
  | 0 => []
  | S n' => word_of_bytes (take 4 b) :: words_of_bytes n' (drop 4 b)
  end.

Definition sha256_compress (st : sha256_state) (block : bytes)
  : sha256_state :=
  let '(a, b, c, d, e, f, g, h) := st in
  let '(a', b', c', d', e', f', g', h') :=
    sha256_rounds sha256_K (words_of_bytes 16 block) st in
  (add32 a a', add32 b b', add32 c c', add32 d d',
   add32 e e', add32 f f', add32 g g', add32 h h').

Fixpoint sha256_blocks (n : nat) (st : sha256_state) (m : bytes)
  : sha256_state :=
  match n with
  | 0 => st
  | S n' => sha256_blocks n' (sha256_compress st (take 64 m)) (drop 64 m)
  end.

Definition sha256_pad (m : bytes) : bytes :=
  let l := length m in
  m ++ x80 :: repeat x00 ((119 - l mod 64) mod 64) ++
  map (fun i =>
         byte_of_N (N.shiftr (N.of_nat (8 * l)) (N.of_nat (8 * (7 - i)))))
    (seq 0 8).

Definition bytes_of_word (x : N) : bytes :=
  [byte_of_N (N.shiftr x 24); byte_of_N (N.shiftr x 16);
   byte_of_N (N.shiftr x 8); byte_of_N x].

Definition sha256 (m : bytes) : bytes :=
  let p := sha256_pad m in
  let '(a, b, c, d, e, f, g, h) := sha256_blocks (length p / 64) sha256_H0 p in
  bytes_of_word a ++ bytes_of_word b ++ bytes_of_word c ++ bytes_of_word d ++
  bytes_of_word e ++ bytes_of_word f ++ bytes_of_word g ++ bytes_of_word h.

(** SHA-224 is SHA-256 from another initial state, without the last word. *)
Definition sha224_H0 : sha256_state :=
  Eval vm_compute in
    state_of_list
      (map (sqrt_fraction 128) (firstn 8 (skipn 8 first_primes))).

Definition sha224 (m : bytes) : bytes :=
  let p := sha256_pad m in
  let '(a, b, c, d, e, f, g, _) := sha256_blocks (length p / 64) sha224_H0 p in
  bytes_of_word a ++ bytes_of_word b ++ bytes_of_word c ++ bytes_of_word d ++
  bytes_of_word e ++ bytes_of_word f ++ bytes_of_word g.

(** SHA-1 (FIPS 180-4); padding and word order are those of SHA-256. *)
Definition rotl (n x : N) : N := rotr (32 - n) x.

Definition sha1_state : Type := (N * N * N * N * N)%type.

Definition sha1_H0 : sha1_state :=
  (0x67452301, 0xefcdab89, 0x98badcfe, 0x10325476, 0xc3d2e1f0)%N.

Definition sha1_f (t : nat) (b c d : N) : N :=
  if t <? 20 then sha_Ch b c d
  else if t <? 40 then N.lxor (N.lxor b c) d
  else if t <? 60 then sha_Maj b c d
  else N.lxor (N.lxor b c) d.

Definition sha1_K (t : nat) : N :=
  if t <? 20 then 0x5a827999%N
  else if t <? 40 then 0x6ed9eba1%N
  else if t <? 60 then 0x8f1bbcdc%N
  else 0xca62c1d6%N.

Fixpoint sha1_rounds (n t : nat) (w : list N) (st : sha1_state)
  : sha1_state :=
  match n with
  | 0 => st
  | S n' =>
      let '(a, b, c, d, e) := st in
      let wt := nth 0 w 0%N in
      let temp :=
        add32 (add32 (add32 (add32 (rotl 5 a) (sha1_f t b c d)) e) (sha1_K t))
          wt in
      let next :=
        rotl 1 (N.lxor (N.lxor (N.lxor (nth 13 w 0%N) (nth 8 w 0%N))
                          (nth 2 w 0%N)) wt) in
      sha1_rounds n' (S t) (tl w ++ [next]) (temp, a, rotl 30 b, c, d)
  end.

Definition sha1_compress (st : sha1_state) (block : bytes) : sha1_state :=
  let '(a, b, c, d, e) := st in
  let '(a', b', c', d', e') :=
    sha1_rounds 80 0 (words_of_bytes 16 block) st in
  (add32 a a', add32 b b', add32 c c', add32 d d', add32 e e').

Fixpoint sha1_blocks (n : nat) (st : sha1_state) (m : bytes) : sha1_state :=
  match n with
  | 0 => st
  | S n' => sha1_blocks n' (sha1_compress st (take 64 m)) (drop 64 m)
  end.

Definition sha1 (m : bytes) : bytes :=
  let p := sha256_pad m in
  let '(a, b, c, d, e) := sha1_blocks (length p / 64) sha1_H0 p in
  bytes_of_word a ++ bytes_of_word b ++ bytes_of_word c ++ bytes_of_word d ++
  bytes_of_word e.

(** *** AES

    The block cipher of FIPS 197. The state is the list of its sixteen
    bytes, column by column. *)

(** Multiplication by [x] in GF(2^8). *)
Definition aes_xtime (b : byte) : byte :=
  let n := Byte.to_N b in
  byte_of_N (N.lxor (n * 2) (if (128 <=? n)%N then 283 else 0)).

(** [gf_mul_bits bits a b]: the product of [a] and the low [bits] bits of
    [b]. *)
Fixpoint gf_mul_bits (bits : nat) (a : byte) (b : N) : byte :=
  match bits with
  | 0 => x00
  | S n =>
      byte_xor (if N.odd b then a else x00)
        (gf_mul_bits n (aes_xtime a) (N.div2 b))
  end.

Definition gf_mul (c a : byte) : byte := gf_mul_bits 8 a (Byte.to_N c).

(** The inverse in GF(2^8) as the power 254, and the affine map. *)
Definition gf_inv (a : byte) : byte :=
  let a2 := gf_mul a a in
  let a4 := gf_mul a2 a2 in
  let a8 := gf_mul a4 a4 in
  let a16 := gf_mul a8 a8 in
  let a32 := gf_mul a16 a16 in
  let a64 := gf_mul a32 a32 in
  let a128 := gf_mul a64 a64 in
  gf_mul a2 (gf_mul a4 (gf_mul a8 (gf_mul a16 (gf_mul a32 (gf_mul a64 a128))))).

Definition rotl8 (n : N) (k : N) : N :=
  N.land (N.lor (N.shiftl n k) (N.shiftr n (8 - k))) 255.

Definition sbox_affine (b : byte) : byte :=
  let n := Byte.to_N b in
  byte_of_N (N.lxor (N.lxor (N.lxor (N.lxor (N.lxor n (rotl8 n 1)) (rotl8 n 2))
                               (rotl8 n 3)) (rotl8 n 4)) 99).

Definition sbox_table : bytes :=
  Eval vm_compute in map (fun b => sbox_affine (gf_inv b)) all_bytes.

Definition aes_sbox (b : byte) : byte :=
  nth (N.to_nat (Byte.to_N b)) sbox_table x00.

Definition inv_sbox_table : bytes :=
  Eval vm_compute in
    map (fun y => match find (fun x => Byte.eqb (aes_sbox x) y) all_bytes with
                  | Some x => x
                  | None => x00
                  end) all_bytes.

Definition aes_inv_sbox (b : byte) : byte :=
  nth (N.to_nat (Byte.to_N b)) inv_sbox_table x00.

Definition sub_bytes (s : bytes) : bytes := map aes_sbox s.
Definition inv_sub_bytes (s : bytes) : bytes := map aes_inv_sbox s.

(** Row [r] is rotated by [r] columns. *)
Definition shift_rows (s : bytes) : bytes :=
  map (fun i => nth (i mod 4 + 4 * ((i / 4 + i mod 4) mod 4)) s x00) (seq 0 16).

Definition inv_shift_rows (s : bytes) : bytes :=
  map (fun i => nth (i mod 4 + 4 * ((i / 4 + 4 - i mod 4) mod 4)) s x00)
    (seq 0 16).

Definition xor4 (a b c d : byte) : byte :=
  byte_xor (byte_xor (byte_xor a b) c) d.

Definition gf_dot (c0 c1 c2 c3 a b c d : byte) : byte :=
  xor4 (gf_mul c0 a) (gf_mul c1 b) (gf_mul c2 c) (gf_mul c3 d).

(** The contribution of one input byte [x] of a column to one output byte
    of [inv_mix_column] after [mix_column]: [k] is the row of the inverse
    matrix, [m] the column of the matrix. *)
Definition mix_coefficient (k0 k1 k2 k3 m0 m1 m2 m3 x : byte) : byte :=
  xor4 (gf_mul k0 (gf_mul m0 x)) (gf_mul k1 (gf_mul m1 x))
    (gf_mul k2 (gf_mul m2 x)) (gf_mul k3 (gf_mul m3 x)).

Definition mix_column (col : bytes) : bytes :=
  match col with
  | [a; b; c; d] =>
      [gf_dot x02 x03 x01 x01 a b c d; gf_dot x01 x02 x03 x01 a b c d;
       gf_dot x01 x01 x02 x03 a b c d; gf_dot x03 x01 x01 x02 a b c d]
  | _ => col
  end.

Definition inv_mix_column (col : bytes) : bytes :=
  match col with
  | [a; b; c; d] =>
      [gf_dot x0e x0b x0d x09 a b c d; gf_dot x09 x0e x0b x0d a b c d;
       gf_dot x0d x09 x0e x0b a b c d; gf_dot x0b x0d x09 x0e a b c d]
  | _ => col
  end.

Fixpoint map_columns (f : bytes -> bytes) (n : nat) (s : bytes) : bytes :=
  match n with
  | 0 => []
  | S n' => f (take 4 s) ++ map_columns f n' (drop 4 s)
  end.

Definition mix_columns (s : bytes) : bytes := map_columns mix_column 4 s.
Definition inv_mix_columns (s : bytes) : bytes := map_columns inv_mix_column 4 s.

(** The key schedule: [w] is the list of the words made so far, [i] their
    number, [rcon] the round constant of the next multiple of [nk]. *)
Definition rot_word (w : bytes) : bytes :=
  match w with
  | [] => []
  | a :: r => r ++ [a]
  end.

Fixpoint key_expansion_loop (n i nk : nat) (rcon : byte) (w : list bytes)
  : list bytes :=
  match n with
  | 0 => w
  | S n' =>
      let prev := nth (i - 1) w [] in
      let temp :=
        if i mod nk =? 0 then
          xor_bytes (sub_bytes (rot_word prev)) [rcon; x00; x00; x00]
        else if (6 <? nk) && (i mod nk =? 4) then sub_bytes prev
        else prev in
      let rcon' := if i mod nk =? 0 then aes_xtime rcon else rcon in
      key_expansion_loop n' (S i) nk rcon'
        (w ++ [xor_bytes (nth (i - nk) w []) temp])
  end.

Definition key_expansion (key : bytes) : bytes :=
  let nk := length key / 4 in
  let nr := nk + 6 in
  concat (key_expansion_loop (4 * (nr + 1) - nk) nk nk x01
            (map (fun j => take 4 (drop (4 * j) key)) (seq 0 nk))).

Definition round_key (w : bytes) (r : nat) : bytes :=
  map (fun i => nth (16 * r + i) w x00) (seq 0 16).

Definition aes_round (w : bytes) (s : bytes) (r : nat) : bytes :=
  xor_bytes (mix_columns (shift_rows (sub_bytes s))) (round_key w r).

Definition aes_inv_round (w : bytes) (s : bytes) (r : nat) : bytes :=
  inv_sub_bytes (inv_shift_rows (inv_mix_columns (xor_bytes s (round_key w r)))).

Definition aes_cipher (key block : bytes) : bytes :=
  let w := key_expansion key in
  let nr := length key / 4 + 6 in
  let s := xor_bytes block (round_key w 0) in
  let s := fold_left (aes_round w) (seq 1 (nr - 1)) s in
  xor_bytes (shift_rows (sub_bytes s)) (round_key w nr).

(** The inverse cipher undoes the rounds in reverse order. *)
Definition aes_inv_cipher (key block : bytes) : bytes :=
  let w := key_expansion key in
  let nr := length key / 4 + 6 in
  let s := inv_sub_bytes (inv_shift_rows (xor_bytes block (round_key w nr))) in
  let s := fold_left (aes_inv_round w) (rev (seq 1 (nr - 1))) s in
  xor_bytes s (round_key w 0).

(** *** The backend

    The block cipher is AES; SHA-1, SHA-224 and SHA-256 are the digests
    above. The other digests are not implemented: in their place stands a
    polynomial checksum spread over [digest_size] bytes, which has none of
    their properties but the size. *)
Definition checksum (m : bytes) : N :=
  fold_left (fun acc c => (acc * 31 + Byte.to_N c + 1) mod 65521)%N m 7%N.

Definition checksum_digest (a : HashAlgorithm) (m : bytes) : bytes :=
  let s := checksum m in
  map (fun i => byte_of_N (s * (N.of_nat i + 3) + N.of_nat (digest_size a))%N)
    (seq 0 (digest_size a)).

Definition reference_digest (a : HashAlgorithm) (m : bytes) : bytes :=
  match a with
  | SHA1 => sha1 m
  | SHA224 => sha224 m
  | SHA256 => sha256 m
  | _ => checksum_digest a m
  end.

Definition reference_backend : Backend :=
  {| aes_encrypt_block := aes_cipher;
     aes_decrypt_block := aes_inv_cipher;
     hash_digest := reference_digest |}.

(** Lower-case hexadecimal, to write digests down. *)
Definition hex_digit (n : N) : ascii :=
  nth (N.to_nat n) (list_ascii_of_string "0123456789abcdef") "0"%char.

Fixpoint hex (b : bytes) : string :=
  match b with
  | [] => EmptyString
  | c :: b' =>
      String (hex_digit (Byte.to_N c / 16))
        (String (hex_digit (Byte.to_N c mod 16)) (hex b'))
  end.

Definition INT_64_BE (t : Z) : bytes :=
  map (fun i => byte_of_N (N.shiftr (Z.to_N t) (N.of_nat (8 * (7 - i)))))
    (seq 0 8).

Definition decode_BE (b : bytes) : Z :=
  Z.of_N (fold_left (fun acc c => acc * 256 + Byte.to_N c)%N b 0%N).

Section SpecSigner.

Variable settings : CryptographyConf.

Definition spec_signer_salt : bytes_or_str :=
  PyStr "django_cryptography.core.signing.Signer".

Definition spec_signer_algorithm (algorithm : option string) : string :=
  match algorithm with
  | Some a => a
  | None => "sha256"
  end.

(** Modelled from the spec: the signer classes of [core/signing.py] are not
    among the sources. [signature] is the salted HMAC of the value under the
    signer's key (section 4.4: a key derived via the salted-HMAC derivation
    from the signer's own salt and its key). *)
Definition spec_signature (key : option bytes_or_str)
  (algorithm : option string) (value : bytes_or_str) : result bytes :=
  h <- salted_hmac settings spec_signer_salt value key
         (spec_signer_algorithm algorithm) ;;
  ret (HMAC_finalize h).

(** Modelled from the spec: the size of the signatures of a signer of
    [core/signing.py], the digest size of its algorithm. *)
Definition spec_digest_size (key : option bytes_or_str)
  (algorithm : option string) : result nat :=
  h <- salted_hmac settings spec_signer_salt (PyBytes []) key
         (spec_signer_algorithm algorithm) ;;
  ret (digest_size (hmac_algorithm h)).

(** Modelled from the spec: [sign] of a signer class of [core/signing.py]
    binds [current_time] into the output and appends an HMAC computed over
    the value and the encoded timestamp. The layout is a version byte, the
    timestamp as eight big-endian bytes, the value, the signature; a
    timestamp that does not fit eight bytes is refused. *)
Definition spec_sign (key : option bytes_or_str) (algorithm : option string)
  (value : bytes_or_str) (current_time : Z) : result bytes :=
  if ((current_time <? 0) || (2 ^ 64 <=? current_time))%Z then
    raise (ValueError "timestamp out of range")
  else
    let payload := x80 :: INT_64_BE current_time ++ force_bytes value in
    sig <- spec_signature key algorithm (PyBytes payload) ;;
    ret (payload ++ sig).

(** Modelled from the spec: [unsign] of a signer class of [core/signing.py]
    recomputes the expected signature over the received value and timestamp
    and compares in constant time, failing with a bad-signature error on
    mismatch; then, if [max_age] is given and the age of the timestamp
    exceeds it, it fails with a signature-expired error. *)
Definition spec_unsign (key : option bytes_or_str) (algorithm : option string)
  (w : World) (signed_value : bytes) (max_age : option Z) : result bytes :=
  d_size <- spec_digest_size key algorithm ;;
  if length signed_value <? 9 + d_size then
    raise (BadSignature "Signature is not valid")
  else
    let payload := take (length signed_value - d_size) signed_value in
    let sig := drop (length signed_value - d_size) signed_value in
    if negb (Byte.eqb (hd x00 payload) x80) then
      raise (BadSignature "Signature version not supported")
    else
      expected <- spec_signature key algorithm (PyBytes payload) ;;
      if negb (constant_time_compare (PyBytes sig) (PyBytes expected)) then
        raise (BadSignature "Signature does not match")
      else
        let timestamp := decode_BE (take 8 (drop 1 payload)) in
        match max_age with
        | Some age =>
            if (age <? clock w - timestamp)%Z then
              raise (SignatureExpired "Signature age exceeds max_age")
            else ret (drop 9 payload)
        | None => ret (drop 9 payload)
        end.

Definition SpecSigner : SignerClass :=
  {| signature_method := spec_signature;
     sign_method := spec_sign;
     unsign_method := spec_unsign |}.

End SpecSigner.

(** Settings in the manner of [tests/settings.py]. *)
Definition test_settings : CryptographyConf :=
  {| SECRET_KEY := PyStr "test_key";
     CRYPTOGRAPHY_KEY := PyBytes (bytes_of_string "0123456789abcdef");
     CRYPTOGRAPHY_BACKEND := reference_backend |}.

Definition TestSigner : SignerClass := SpecSigner test_settings.

Definition test_world : World :=
  {| clock := 1000; entropy := fun i => byte_of_nat (7 * i + 1); cursor := 0 |}.

(** An instance of [FernetBytes] under the key of the settings, and the
    instance of [Fernet] that the key of 32 zero bytes gives. *)
Definition test_fernet_bytes : FernetObj :=
  FernetBytes_init test_settings TestSigner FernetBytesClass None None.

Definition zero_key : bytes_or_str :=
  PyStr "AAAAAAAAAAAAAAAAAAAAAAAAAAAAAAAAAAAAAAAAAAA=".

Definition test_fernet : FernetObj :=
  {| self_class := FernetClass;
     self_key := PyBytes (repeat x00 16);
     self_signer := new_signer TestSigner (Some (PyBytes (repeat x00 16))) None |}.

Definition hello_world : bytes := bytes_of_string "hello world".

(** The token [test_fernet_bytes] makes of [hello_world] at time 1000. *)
Definition hello_token : bytes :=
  Eval vm_compute in
    match fst (encrypt_at_time test_settings test_fernet_bytes
                 (PyBytes hello_world) 1000 test_world) with
    | inr tok => tok
    | inl _ => []
    end.

(** What the signer of [test_fernet_bytes] makes of a payload at time 1000. *)
Definition signed_at_1000 (payload : bytes) : bytes :=
  match sign (self_signer test_fernet_bytes) (PyBytes payload) 1000 with
  | inr tok => tok
  | inl _ => []
  end.

(** Signed payloads that no encryption made: an IV followed by five bytes,
    by a block that does not decrypt to padded data, and five bytes alone. *)
Definition misaligned_payload : bytes :=
  repeat x00 16 ++ bytes_of_string "12345".

Definition misaligned_token : bytes :=
  Eval vm_compute in signed_at_1000 misaligned_payload.

Definition unpadded_payload : bytes :=
  repeat x00 16 ++ bytes_of_string "zzzzzzzzzzzzzzzz".

Definition unpadded_token : bytes :=
  Eval vm_compute in signed_at_1000 unpadded_payload.

Definition short_payload : bytes := bytes_of_string "12345".

Definition short_token : bytes :=
  Eval vm_compute in signed_at_1000 short_payload.

(** A token that no signer of class [TestSigner] made. *)
Definition forged_token : bytes := bytes_of_string "abc".

(** Two seconds after [test_world]. *)
Definition late_world : World :=
  {| clock := 1002; entropy := entropy test_world; cursor := 16 |}.

(** ** Auxiliary definitions for the statements and proofs *)

(** The number of padding bytes PKCS7 adds to [data] for 16-byte blocks. *)
Definition pkcs7_pad_size (data : bytes) : nat := 16 - length data mod 16.

Definition pkcs7_padded (data : bytes) : bytes :=
  data ++ repeat (byte_of_nat (pkcs7_pad_size data)) (pkcs7_pad_size data).

(** The secret [salted_hmac] uses, as bytes: the argument, or the
    [SECRET_KEY] of the settings when it is [None]. *)
Definition resolved_secret (settings : CryptographyConf)
  (secret : option bytes_or_str) : bytes :=
  force_bytes match secret with
              | None => SECRET_KEY settings
              | Some s => s
              end.

(** The signer [Fernet.__init__] works with: the argument, or a default
    [FernetSigner()]. *)
Definition given_signer (FernetSigner : SignerClass) (signer : option Signer)
  : Signer :=
  match signer with
  | None => new_signer FernetSigner None None
  | Some s => s
  end.

(** The cipher [FernetBytes.decrypt] builds for an unsigned [payload]. *)
Definition decrypt_cipher (settings : CryptographyConf) (self : FernetObj)
  (payload : bytes) : CipherObj :=
  {| cipher_backend := CRYPTOGRAPHY_BACKEND settings;
     cipher_key := force_bytes (self_key self);
     cipher_iv := take 16 payload |}.

(** [unpadder.update(p) + unpadder.finalize()] with a fresh unpadder. *)
Definition pkcs7_unpad (p : bytes) : result bytes :=
  let '(unpadder, unpadded) :=
    unpadder_update (PKCS7_unpadder AES_block_size) p in
  tail <- unpadder_finalize unpadder ;;
  ret (unpadded ++ tail).

(** The digest a signer of class [SpecSigner] works with. *)
Definition spec_signer_digest (algorithm : option string)
  : option hasher_class :=
  hashes_getattr (upper (spec_signer_algorithm algorithm)).

(** The character that stands for sextet [v] in a URL-safe encoding, after
    the decoder has translated it back to the standard alphabet. *)
Definition url_char (v : N) : byte :=
  translate_char "-" "+" "_" "/"
    (translate_char "+" "-" "/" "_" (table_b2a_base64 v)).

(** [url_char v] is not the padding character and decodes to [v]. *)
Definition url_char_ok (v : N) : bool :=
  negb (Byte.eqb (url_char v) BASE64_PAD) &&
  match table_a2b_base64 (url_char v) with
  | Some v' => N.eqb v' v
  | None => false
  end.

(** ** Further instances and auxiliary definitions *)

(** A byte that [Fernet.decrypt] does not skip: after the translation of
    [-_] to [+/] it is the padding character or a character of the
    alphabet. *)
Definition b64_significant (c : byte) : bool :=
  let c' := translate_char "-" "+" "_" "/" c in
  Byte.eqb c' BASE64_PAD ||
  match table_a2b_base64 c' with
  | Some _ => true
  | None => false
  end.

(** [f(x)] for a result [x]: an exception passes through. *)
Definition map_result {A B} (f : A -> B) (m : result A) : result B :=
  match m with
  | inl e => inl e
  | inr a => inr (f a)
  end.

(** The instance of [FernetBytes] with the key and the signer of
    [test_fernet]. *)
Definition test_fernet_twin : FernetObj :=
  {| self_class := FernetBytesClass;
     self_key := self_key test_fernet;
     self_signer := self_signer test_fernet |}.

(** An instance whose key has five bytes. *)
Definition short_key_fernet : FernetObj :=
  FernetBytes_init test_settings TestSigner FernetBytesClass
    (Some (PyStr "short")) None.

(** What the signer finds in [hello_token]. *)
Definition hello_payload : bytes :=
  Eval vm_compute in
    match unsign (self_signer test_fernet_bytes) test_world hello_token None
    with
    | inr p => p
    | inl _ => []
    end.

(** The token [test_fernet_twin] makes of [hello_world] at time 1000. *)
Definition hello_twin_token : bytes :=
  Eval vm_compute in
    match fst (encrypt_at_time test_settings test_fernet_twin
                 (PyBytes hello_world) 1000 test_world) with
    | inr tok => tok
    | inl _ => []
    end.

(** The images of a run of [upper_runs]. *)
Definition run_images (r : N * N * N * N) : list N :=
  let '(first, count, step, image) := r in
  map (fun i => (image + N.of_nat i * step)%N) (seq 0 (N.to_nat count)).

(** A code point that is its own upper-case mapping. *)
Definition upper_fixed (c : N) : bool :=
  code_point c && match to_upper c with None => true | Some _ => false end.

(** The text [sha1] with the long s (U+017F) for its first letter. *)
Definition long_s_ha1 : list N := [0x17f; 0x68; 0x61; 0x31]%N.

(** * Properties *)

Lemma inr_inj {E A : Type} (a b : A) : @inr E A a = inr b -> a = b.
Proof. intros H. injection H. auto. Qed.

(** ** Bytes *)

Lemma all_bytes_complete (b : byte) : In b all_bytes.
Proof.
  assert (H : existsb (Byte.eqb b) all_bytes = true)
    by (destruct b; vm_compute; reflexivity).
  apply existsb_exists in H. destruct H as [x [Hin Heq]].
  apply Byte.byte_dec_bl in Heq. subst x. exact Hin.
Qed.

Lemma forall_bytes (f : byte -> bool) :
  forallb f all_bytes = true -> forall b, f b = true.
Proof.
  intros H b. rewrite forallb_forall in H. apply H, all_bytes_complete.
Qed.

Lemma forall_bytes2 (f : byte -> byte -> bool) :
  forallb (fun a => forallb (f a) all_bytes) all_bytes = true ->
  forall a b, f a b = true.
Proof.
  intros H a b.
  apply (forall_bytes (f a)).
  apply (forall_bytes (fun a => forallb (f a) all_bytes) H).
Qed.

Lemma byte_xor_involutive (a b : byte) : byte_xor (byte_xor a b) b = a.
Proof.
  apply Byte.byte_dec_bl.
  apply (forall_bytes2 (fun a b => Byte.eqb (byte_xor (byte_xor a b) b) a)).
  vm_compute. reflexivity.
Qed.

Lemma to_N_byte_of_N (n : N) : (n < 256)%N -> Byte.to_N (byte_of_N n) = n.
Proof.
  intros Hn. unfold byte_of_N. rewrite N.mod_small by exact Hn.
  destruct (Byte.of_N n) as [b|] eqn:E.
  - apply Byte.to_of_N. exact E.
  - apply Byte.of_N_None_iff in E. lia.
Qed.

Lemma to_nat_byte_of_nat (n : nat) :
  n < 256 -> N.to_nat (Byte.to_N (byte_of_nat n)) = n.
Proof.
  intros Hn. unfold byte_of_nat. rewrite to_N_byte_of_N by lia. lia.
Qed.

Lemma length_xor_bytes (a b : bytes) :
  length (xor_bytes a b) = Nat.min (length a) (length b).
Proof.
  revert b. induction a as [|x a IH]; intros [|y b]; simpl; auto.
Qed.

Lemma xor_bytes_involutive (a b : bytes) :
  length a <= length b -> xor_bytes (xor_bytes a b) b = a.
Proof.
  revert b. induction a as [|x a IH]; intros [|y b] H; simpl in *;
    try reflexivity; try lia.
  rewrite byte_xor_involutive, IH by lia. reflexivity.
Qed.

Lemma take_app_exact (a b : bytes) n : length a = n -> take n (a ++ b) = a.
Proof.
  intros <-. unfold take. rewrite firstn_app, Nat.sub_diag, firstn_all.
  simpl. apply app_nil_r.
Qed.

Lemma drop_app_exact (a b : bytes) n : length a = n -> drop n (a ++ b) = b.
Proof.
  intros <-. unfold drop. rewrite skipn_app, Nat.sub_diag, skipn_all.
  reflexivity.
Qed.

Lemma bytes_eq_refl (a : bytes) : bytes_eq a a = true.
Proof.
  induction a as [|x a IH]; simpl; auto.
  rewrite IH, (Byte.byte_dec_lb (x := x) eq_refl). reflexivity.
Qed.

Lemma bytes_eq_true (a b : bytes) : bytes_eq a b = true -> a = b.
Proof.
  revert b. induction a as [|x a IH]; intros [|y b] H; simpl in H;
    try reflexivity; try discriminate.
  apply andb_true_iff in H. destruct H as [H1 H2].
  apply Byte.byte_dec_bl in H1. apply IH in H2. congruence.
Qed.

(** X13. [constant_time_compare] is true exactly when its two arguments
    have the same bytes, text being compared by its UTF-8 encoding: a [str]
    and a [bytes] with the same bytes compare equal. *)
Lemma constant_time_compare_spec (val1 val2 : bytes_or_str) :
  constant_time_compare val1 val2 = true <->
  force_bytes val1 = force_bytes val2.
Proof.
  unfold constant_time_compare. split.
  - apply bytes_eq_true.
  - intros ->. apply bytes_eq_refl.
Qed.

(** ** PKCS7 padding *)

Lemma pkcs7_pad_size_bounds (data : bytes) :
  1 <= pkcs7_pad_size data <= 16.
Proof.
  unfold pkcs7_pad_size.
  pose proof (Nat.mod_upper_bound (length data) 16). lia.
Qed.

Lemma length_pkcs7_padded (data : bytes) :
  length (pkcs7_padded data) = (length data / 16 + 1) * 16.
Proof.
  unfold pkcs7_padded, pkcs7_pad_size.
  rewrite length_app, repeat_length.
  pose proof (Nat.mod_upper_bound (length data) 16).
  pose proof (Nat.div_mod_eq (length data) 16). lia.
Qed.

(** [padder.update(data) + padder.finalize()] is [data] followed by its
    padding. *)
Lemma padder_update_finalize (data : bytes) :
  let '(ctx, head) := padder_update (PKCS7_padder AES_block_size) data in
  head ++ padder_finalize ctx = pkcs7_padded data.
Proof.
  unfold padder_update, padder_finalize, PKCS7_padder.
  cbn [pad_block_size pad_buffer app]. change (AES_block_size / 8) with 16.
  unfold take, drop. rewrite app_assoc, firstn_skipn.
  unfold pkcs7_padded, pkcs7_pad_size. rewrite length_skipn.
  pose proof (Nat.mod_upper_bound (length data) 16).
  pose proof (Nat.div_mod_eq (length data) 16).
  replace (16 - (length data - length data / 16 * 16))
    with (16 - length data mod 16) by lia.
  reflexivity.
Qed.

Lemma last_app_repeat (l : bytes) (x : byte) n :
  0 < n -> last (l ++ repeat x n) x00 = x.
Proof.
  intros Hn. destruct n as [|n]; [lia|].
  replace (S n) with (n + 1) by lia.
  rewrite repeat_app, app_assoc. simpl. apply last_last.
Qed.

Lemma forallb_repeat (f : byte -> bool) x n :
  f x = true -> forallb f (repeat x n) = true.
Proof.
  intros Hx. induction n; simpl; auto. rewrite Hx, IHn. reflexivity.
Qed.

Lemma skipn_app_le (l1 l2 : bytes) n :
  n <= length l1 -> skipn n (l1 ++ l2) = skipn n l1 ++ l2.
Proof.
  intros H. rewrite skipn_app.
  replace (n - length l1) with 0 by lia. reflexivity.
Qed.

Lemma firstn_app_le (l1 l2 : bytes) n :
  n <= length l1 -> firstn n (l1 ++ l2) = firstn n l1.
Proof.
  intros H. rewrite firstn_app.
  replace (n - length l1) with 0 by lia. simpl. apply app_nil_r.
Qed.

(** [unpadder.update(p) + unpadder.finalize()] on padded data removes the
    padding. *)
Lemma unpadder_update_finalize (data : bytes) :
  let '(ctx, head) :=
    unpadder_update (PKCS7_unpadder AES_block_size) (pkcs7_padded data) in
  exists tail, unpadder_finalize ctx = inr tail /\ head ++ tail = data.
Proof.
  unfold unpadder_update, unpadder_finalize, PKCS7_unpadder.
  cbn [pad_block_size pad_buffer app]. change (AES_block_size / 8) with 16.
  pose proof (length_pkcs7_padded data) as HL.
  pose proof (pkcs7_pad_size_bounds data) as Hp.
  pose proof (Nat.mod_upper_bound (length data) 16 ltac:(lia)) as Hm.
  pose proof (Nat.div_mod_eq (length data) 16) as Hd.
  set (m := length data / 16) in *.
  set (p := pkcs7_pad_size data) in *.
  assert (Hpm : p = 16 - length data mod 16) by reflexivity.
  rewrite HL. rewrite Nat.div_mul by lia.
  replace (m + 1 - 1) with m by lia.
  unfold take, drop.
  assert (Hbuf : skipn (m * 16) (pkcs7_padded data) =
                 skipn (m * 16) data ++ repeat (byte_of_nat p) p).
  { unfold pkcs7_padded. fold p. apply skipn_app_le. lia. }
  rewrite Hbuf.
  assert (Hlen : length (skipn (m * 16) data ++ repeat (byte_of_nat p) p) = 16).
  { rewrite length_app, length_skipn, repeat_length. lia. }
  rewrite Hlen. simpl negb at 1. cbv iota.
  unfold check_pkcs7_padding.
  rewrite last_app_repeat by lia.
  rewrite to_nat_byte_of_nat by lia.
  replace (0 <? p) with true by (symmetry; apply Nat.ltb_lt; lia).
  replace (p <=? 16) with true by (symmetry; apply Nat.leb_le; lia).
  unfold drop. rewrite skipn_app.
  rewrite (skipn_all2 (n := 16 - p)) by (rewrite length_skipn; lia).
  rewrite length_skipn.
  replace (16 - p - (length data - m * 16)) with 0 by lia.
  cbn [skipn app].
  rewrite forallb_repeat by (apply Byte.byte_dec_lb; reflexivity).
  cbn [andb negb]. eexists. split; [reflexivity|].
  rewrite firstn_app_le by (rewrite length_skipn; lia).
  rewrite (firstn_all2 (n := 16 - p)) by (rewrite length_skipn; lia).
  unfold pkcs7_padded. fold p. rewrite firstn_app_le by lia.
  apply firstn_skipn.
Qed.

(** ** AES-CBC contexts *)

Section CBC.

Variable B : Backend.
Hypothesis HB : BackendLaws B.
Variable k : bytes.
Hypothesis Hk : aes_key_size_ok k = true.

Lemma cbc_blocks_roundtrip (n : nat) :
  forall chain data,
    length chain = 16 -> length data = n * 16 ->
    exists ct chain',
      cbc_encrypt_blocks B k n chain data = (ct, chain') /\
      length ct = n * 16 /\
      cbc_decrypt_blocks B k n chain ct = (data, chain').
Proof.
  induction n as [|n IH]; intros chain data Hc Hd.
  - destruct data; [|discriminate]. exists [], chain. auto.
  - cbn [cbc_encrypt_blocks].
    set (p := take 16 data).
    assert (Hp : length p = 16)
      by (unfold p, take; rewrite length_firstn; lia).
    set (c := aes_encrypt_block B k (xor_bytes p chain)).
    assert (Hx : length (xor_bytes p chain) = 16)
      by (rewrite length_xor_bytes; lia).
    assert (Hlc : length c = 16)
      by (apply (aes_encrypt_block_length B HB); assumption).
    destruct (IH c (drop 16 data) Hlc) as (ct & chain' & He & Hl & Hdec).
    { unfold drop. rewrite length_skipn. lia. }
    rewrite He. exists (c ++ ct), chain'. split; [reflexivity|]. split.
    + rewrite length_app. lia.
    + cbn [cbc_decrypt_blocks].
      rewrite (take_app_exact c ct 16 Hlc), (drop_app_exact c ct 16 Hlc).
      rewrite Hdec. unfold c.
      rewrite (aes_decrypt_encrypt_block B HB) by assumption.
      rewrite xor_bytes_involutive by lia.
      unfold p, take, drop. rewrite firstn_skipn. reflexivity.
Qed.

(** Encrypting whole blocks leaves nothing in the encryptor, and a decryptor
    under the same key and IV gives the blocks back. *)
Lemma cbc_context_roundtrip (iv data : bytes) (n : nat) :
  length iv = 16 -> length data = n * 16 ->
  let cipher := {| cipher_backend := B; cipher_key := k; cipher_iv := iv |} in
  exists ct ectx dctx,
    encryptor_update (encryptor cipher) data = (ectx, ct) /\
    encryptor_finalize ectx = inr [] /\
    decryptor_update (decryptor cipher) ct = (dctx, data) /\
    decryptor_finalize dctx = inr [].
Proof.
  intros Hiv Hd cipher.
  destruct (cbc_blocks_roundtrip n iv data Hiv Hd)
    as (ct & chain' & He & Hl & Hdec).
  unfold encryptor_update, decryptor_update, context_update, encryptor,
    decryptor, new_context, cipher.
  cbn [ctx_backend ctx_key ctx_chain ctx_buffer cipher_backend cipher_key
       cipher_iv app].
  exists ct.
  rewrite Hd, Hl, Nat.div_mul by lia. rewrite He, Hdec.
  do 2 eexists. repeat split.
  - unfold encryptor_finalize, context_finalize, drop. cbn [ctx_buffer].
    rewrite <- Hd, skipn_all. reflexivity.
  - unfold decryptor_finalize, context_finalize, drop. cbn [ctx_buffer].
    rewrite <- Hl, skipn_all. reflexivity.
Qed.

End CBC.

(** ** base64 *)

Lemma url_char_ok_spec (v : N) :
  url_char_ok v = true ->
  Byte.eqb (url_char v) BASE64_PAD = false /\
  table_a2b_base64 (url_char v) = Some v.
Proof.
  unfold url_char_ok. intros H. apply andb_true_iff in H. destruct H as [H1 H2].
  split.
  - destruct (Byte.eqb (url_char v) BASE64_PAD); [discriminate|reflexivity].
  - destruct (table_a2b_base64 (url_char v)) as [v'|]; [|discriminate].
    apply N.eqb_eq in H2. congruence.
Qed.

Lemma sextet0_ok (a : byte) : url_char_ok (sextet0 a) = true.
Proof.
  apply (forall_bytes (fun a => url_char_ok (sextet0 a))).
  vm_compute. reflexivity.
Qed.

Lemma sextet1_ok (a b : byte) : url_char_ok (sextet1 a b) = true.
Proof.
  apply (forall_bytes2 (fun a b => url_char_ok (sextet1 a b))).
  vm_compute. reflexivity.
Qed.

Lemma sextet2_ok (b c : byte) : url_char_ok (sextet2 b c) = true.
Proof.
  apply (forall_bytes2 (fun b c => url_char_ok (sextet2 b c))).
  vm_compute. reflexivity.
Qed.

Lemma sextet3_ok (c : byte) : url_char_ok (sextet3 c) = true.
Proof.
  apply (forall_bytes (fun c => url_char_ok (sextet3 c))).
  vm_compute. reflexivity.
Qed.

(** The three bytes of a group come back from its four sextets. *)
Lemma quantum_byte0 (a b : byte) :
  byte_of_N (N.lor (N.shiftl (sextet0 a) 2) (N.shiftr (sextet1 a b) 4)) = a.
Proof.
  apply Byte.byte_dec_bl.
  apply (forall_bytes2 (fun a b => Byte.eqb
    (byte_of_N (N.lor (N.shiftl (sextet0 a) 2) (N.shiftr (sextet1 a b) 4))) a)).
  vm_compute. reflexivity.
Qed.

Lemma quantum_left1 (a b : byte) :
  N.land (sextet1 a b) 15 = N.land (Byte.to_N b / 16) 15.
Proof.
  apply N.eqb_eq.
  apply (forall_bytes2 (fun a b =>
    N.eqb (N.land (sextet1 a b) 15) (N.land (Byte.to_N b / 16) 15))).
  vm_compute. reflexivity.
Qed.

Lemma quantum_right1 (b c : byte) :
  N.shiftr (sextet2 b c) 2 = N.land (Byte.to_N b) 15.
Proof.
  apply N.eqb_eq.
  apply (forall_bytes2 (fun b c =>
    N.eqb (N.shiftr (sextet2 b c) 2) (N.land (Byte.to_N b) 15))).
  vm_compute. reflexivity.
Qed.

Lemma quantum_join1 (b : byte) :
  byte_of_N (N.lor (N.shiftl (N.land (Byte.to_N b / 16) 15) 4)
               (N.land (Byte.to_N b) 15)) = b.
Proof.
  apply Byte.byte_dec_bl.
  apply (forall_bytes (fun b => Byte.eqb
    (byte_of_N (N.lor (N.shiftl (N.land (Byte.to_N b / 16) 15) 4)
                  (N.land (Byte.to_N b) 15))) b)).
  vm_compute. reflexivity.
Qed.

Lemma quantum_byte1 (a b c : byte) :
  byte_of_N (N.lor (N.shiftl (N.land (sextet1 a b) 15) 4)
               (N.shiftr (sextet2 b c) 2)) = b.
Proof.
  rewrite quantum_left1, quantum_right1. apply quantum_join1.
Qed.

Lemma quantum_byte2 (b c : byte) :
  byte_of_N (N.lor (N.shiftl (N.land (sextet2 b c) 3) 6) (sextet3 c)) = c.
Proof.
  apply Byte.byte_dec_bl.
  apply (forall_bytes2 (fun b c => Byte.eqb
    (byte_of_N (N.lor (N.shiftl (N.land (sextet2 b c) 3) 6) (sextet3 c))) c)).
  vm_compute. reflexivity.
Qed.

Lemma a2b_loop_step (v : N) (rest : bytes) q lc pads out :
  url_char_ok v = true ->
  a2b_loop (url_char v :: rest) q lc pads out =
  match q with
  | 0 => a2b_loop rest 1 v 0 out
  | 1 => a2b_loop rest 2 (N.land v 15) 0
           (out ++ [byte_of_N (N.lor (N.shiftl lc 2) (N.shiftr v 4))])
  | 2 => a2b_loop rest 3 (N.land v 3) 0
           (out ++ [byte_of_N (N.lor (N.shiftl lc 4) (N.shiftr v 2))])
  | _ => a2b_loop rest 0 0 0 (out ++ [byte_of_N (N.lor (N.shiftl lc 6) v)])
  end.
Proof.
  intros H. destruct (url_char_ok_spec v H) as [Hpad Htab].
  cbn [a2b_loop]. rewrite Hpad, Htab. reflexivity.
Qed.

Lemma a2b_loop_quantum (a b c : byte) (rest out : bytes) :
  a2b_loop (url_char (sextet0 a) :: url_char (sextet1 a b) ::
            url_char (sextet2 b c) :: url_char (sextet3 c) :: rest) 0 0 0 out =
  a2b_loop rest 0 0 0 (out ++ [a; b; c]).
Proof.
  rewrite (a2b_loop_step _ _ 0) by apply sextet0_ok.
  rewrite (a2b_loop_step _ _ 1) by apply sextet1_ok.
  rewrite (a2b_loop_step _ _ 2) by apply sextet2_ok.
  rewrite (a2b_loop_step _ _ 3) by apply sextet3_ok.
  rewrite quantum_byte0, quantum_byte1, quantum_byte2.
  rewrite <- !app_assoc. reflexivity.
Qed.

Lemma urlsafe_translate_cons (v : N) (l : bytes) :
  translate2 "-" "+" "_" "/"
    (translate2 "+" "-" "/" "_" (table_b2a_base64 v :: l)) =
  url_char v ::
  translate2 "-" "+" "_" "/" (translate2 "+" "-" "/" "_" l).
Proof. reflexivity. Qed.

Lemma a2b_loop_b2a (n : nat) :
  forall s out, length s <= n ->
    a2b_loop
      (translate2 "-" "+" "_" "/" (translate2 "+" "-" "/" "_" (b2a_base64 s)))
      0 0 0 out = inr (out ++ s).
Proof.
  induction n as [|n IH]; intros s out Hn.
  - destruct s; [|simpl in Hn; lia]. simpl. rewrite app_nil_r. reflexivity.
  - destruct s as [|a [|b [|c s]]].
    + simpl. rewrite app_nil_r. reflexivity.
    + cbn [b2a_base64]. rewrite !urlsafe_translate_cons.
      rewrite (a2b_loop_step _ _ 0) by apply sextet0_ok.
      rewrite (a2b_loop_step _ _ 1) by apply sextet1_ok.
      rewrite quantum_byte0. reflexivity.
    + cbn [b2a_base64]. rewrite !urlsafe_translate_cons.
      rewrite (a2b_loop_step _ _ 0) by apply sextet0_ok.
      rewrite (a2b_loop_step _ _ 1) by apply sextet1_ok.
      rewrite (a2b_loop_step _ _ 2) by apply sextet2_ok.
      rewrite quantum_byte0, quantum_byte1.
      rewrite <- !app_assoc. reflexivity.
    + cbn [b2a_base64]. rewrite !urlsafe_translate_cons.
      rewrite a2b_loop_quantum. rewrite IH by (simpl in Hn; lia).
      rewrite <- !app_assoc. reflexivity.
Qed.

(** Decoding inverts encoding. *)
Lemma urlsafe_b64decode_encode (s : bytes) :
  urlsafe_b64decode (PyBytes (urlsafe_b64encode s)) = inr s.
Proof.
  unfold urlsafe_b64decode, urlsafe_b64encode, a2b_base64.
  cbn [bytes_from_decode_types bind ret].
  apply (a2b_loop_b2a (length s)). apply Nat.le_refl.
Qed.

(** ** The cipher constructors *)

Lemma aes_key_size_ok_length (key : bytes) :
  aes_key_size_ok key = true <->
  length key = 16 \/ length key = 24 \/ length key = 32.
Proof.
  unfold aes_key_size_ok. rewrite !orb_true_iff, !Nat.eqb_eq. tauto.
Qed.

Lemma AES_valid_key (key : bytes) :
  aes_key_size_ok key = true -> AES key = inr key.
Proof. intros H. unfold AES. rewrite H. reflexivity. Qed.

Lemma AES_result (key : bytes) :
  AES key = inr key \/ exists msg, AES key = inl (ValueError msg).
Proof.
  unfold AES. destruct (aes_key_size_ok key || (length key =? 64)).
  - left. reflexivity.
  - right. eexists. reflexivity.
Qed.

Lemma Cipher_valid (key iv : bytes) (B : Backend) :
  aes_key_size_ok key = true -> length iv = 16 ->
  Cipher key (CBC iv) B =
  inr {| cipher_backend := B; cipher_key := key; cipher_iv := iv |}.
Proof.
  intros Hk Hiv. apply aes_key_size_ok_length in Hk. unfold Cipher, CBC.
  replace (32 <? length key) with false
    by (symmetry; apply Nat.ltb_ge; lia).
  rewrite Hiv. reflexivity.
Qed.

Lemma Cipher_short_iv (key iv : bytes) (B : Backend) :
  length iv < 16 -> exists msg, Cipher key (CBC iv) B = inl (ValueError msg).
Proof.
  intros Hiv. unfold Cipher, CBC. destruct (32 <? length key).
  - eexists. reflexivity.
  - replace (length iv * 8 =? AES_block_size) with false.
    + eexists. reflexivity.
    + symmetry. apply Nat.eqb_neq. unfold AES_block_size. lia.
Qed.

Lemma length_os_urandom (n : nat) (w : World) :
  length (fst (os_urandom n w)) = n.
Proof. unfold os_urandom. simpl. rewrite length_map, length_seq. reflexivity. Qed.

(** ** The engine: encryption followed by decryption *)

Section Engine.

Variable settings : CryptographyConf.
Hypothesis HB : BackendLaws (CRYPTOGRAPHY_BACKEND settings).

Variable self : FernetObj.
Hypothesis Hkey : aes_key_size_ok (force_bytes (self_key self)) = true.

Variable current_time : Z.

(** The signer signs at [current_time], and unsigning without a maximal age
    returns what was signed. *)
Hypothesis Hsign : forall v,
  exists tok, sign (self_signer self) (PyBytes v) current_time = inr tok.
Hypothesis Hunsign : forall v tok w,
  sign (self_signer self) (PyBytes v) current_time = inr tok ->
  unsign (self_signer self) w tok None = inr v.

Lemma FernetBytes_parts_roundtrip (data iv : bytes) :
  length iv = 16 ->
  exists tok,
    FernetBytes_encrypt_from_parts settings self data current_time iv = inr tok /\
    forall w, FernetBytes_decrypt settings self w tok None = inr data.
Proof.
  intros Hiv.
  unfold FernetBytes_encrypt_from_parts.
  pose proof (padder_update_finalize data) as Hpad.
  destruct (padder_update (PKCS7_padder AES_block_size) data) as [pctx head].
  rewrite Hpad.
  rewrite (AES_valid_key _ Hkey). cbn [bind].
  rewrite (Cipher_valid _ _ _ Hkey Hiv). cbn [bind].
  destruct (cbc_context_roundtrip _ HB _ Hkey iv (pkcs7_padded data)
              (length data / 16 + 1) Hiv (length_pkcs7_padded data))
    as (ct & ectx & dctx & He & Hef & Hd & Hdf).
  rewrite He, Hef. cbn [bind]. rewrite app_nil_r.
  destruct (Hsign (iv ++ ct)) as [tok Htok].
  exists tok. split; [exact Htok|].
  intros w. unfold FernetBytes_decrypt.
  rewrite (Hunsign _ _ w Htok). cbn [bind].
  rewrite (take_app_exact iv ct 16 Hiv), (drop_app_exact iv ct 16 Hiv).
  rewrite (AES_valid_key _ Hkey). cbn [bind].
  rewrite (Cipher_valid _ _ _ Hkey Hiv). cbn [bind].
  rewrite Hd, Hdf. cbn [try_except bind]. rewrite app_nil_r.
  pose proof (unpadder_update_finalize data) as Hun.
  destruct (unpadder_update (PKCS7_unpadder AES_block_size) (pkcs7_padded data))
    as [uctx uhead].
  destruct Hun as (tail & Hfin & Hdata).
  rewrite Hfin. cbn [try_except bind ret]. rewrite Hdata. reflexivity.
Qed.

Lemma Fernet_parts_roundtrip (data iv : bytes) :
  length iv = 16 ->
  exists tok,
    Fernet_encrypt_from_parts settings self data current_time iv = inr tok /\
    forall w, Fernet_decrypt settings self w tok None = inr data.
Proof.
  intros Hiv.
  destruct (FernetBytes_parts_roundtrip data iv Hiv) as (tok & Henc & Hdec).
  exists (urlsafe_b64encode tok). split.
  - unfold Fernet_encrypt_from_parts. rewrite Henc. reflexivity.
  - intros w. unfold Fernet_decrypt. rewrite urlsafe_b64decode_encode.
    cbn [try_except bind]. apply Hdec.
Qed.

Lemma encrypt_decrypt_roundtrip (data : bytes_or_str) (w : World) :
  exists tok,
    fst (encrypt_at_time settings self data current_time w) = inr tok /\
    forall w', decrypt settings self w' tok None = inr (force_bytes data).
Proof.
  unfold encrypt_at_time, encrypt_from_parts, decrypt.
  pose proof (length_os_urandom 16 w) as Hiv.
  destruct (os_urandom 16 w) as [iv w1]. cbn [fst] in *.
  destruct (self_class self).
  - apply FernetBytes_parts_roundtrip. exact Hiv.
  - apply Fernet_parts_roundtrip. exact Hiv.
Qed.

End Engine.

(** ** [str.upper] *)

Example upper_sha3_256 : upper "sha3_256" = "SHA3_256"%string.
Proof. reflexivity. Qed.

(** The long s becomes [S], the sharp s (U+00DF) becomes [SS], and the
    Greek small alpha (U+03B1) the capital one (U+0391). *)
Example utf8_long_s_ha1 :
  utf8_encode_all long_s_ha1 = String "197" (String "191" "ha1").
Proof. reflexivity. Qed.

Example upper_long_s_ha1 :
  upper (utf8_encode_all long_s_ha1) = "SHA1"%string.
Proof. reflexivity. Qed.

Example upper_sharp_s :
  upper (String "195" (String "159" "ha1")) = "SSHA1"%string.
Proof. reflexivity. Qed.

Example upper_alpha :
  upper (String "206" (String "177" EmptyString)) =
  String "206" (String "145" EmptyString).
Proof. reflexivity. Qed.

Lemma upper_ascii_unit (a0 : ascii) (t : string) :
  (N_of_ascii a0 < 0x80)%N ->
  upper (String a0 t) =
  (upper_char (N_of_ascii a0) (String a0 EmptyString) ++ upper t)%string.
Proof.
  intros H. cbn [upper].
  destruct (N.ltb_spec (N_of_ascii a0) 0x80); [reflexivity|lia].
Qed.

Lemma upper_two_units (a0 a1 : ascii) (x1 : N) (t : string) :
  (0xC0 <= N_of_ascii a0 < 0xE0)%N ->
  continuation a1 = Some x1 ->
  (0x80 <= (N_of_ascii a0 - 0xC0) * 64 + x1)%N ->
  upper (String a0 (String a1 t)) =
  (upper_char ((N_of_ascii a0 - 0xC0) * 64 + x1)
     (String a0 (String a1 EmptyString)) ++ upper t)%string.
Proof.
  intros H0 H1 Hc.
  cbn [upper]. rewrite H1.
  destruct (N.ltb_spec (N_of_ascii a0) 0x80); [lia|].
  destruct (N.ltb_spec (N_of_ascii a0) 0xC0); [lia|].
  destruct (N.ltb_spec (N_of_ascii a0) 0xE0); [|lia].
  destruct (N.leb_spec 0x80 ((N_of_ascii a0 - 0xC0) * 64 + x1)); [|lia].
  reflexivity.
Qed.

Lemma upper_three_units (a0 a1 a2 : ascii) (x1 x2 : N) (t : string) :
  (0xE0 <= N_of_ascii a0 < 0xF0)%N ->
  continuation a1 = Some x1 ->
  continuation a2 = Some x2 ->
  (0x800 <= ((N_of_ascii a0 - 0xE0) * 64 + x1) * 64 + x2)%N ->
  upper (String a0 (String a1 (String a2 t))) =
  (upper_char (((N_of_ascii a0 - 0xE0) * 64 + x1) * 64 + x2)
     (String a0 (String a1 (String a2 EmptyString))) ++ upper t)%string.
Proof.
  intros H0 H1 H2 Hc. cbn [upper]. rewrite H1, H2.
  destruct (N.ltb_spec (N_of_ascii a0) 0x80); [lia|].
  destruct (N.ltb_spec (N_of_ascii a0) 0xC0); [lia|].
  destruct (N.ltb_spec (N_of_ascii a0) 0xE0); [lia|].
  destruct (N.ltb_spec (N_of_ascii a0) 0xF0); [|lia].
  destruct (N.leb_spec 0x800
              (((N_of_ascii a0 - 0xE0) * 64 + x1) * 64 + x2)); [|lia].
  reflexivity.
Qed.

Lemma upper_four_units (a0 a1 a2 a3 : ascii) (x1 x2 x3 : N) (t : string) :
  (0xF0 <= N_of_ascii a0 < 0xF8)%N ->
  continuation a1 = Some x1 ->
  continuation a2 = Some x2 ->
  continuation a3 = Some x3 ->
  (0x10000 <= (((N_of_ascii a0 - 0xF0) * 64 + x1) * 64 + x2) * 64 + x3
   < 0x110000)%N ->
  upper (String a0 (String a1 (String a2 (String a3 t)))) =
  (upper_char ((((N_of_ascii a0 - 0xF0) * 64 + x1) * 64 + x2) * 64 + x3)
     (String a0 (String a1 (String a2 (String a3 EmptyString))))
     ++ upper t)%string.
Proof.
  intros H0 H1 H2 H3 Hc. cbn [upper]. rewrite H1, H2, H3.
  destruct (N.ltb_spec (N_of_ascii a0) 0x80); [lia|].
  destruct (N.ltb_spec (N_of_ascii a0) 0xC0); [lia|].
  destruct (N.ltb_spec (N_of_ascii a0) 0xE0); [lia|].
  destruct (N.ltb_spec (N_of_ascii a0) 0xF0); [lia|].
  destruct (N.ltb_spec (N_of_ascii a0) 0xF8); [|lia].
  destruct (N.leb_spec 0x10000
              ((((N_of_ascii a0 - 0xF0) * 64 + x1) * 64 + x2) * 64 + x3));
    [|lia].
  destruct (N.ltb_spec
              ((((N_of_ascii a0 - 0xF0) * 64 + x1) * 64 + x2) * 64 + x3)
              0x110000); [|lia].
  reflexivity.
Qed.

Lemma continuation_unit (n : N) :
  (n < 64)%N -> continuation (ascii_of_N (0x80 + n)) = Some n.
Proof.
  intros H. unfold continuation.
  rewrite N_ascii_embedding by lia.
  destruct (N.leb_spec 0x80 (0x80 + n)); [|lia].
  destruct (N.ltb_spec (0x80 + n) 0xC0); [|lia].
  cbn [andb]. f_equal. lia.
Qed.

Lemma upper_utf8_encode (c : N) (t : string) :
  code_point c = true ->
  upper (utf8_encode c ++ t) =
  (upper_char c (utf8_encode c) ++ upper t)%string.
Proof.
  unfold code_point. intros Hc. apply N.ltb_lt in Hc.
  unfold utf8_encode.
  replace (c / 4096)%N with (c / 64 / 64)%N
    by (rewrite N.Div0.div_div; reflexivity).
  replace (c / 262144)%N with (c / 64 / 64 / 64)%N
    by (rewrite !N.Div0.div_div; reflexivity).
  pose proof (N.div_mod' c 64) as E1.
  pose proof (N.mod_lt c 64 ltac:(lia)) as B1.
  pose proof (N.div_mod' (c / 64) 64) as E2.
  pose proof (N.mod_lt (c / 64) 64 ltac:(lia)) as B2.
  pose proof (N.div_mod' (c / 64 / 64) 64) as E3.
  pose proof (N.mod_lt (c / 64 / 64) 64 ltac:(lia)) as B3.
  set (r1 := (c mod 64)%N) in *. set (q1 := (c / 64)%N) in *.
  set (r2 := (q1 mod 64)%N) in *. set (q2 := (q1 / 64)%N) in *.
  set (r3 := (q2 mod 64)%N) in *. set (q3 := (q2 / 64)%N) in *.
  clearbody r3 q3. clearbody r2 q2. clearbody r1 q1.
  destruct (N.ltb_spec c 0x80) as [H1|H1].
  { cbn [append]. rewrite upper_ascii_unit;
      rewrite N_ascii_embedding by lia; [reflexivity|exact H1]. }
  destruct (N.ltb_spec c 0x800) as [H2|H2].
  { cbn [append].
    rewrite (upper_two_units _ _ r1);
      rewrite ?N_ascii_embedding by lia.
    - replace ((0xC0 + q1 - 0xC0) * 64 + r1)%N with c by lia.
      reflexivity.
    - lia.
    - apply continuation_unit. exact B1.
    - lia. }
  destruct (N.ltb_spec c 0x10000) as [H3|H3].
  { cbn [append].
    rewrite (upper_three_units _ _ _ r2 r1);
      rewrite ?N_ascii_embedding by lia.
    - replace (((0xE0 + q2 - 0xE0) * 64 + r2) * 64 + r1)%N with c by lia.
      reflexivity.
    - lia.
    - apply continuation_unit. exact B2.
    - apply continuation_unit. exact B1.
    - lia. }
  cbn [append].
  rewrite (upper_four_units _ _ _ _ r3 r2 r1);
    rewrite ?N_ascii_embedding by lia.
  - replace ((((0xF0 + q3 - 0xF0) * 64 + r3) * 64 + r2) * 64 + r1)%N
      with c by lia.
    reflexivity.
  - lia.
  - apply continuation_unit. exact B3.
  - apply continuation_unit. exact B2.
  - apply continuation_unit. exact B1.
  - lia.
Qed.

Lemma in_run_images (c u : N) (r : N * N * N * N) :
  in_run c r = Some u -> In u (run_images r).
Proof.
  destruct r as [[[first count] step] image]. unfold in_run, run_images.
  destruct (N.leb_spec first c) as [H1|]; [|discriminate].
  destruct (N.ltb_spec c (first + count * step)) as [H2|]; [|discriminate].
  destruct (N.eqb_spec ((c - first) mod step) 0) as [H3|]; [|discriminate].
  cbn [andb]. intros H. injection H as <-.
  pose proof (N.div_mod' (c - first) step) as E. rewrite H3 in E.
  set (i := ((c - first) / step)%N) in *. clearbody i.
  apply in_map_iff. exists (N.to_nat i). split.
  - rewrite N2Nat.id. lia.
  - apply in_seq. split; [lia|]. cbn [Nat.add].
    apply Nat.compare_lt_iff. rewrite <- N2Nat.inj_compare.
    apply N.compare_lt_iff. nia.
Qed.

Lemma find_run_images (c u : N) (l : list (N * N * N * N)) :
  find_run c l = Some u -> exists r, In r l /\ In u (run_images r).
Proof.
  induction l as [|r l IH]; cbn [find_run]; [discriminate|].
  destruct (in_run c r) as [v|] eqn:E.
  - intros H. injection H as <-. exists r. split; [left; reflexivity|].
    apply (in_run_images c). exact E.
  - intros H. destruct (IH H) as (r' & Hin & Hu).
    exists r'. split; [right; exact Hin|exact Hu].
Qed.

Lemma find_special_In (c : N) (u : list N) (l : list (N * list N)) :
  find_special c l = Some u -> In (c, u) l.
Proof.
  induction l as [|[k v] l IH]; cbn [find_special]; [discriminate|].
  destruct (N.eqb_spec c k) as [->|].
  - intros H. injection H as <-. left. reflexivity.
  - intros H. right. apply IH. exact H.
Qed.

Lemma upper_runs_fixed :
  forallb (fun r => forallb upper_fixed (run_images r)) upper_runs = true.
Proof. vm_compute. reflexivity. Qed.

Lemma upper_special_fixed :
  forallb (fun p => forallb upper_fixed (snd p)) upper_special = true.
Proof. vm_compute. reflexivity. Qed.

(** The upper-case mapping of a character consists of characters that are
    their own upper-case mapping. *)
Lemma to_upper_fixed (c : N) (u : list N) :
  to_upper c = Some u -> forallb upper_fixed u = true.
Proof.
  unfold to_upper.
  destruct (find_special c upper_special) as [v|] eqn:Es.
  - intros H. injection H as <-.
    apply find_special_In in Es.
    exact (proj1 (forallb_forall _ _) upper_special_fixed _ Es).
  - destruct (find_run c upper_runs) as [v|] eqn:Er; [|discriminate].
    intros H. injection H as <-.
    destruct (find_run_images _ _ _ Er) as (r & Hr & Hv).
    pose proof (proj1 (forallb_forall _ _) upper_runs_fixed _ Hr) as Hf.
    cbn beta in Hf.
    cbn [forallb]. rewrite (proj1 (forallb_forall _ _) Hf _ Hv).
    reflexivity.
Qed.

Lemma string_app_assoc (a b c : string) :
  ((a ++ b) ++ c = a ++ (b ++ c))%string.
Proof.
  induction a as [|x a IH]; cbn [append]; [reflexivity|].
  rewrite IH. reflexivity.
Qed.

Lemma string_app_empty (a : string) : (a ++ EmptyString)%string = a.
Proof.
  induction a as [|x a IH]; cbn [append]; [reflexivity|].
  rewrite IH. reflexivity.
Qed.

Lemma utf8_encode_all_app (l l' : list N) :
  utf8_encode_all (l ++ l') =
  (utf8_encode_all l ++ utf8_encode_all l')%string.
Proof.
  induction l as [|c l IH]; cbn [utf8_encode_all app]; [reflexivity|].
  rewrite IH, string_app_assoc. reflexivity.
Qed.

Lemma upper_char_encode (c : N) :
  upper_char c (utf8_encode c) = utf8_encode_all (upper_code_point c).
Proof.
  unfold upper_char, upper_code_point.
  destruct (to_upper c); [reflexivity|].
  cbn [utf8_encode_all]. rewrite string_app_empty. reflexivity.
Qed.

(** On the code units of a text, [upper] is the upper-case mapping of its
    characters, one after the other. *)
Lemma upper_utf8_encode_all (l : list N) :
  forallb code_point l = true ->
  upper (utf8_encode_all l) = utf8_encode_all (flat_map upper_code_point l).
Proof.
  induction l as [|c l IH]; cbn [forallb utf8_encode_all flat_map];
    [reflexivity|].
  intros H. apply andb_true_iff in H. destruct H as [Hc Hl].
  rewrite upper_utf8_encode by exact Hc.
  rewrite upper_char_encode, utf8_encode_all_app, (IH Hl). reflexivity.
Qed.

Lemma upper_code_point_fixed (l : list N) :
  forallb upper_fixed l = true ->
  flat_map upper_code_point l = l /\ forallb code_point l = true.
Proof.
  induction l as [|c l IH]; cbn [forallb flat_map]; [split; reflexivity|].
  intros H. apply andb_true_iff in H. destruct H as [Hc Hl].
  destruct (IH Hl) as [E F]. rewrite E, F.
  unfold upper_fixed in Hc. apply andb_true_iff in Hc.
  destruct Hc as [Hc Hu]. rewrite Hc. unfold upper_code_point.
  destruct (to_upper c); [discriminate|]. split; reflexivity.
Qed.

Lemma upper_code_points_fixed (l : list N) :
  forallb code_point l = true ->
  forallb upper_fixed (flat_map upper_code_point l) = true.
Proof.
  induction l as [|c l IH]; cbn [forallb flat_map]; [reflexivity|].
  intros H. apply andb_true_iff in H. destruct H as [Hc Hl].
  rewrite forallb_app, (IH Hl), andb_true_r.
  unfold upper_code_point. destruct (to_upper c) as [u|] eqn:E.
  - apply (to_upper_fixed c). exact E.
  - cbn [forallb]. unfold upper_fixed. rewrite Hc, E. reflexivity.
Qed.

(** Upper-casing a text twice is upper-casing it once. *)
Lemma upper_idempotent (l : list N) :
  forallb code_point l = true ->
  upper (upper (utf8_encode_all l)) = upper (utf8_encode_all l).
Proof.
  intros H. rewrite (upper_utf8_encode_all l H).
  destruct (upper_code_point_fixed _ (upper_code_points_fixed l H))
    as [E F].
  rewrite (upper_utf8_encode_all _ F), E. reflexivity.
Qed.

(** ** [salted_hmac] *)

Section SaltedHmac.

Variable settings : CryptographyConf.

Lemma salted_hmac_known (key_salt value : bytes_or_str)
  (secret : option bytes_or_str) (algorithm : string) (a : HashAlgorithm) :
  hashes_getattr (upper algorithm) = Some (Digest a) ->
  salted_hmac settings key_salt value secret algorithm =
  inr {| hmac_backend := CRYPTOGRAPHY_BACKEND settings;
         hmac_key := hash_digest (CRYPTOGRAPHY_BACKEND settings) a
                       (force_bytes key_salt ++ resolved_secret settings secret);
         hmac_algorithm := a;
         hmac_data := force_bytes value |}.
Proof.
  intros H. unfold salted_hmac. rewrite H. reflexivity.
Qed.

Lemma salted_hmac_unknown (key_salt value : bytes_or_str)
  (secret : option bytes_or_str) (algorithm : string) :
  hashes_getattr (upper algorithm) = None ->
  salted_hmac settings key_salt value secret algorithm =
  inl (InvalidAlgorithm algorithm).
Proof.
  intros H. unfold salted_hmac. rewrite H. reflexivity.
Qed.

Lemma length_hmac (B : Backend) (a : HashAlgorithm) (key msg : bytes) :
  BackendLaws B -> length (hmac B a key msg) = digest_size a.
Proof. intros HB. unfold hmac. apply (hash_digest_length B HB). Qed.

End SaltedHmac.

(** ** The signer class [SpecSigner] *)

Section SpecSignerFacts.

Variable settings : CryptographyConf.
Hypothesis HB : BackendLaws (CRYPTOGRAPHY_BACKEND settings).

Variable key : option bytes_or_str.
Variable algorithm : option string.
Variable a : HashAlgorithm.
Hypothesis Halg : spec_signer_digest algorithm = Some (Digest a).

Lemma spec_signature_known (value : bytes_or_str) :
  exists sig,
    spec_signature settings key algorithm value = inr sig /\
    length sig = digest_size a.
Proof.
  unfold spec_signature.
  rewrite (salted_hmac_known settings _ _ _ _ a Halg). cbn [bind ret].
  eexists. split; [reflexivity|].
  unfold HMAC_finalize. apply length_hmac. exact HB.
Qed.

Lemma spec_digest_size_known :
  spec_digest_size settings key algorithm = inr (digest_size a).
Proof.
  unfold spec_digest_size.
  rewrite (salted_hmac_known settings _ _ _ _ a Halg). reflexivity.
Qed.

Lemma length_INT_64_BE (t : Z) : length (INT_64_BE t) = 8.
Proof. unfold INT_64_BE. rewrite length_map. reflexivity. Qed.

Lemma spec_sign_total (value : bytes_or_str) (t : Z) :
  (0 <= t < 2 ^ 64)%Z ->
  exists tok, spec_sign settings key algorithm value t = inr tok.
Proof.
  intros Ht. unfold spec_sign.
  replace ((t <? 0) || (2 ^ 64 <=? t))%Z with false
    by (symmetry; apply orb_false_iff; split;
        [apply Z.ltb_ge | apply Z.leb_gt]; lia).
  destruct (spec_signature_known
              (PyBytes (x80 :: INT_64_BE t ++ force_bytes value)))
    as (sig & Hsig & _).
  rewrite Hsig. eexists. reflexivity.
Qed.

Lemma spec_unsign_sign (value : bytes_or_str) (t : Z) (tok : bytes)
  (w : World) :
  spec_sign settings key algorithm value t = inr tok ->
  spec_unsign settings key algorithm w tok None = inr (force_bytes value).
Proof.
  unfold spec_sign.
  destruct ((t <? 0) || (2 ^ 64 <=? t))%Z; [discriminate|].
  set (payload := x80 :: INT_64_BE t ++ force_bytes value).
  destruct (spec_signature_known (PyBytes payload)) as (sig & Hsig & Hlen).
  rewrite Hsig. unfold bind at 1. unfold ret. intros Htok.
  apply inr_inj in Htok. subst tok.
  unfold spec_unsign. rewrite spec_digest_size_known. cbn [bind].
  assert (Hp : length payload = 9 + length (force_bytes value)).
  { unfold payload. cbn [length]. rewrite length_app, length_INT_64_BE. lia. }
  rewrite length_app, Hlen.
  replace (length payload + digest_size a <? 9 + digest_size a) with false
    by (symmetry; apply Nat.ltb_ge; lia).
  replace (length payload + digest_size a - digest_size a)
    with (length payload) by lia.
  rewrite (take_app_exact payload sig _ eq_refl).
  rewrite (drop_app_exact payload sig _ eq_refl).
  replace (Byte.eqb (hd x00 payload) x80) with true by reflexivity.
  cbn [negb]. rewrite Hsig. cbn [bind].
  unfold constant_time_compare. cbn [force_bytes].
  rewrite bytes_eq_refl. cbn [negb ret].
  unfold payload, drop. rewrite skipn_cons.
  rewrite (skipn_app 8), length_INT_64_BE, skipn_all2
    by (rewrite length_INT_64_BE; lia).
  reflexivity.
Qed.

End SpecSignerFacts.

(** ** The reference backend *)

Lemma aes_inv_sbox_sbox (b : byte) : aes_inv_sbox (aes_sbox b) = b.
Proof.
  apply Byte.byte_dec_bl.
  apply (forall_bytes (fun b => Byte.eqb (aes_inv_sbox (aes_sbox b)) b)).
  vm_compute. reflexivity.
Qed.

Lemma to_N_inj (a b : byte) : Byte.to_N a = Byte.to_N b -> a = b.
Proof.
  intros H. pose proof (Byte.of_to_N a) as Ha. pose proof (Byte.of_to_N b) as Hb.
  rewrite H in Ha. congruence.
Qed.

Lemma to_N_byte_xor (a b : byte) :
  Byte.to_N (byte_xor a b) = N.lxor (Byte.to_N a) (Byte.to_N b).
Proof.
  apply N.eqb_eq.
  apply (forall_bytes2 (fun a b =>
    N.eqb (Byte.to_N (byte_xor a b)) (N.lxor (Byte.to_N a) (Byte.to_N b)))).
  vm_compute. reflexivity.
Qed.

Lemma xor4_interchange
  (a1 b1 c1 d1 a2 b2 c2 d2 a3 b3 c3 d3 a4 b4 c4 d4 : byte) :
  xor4 (xor4 a1 b1 c1 d1) (xor4 a2 b2 c2 d2) (xor4 a3 b3 c3 d3)
    (xor4 a4 b4 c4 d4) =
  xor4 (xor4 a1 a2 a3 a4) (xor4 b1 b2 b3 b4) (xor4 c1 c2 c3 c4)
    (xor4 d1 d2 d3 d4).
Proof.
  apply to_N_inj. unfold xor4. rewrite !to_N_byte_xor.
  apply N.bits_inj. intros n. rewrite !N.lxor_spec. btauto.
Qed.


Ltac byte_xor_ac :=
  apply to_N_inj; rewrite !to_N_byte_xor; apply N.bits_inj; intros ?n;
  rewrite ?N.lxor_spec; cbn [Byte.to_N]; rewrite ?N.bits_0; btauto.

Lemma aes_xtime_linear (a b : byte) :
  aes_xtime (byte_xor a b) = byte_xor (aes_xtime a) (aes_xtime b).
Proof.
  apply Byte.byte_dec_bl.
  apply (forall_bytes2 (fun a b =>
    Byte.eqb (aes_xtime (byte_xor a b)) (byte_xor (aes_xtime a) (aes_xtime b)))).
  vm_compute. reflexivity.
Qed.

Lemma gf_mul_bits_linear (n : nat) :
  forall a b k,
    gf_mul_bits n (byte_xor a b) k =
    byte_xor (gf_mul_bits n a k) (gf_mul_bits n b k).
Proof.
  induction n as [|n IH]; intros a b k; cbn [gf_mul_bits].
  - reflexivity.
  - rewrite aes_xtime_linear, IH.
    destruct (N.odd k); byte_xor_ac.
Qed.

Lemma gf_mul_linear (k a b : byte) :
  gf_mul k (byte_xor a b) = byte_xor (gf_mul k a) (gf_mul k b).
Proof. apply gf_mul_bits_linear. Qed.

Lemma gf_mul_xor4 (k a b c d : byte) :
  gf_mul k (xor4 a b c d) =
  xor4 (gf_mul k a) (gf_mul k b) (gf_mul k c) (gf_mul k d).
Proof. unfold xor4. rewrite !gf_mul_linear. reflexivity. Qed.

(** Row [k] of the inverse matrix times column [m] of the matrix is the
    entry [r] of the identity. *)
Lemma mix_coefficient_spec (k0 k1 k2 k3 m0 m1 m2 m3 r : byte) :
  forallb (fun x => Byte.eqb (mix_coefficient k0 k1 k2 k3 m0 m1 m2 m3 x)
                      (gf_mul r x)) all_bytes = true ->
  forall x, mix_coefficient k0 k1 k2 k3 m0 m1 m2 m3 x = gf_mul r x.
Proof.
  intros H x. apply Byte.byte_dec_bl.
  apply (forall_bytes _ H).
Qed.

Lemma gf_mul_x01 (x : byte) : gf_mul x01 x = x.
Proof.
  apply Byte.byte_dec_bl.
  apply (forall_bytes (fun x => Byte.eqb (gf_mul x01 x) x)).
  vm_compute. reflexivity.
Qed.

Lemma gf_mul_x00 (x : byte) : gf_mul x00 x = x00.
Proof. reflexivity. Qed.

Lemma gf_dot_dot (k0 k1 k2 k3 : byte)
  (m00 m01 m02 m03 m10 m11 m12 m13 m20 m21 m22 m23 m30 m31 m32 m33 : byte)
  (a b c d : byte) :
  gf_dot k0 k1 k2 k3
    (gf_dot m00 m01 m02 m03 a b c d) (gf_dot m10 m11 m12 m13 a b c d)
    (gf_dot m20 m21 m22 m23 a b c d) (gf_dot m30 m31 m32 m33 a b c d) =
  xor4 (mix_coefficient k0 k1 k2 k3 m00 m10 m20 m30 a)
    (mix_coefficient k0 k1 k2 k3 m01 m11 m21 m31 b)
    (mix_coefficient k0 k1 k2 k3 m02 m12 m22 m32 c)
    (mix_coefficient k0 k1 k2 k3 m03 m13 m23 m33 d).
Proof.
  unfold gf_dot, mix_coefficient. rewrite !gf_mul_xor4.
  apply xor4_interchange.
Qed.

Lemma xor4_unit (x : byte) :
  xor4 x x00 x00 x00 = x /\ xor4 x00 x x00 x00 = x /\
  xor4 x00 x00 x x00 = x /\ xor4 x00 x00 x00 x = x.
Proof. unfold xor4. repeat split; byte_xor_ac. Qed.

Lemma inv_mix_column_mix_column (a b c d : byte) :
  inv_mix_column (mix_column [a; b; c; d]) = [a; b; c; d].
Proof.
  cbn [mix_column inv_mix_column]. rewrite !gf_dot_dot.
  rewrite !(mix_coefficient_spec x0e x0b x0d x09 x02 x01 x01 x03 x01)
    by (vm_compute; reflexivity).
  rewrite !(mix_coefficient_spec x0e x0b x0d x09 x03 x02 x01 x01 x00)
    by (vm_compute; reflexivity).
  rewrite !(mix_coefficient_spec x0e x0b x0d x09 x01 x03 x02 x01 x00)
    by (vm_compute; reflexivity).
  rewrite !(mix_coefficient_spec x0e x0b x0d x09 x01 x01 x03 x02 x00)
    by (vm_compute; reflexivity).
  rewrite !(mix_coefficient_spec x09 x0e x0b x0d x02 x01 x01 x03 x00)
    by (vm_compute; reflexivity).
  rewrite !(mix_coefficient_spec x09 x0e x0b x0d x03 x02 x01 x01 x01)
    by (vm_compute; reflexivity).
  rewrite !(mix_coefficient_spec x09 x0e x0b x0d x01 x03 x02 x01 x00)
    by (vm_compute; reflexivity).
  rewrite !(mix_coefficient_spec x09 x0e x0b x0d x01 x01 x03 x02 x00)
    by (vm_compute; reflexivity).
  rewrite !(mix_coefficient_spec x0d x09 x0e x0b x02 x01 x01 x03 x00)
    by (vm_compute; reflexivity).
  rewrite !(mix_coefficient_spec x0d x09 x0e x0b x03 x02 x01 x01 x00)
    by (vm_compute; reflexivity).
  rewrite !(mix_coefficient_spec x0d x09 x0e x0b x01 x03 x02 x01 x01)
    by (vm_compute; reflexivity).
  rewrite !(mix_coefficient_spec x0d x09 x0e x0b x01 x01 x03 x02 x00)
    by (vm_compute; reflexivity).
  rewrite !(mix_coefficient_spec x0b x0d x09 x0e x02 x01 x01 x03 x00)
    by (vm_compute; reflexivity).
  rewrite !(mix_coefficient_spec x0b x0d x09 x0e x03 x02 x01 x01 x00)
    by (vm_compute; reflexivity).
  rewrite !(mix_coefficient_spec x0b x0d x09 x0e x01 x03 x02 x01 x00)
    by (vm_compute; reflexivity).
  rewrite !(mix_coefficient_spec x0b x0d x09 x0e x01 x01 x03 x02 x01)
    by (vm_compute; reflexivity).
  rewrite !gf_mul_x01, !gf_mul_x00.
  destruct (xor4_unit a) as (-> & _).
  destruct (xor4_unit b) as (_ & -> & _).
  destruct (xor4_unit c) as (_ & _ & -> & _).
  destruct (xor4_unit d) as (_ & _ & _ & ->).
  reflexivity.
Qed.

Lemma length_round_key (w : bytes) (r : nat) : length (round_key w r) = 16.
Proof. unfold round_key. rewrite length_map. reflexivity. Qed.

Lemma length_shift_rows (s : bytes) : length (shift_rows s) = 16.
Proof. unfold shift_rows. rewrite length_map. reflexivity. Qed.

Lemma length_sub_bytes (s : bytes) : length (sub_bytes s) = length s.
Proof. apply length_map. Qed.

Lemma state_16 (s : bytes) :
  length s = 16 ->
  exists b0 b1 b2 b3 b4 b5 b6 b7 b8 b9 b10 b11 b12 b13 b14 b15,
    s = [b0; b1; b2; b3; b4; b5; b6; b7; b8; b9; b10; b11; b12; b13; b14; b15].
Proof.
  intros H.
  do 16 (destruct s as [|? s]; [discriminate H|]).
  destruct s; [|discriminate H].
  repeat eexists.
Qed.

Lemma length_mix_columns (s : bytes) :
  length s = 16 -> length (mix_columns s) = 16.
Proof.
  intros H. destruct (state_16 s H) as (? & ? & ? & ? & ? & ? & ? & ? & ? & ?
    & ? & ? & ? & ? & ? & ? & ->). reflexivity.
Qed.

Lemma inv_shift_rows_shift_rows (s : bytes) :
  length s = 16 -> inv_shift_rows (shift_rows s) = s.
Proof.
  intros H. destruct (state_16 s H) as (? & ? & ? & ? & ? & ? & ? & ? & ? & ?
    & ? & ? & ? & ? & ? & ? & ->). reflexivity.
Qed.

Lemma inv_mix_columns_mix_columns (s : bytes) :
  length s = 16 -> inv_mix_columns (mix_columns s) = s.
Proof.
  intros H. destruct (state_16 s H) as (b0 & b1 & b2 & b3 & b4 & b5 & b6 & b7
    & b8 & b9 & b10 & b11 & b12 & b13 & b14 & b15 & ->).
  pose proof (inv_mix_column_mix_column b0 b1 b2 b3) as H0.
  pose proof (inv_mix_column_mix_column b4 b5 b6 b7) as H1.
  pose proof (inv_mix_column_mix_column b8 b9 b10 b11) as H2.
  pose proof (inv_mix_column_mix_column b12 b13 b14 b15) as H3.
  cbn [mix_column] in H0, H1, H2, H3.
  unfold inv_mix_columns, mix_columns. cbn [map_columns].
  unfold take, drop. cbn [firstn skipn mix_column app].
  rewrite H0, H1, H2, H3. reflexivity.
Qed.

Lemma inv_sub_bytes_sub_bytes (s : bytes) : inv_sub_bytes (sub_bytes s) = s.
Proof.
  unfold inv_sub_bytes, sub_bytes. rewrite map_map.
  rewrite <- (map_id s) at 2. apply map_ext. apply aes_inv_sbox_sbox.
Qed.

Lemma aes_round_inverse (w s : bytes) (r : nat) :
  length s = 16 ->
  length (aes_round w s r) = 16 /\
  aes_inv_round w (aes_round w s r) r = s.
Proof.
  intros H. unfold aes_round, aes_inv_round.
  assert (Hm : length (mix_columns (shift_rows (sub_bytes s))) = 16)
    by (apply length_mix_columns, length_shift_rows).
  split.
  - rewrite length_xor_bytes, Hm, length_round_key. reflexivity.
  - rewrite xor_bytes_involutive by (rewrite Hm, length_round_key; lia).
    rewrite inv_mix_columns_mix_columns by apply length_shift_rows.
    rewrite inv_shift_rows_shift_rows by (rewrite length_sub_bytes; exact H).
    apply inv_sub_bytes_sub_bytes.
Qed.

Lemma aes_rounds_inverse (w : bytes) (rounds : list nat) :
  forall s,
    length s = 16 ->
    length (fold_left (aes_round w) rounds s) = 16 /\
    fold_left (aes_inv_round w) (rev rounds)
      (fold_left (aes_round w) rounds s) = s.
Proof.
  induction rounds as [|r rounds IH]; intros s H.
  - split; [exact H|reflexivity].
  - cbn [fold_left rev].
    destruct (aes_round_inverse w s r H) as [Hl Hi].
    destruct (IH (aes_round w s r) Hl) as [Hl' Hi'].
    split; [exact Hl'|].
    rewrite fold_left_app, Hi'. cbn [fold_left]. exact Hi.
Qed.

Lemma length_aes_cipher (key block : bytes) :
  length (aes_cipher key block) = 16.
Proof.
  unfold aes_cipher.
  rewrite length_xor_bytes, length_shift_rows, length_round_key. reflexivity.
Qed.

Lemma aes_inv_cipher_cipher (key block : bytes) :
  length block = 16 -> aes_inv_cipher key (aes_cipher key block) = block.
Proof.
  intros H. unfold aes_inv_cipher, aes_cipher.
  set (w := key_expansion key). set (nr := length key / 4 + 6).
  assert (H0 : length (xor_bytes block (round_key w 0)) = 16)
    by (rewrite length_xor_bytes, H, length_round_key; reflexivity).
  destruct (aes_rounds_inverse w (seq 1 (nr - 1)) _ H0) as [Hl Hi].
  rewrite xor_bytes_involutive
    by (rewrite length_shift_rows, length_round_key; lia).
  rewrite inv_shift_rows_shift_rows by (rewrite length_sub_bytes; exact Hl).
  rewrite inv_sub_bytes_sub_bytes. rewrite Hi.
  apply xor_bytes_involutive. rewrite H, length_round_key. lia.
Qed.

Lemma length_sha256 (m : bytes) : length (sha256 m) = 32.
Proof.
  unfold sha256.
  destruct (sha256_blocks (length (sha256_pad m) / 64) sha256_H0 (sha256_pad m))
    as [[[[[[[a b] c] d] e] f] g] h].
  reflexivity.
Qed.

Lemma length_sha224 (m : bytes) : length (sha224 m) = 28.
Proof.
  unfold sha224.
  destruct (sha256_blocks (length (sha256_pad m) / 64) sha224_H0 (sha256_pad m))
    as [[[[[[[a b] c] d] e] f] g] h].
  reflexivity.
Qed.

Lemma length_sha1 (m : bytes) : length (sha1 m) = 20.
Proof.
  unfold sha1.
  destruct (sha1_blocks (length (sha256_pad m) / 64) sha1_H0 (sha256_pad m))
    as [[[[a b] c] d] e].
  reflexivity.
Qed.

Lemma length_checksum_digest (a : HashAlgorithm) (m : bytes) :
  length (checksum_digest a m) = digest_size a.
Proof. unfold checksum_digest. rewrite length_map, length_seq. reflexivity. Qed.

Lemma reference_backend_laws : BackendLaws reference_backend.
Proof.
  split.
  - intros k b _ _. apply length_aes_cipher.
  - intros k b _ Hb. apply aes_inv_cipher_cipher. exact Hb.
  - intros a m. cbn [hash_digest reference_backend].
    destruct a; cbn [reference_digest];
      first [apply length_sha1 | apply length_sha224 | apply length_sha256
            | apply length_checksum_digest].
Qed.

(** ** Known answers

    The models of the library primitives, run on published test vectors and
    on the answers of the Python standard library. *)

Example b2a_foobar :
  urlsafe_b64encode (bytes_of_string "foobar>>??") =
  bytes_of_string "Zm9vYmFyPj4_Pw==".
Proof. vm_compute. reflexivity. Qed.

Example a2b_skips_other_characters :
  urlsafe_b64decode (PyStr "Zm9v!!YmFy") = inr (bytes_of_string "foobar").
Proof. vm_compute. reflexivity. Qed.

Example a2b_stops_at_padding :
  urlsafe_b64decode (PyStr "Zm8=Zg==") = inr (bytes_of_string "fo") /\
  urlsafe_b64decode (PyStr "Zg==Zg==") = inr (bytes_of_string "f") /\
  urlsafe_b64decode (PyStr "Zm9v=YmFy") = inr (bytes_of_string "foobar") /\
  urlsafe_b64decode (PyStr "Z=g==") = inr (bytes_of_string "f").
Proof. vm_compute. repeat split. Qed.

Example a2b_truncated :
  urlsafe_b64decode (PyStr "Zm9") = inl (BinasciiError "Incorrect padding") /\
  urlsafe_b64decode (PyStr "Zg=") = inl (BinasciiError "Incorrect padding") /\
  urlsafe_b64decode (PyStr "Zm9vY") =
    inl (BinasciiError
           "Invalid base64-encoded string: number of data characters cannot be 1 more than a multiple of 4").
Proof. vm_compute. repeat split. Qed.

Example pkcs7_hello_world :
  pkcs7_padded hello_world = hello_world ++ repeat x05 5 /\
  pkcs7_unpad (hello_world ++ repeat x05 5) = inr hello_world /\
  pkcs7_unpad (hello_world ++ repeat x04 5) =
    inr (hello_world ++ [x04]) /\
  pkcs7_unpad (hello_world ++ x04 :: repeat x05 4) =
    inl (ValueError "Invalid padding bytes.") /\
  pkcs7_unpad (hello_world ++ repeat x00 5) =
    inl (ValueError "Invalid padding bytes.") /\
  pkcs7_unpad hello_world = inl (ValueError "Invalid padding bytes.").
Proof. vm_compute. repeat split. Qed.

(** FIPS 180-4, the message [abc]. *)
Example sha_abc :
  hex (sha1 (bytes_of_string "abc")) =
    "a9993e364706816aba3e25717850c26c9cd0d89d"%string /\
  hex (sha224 (bytes_of_string "abc")) =
    "23097d223405d8228642a477bda255b32aadbce4bda0b3f7e36c9da7"%string /\
  hex (sha256 (bytes_of_string "abc")) =
    "ba7816bf8f01cfea414140de5dae2223b00361a396177a9cb410ff61f20015ad"%string.
Proof. vm_compute. repeat split. Qed.

(** FIPS 197, appendix C: the keys [00 01 02 ...] of 16, 24 and 32 bytes. *)
Example aes_fips197 :
  let plaintext := map (fun i => byte_of_nat (17 * i)) (seq 0 16) in
  hex (aes_cipher (map byte_of_nat (seq 0 16)) plaintext) =
    "69c4e0d86a7b0430d8cdb78070b4c55a"%string /\
  hex (aes_cipher (map byte_of_nat (seq 0 24)) plaintext) =
    "dda97ca4864cdfe06eaf70a0ec0d7191"%string /\
  hex (aes_cipher (map byte_of_nat (seq 0 32)) plaintext) =
    "8ea2b7ca516745bfeafc49904b496089"%string.
Proof. vm_compute. repeat split. Qed.

(** RFC 2202 and RFC 4231, test case 2; a key longer than a block. *)
Example hmac_jefe :
  let key := bytes_of_string "Jefe" in
  let data := bytes_of_string "what do ya want for nothing?" in
  hex (hmac reference_backend SHA1 key data) =
    "effcdf6ae5eb2fa2d27416d5f184df9c259a7c79"%string /\
  hex (hmac reference_backend SHA256 key data) =
    "5bdcc146bf60754e6a042426089575c75a003f089d2739839dec58b964ec3843"%string /\
  hex (hmac reference_backend SHA256 (repeat "k"%byte 100)
         (bytes_of_string "msg")) =
    "bd56a1782c2830e8abc6ed866a57a1230661e650b84c62f7ee3accc5fa5af491"%string.
Proof. vm_compute. repeat split. Qed.

(** [salted_hmac] under the secret key of [tests/settings.py]. *)
Example salted_hmac_sha1 :
  match salted_hmac test_settings (PyStr "salt") (PyStr "value") None
          salted_hmac_default_algorithm with
  | inr h => hex (HMAC_finalize h)
  | inl _ => EmptyString
  end = "8047c26139cb7ee50bf1c6c2b3bc7597570e9b59"%string.
Proof. vm_compute. reflexivity. Qed.

(** The PBKDF2-HMAC-SHA256 vector for [password], [salt] and one iteration
    (two iterations and two blocks in the second line), and RFC 6070 for
    SHA-1. *)
Example pbkdf2_vectors :
  pbkdf2 test_settings (PyStr "password") (PyStr "salt") 1 32 (Some SHA256) =
    inr (pbkdf2_blocks reference_backend SHA256 (bytes_of_string "password")
           (bytes_of_string "salt") 1 1 1) /\
  hex (pbkdf2_blocks reference_backend SHA256 (bytes_of_string "password")
         (bytes_of_string "salt") 1 1 1) =
    "120fb6cffcf8b32c43e7225256c4f837a86548c92ccc35480805987cb70be17b"%string /\
  match pbkdf2 test_settings (PyStr "password") (PyStr "salt") 2 40 None with
  | inr dk => hex dk
  | inl _ => EmptyString
  end =
    "ae4d0c95af6b46d32d0adff928f06dd02a303f8ef3c251dfd6e2d85a95474c43830651afcb5c862f"%string /\
  match pbkdf2 test_settings (PyStr "password") (PyStr "salt") 2 0 (Some SHA1) with
  | inr dk => hex dk
  | inl _ => EmptyString
  end = "ea6c014dc72d6f8ccd1ed92ace1d41f0d8de8957"%string.
Proof. vm_compute. repeat split. Qed.

(** The engine on the key of 32 zero bytes: [hello world], encrypted at
    time 1000, comes back without a TTL, and with a TTL of one second the
    signer finds the token expired at time 1002. *)
Example fernet_zero_key :
  match fst (encrypt_at_time test_settings test_fernet (PyBytes hello_world)
               1000 test_world) with
  | inr tok =>
      decrypt test_settings test_fernet late_world tok None = inr hello_world /\
      decrypt test_settings test_fernet late_world tok (Some 1%Z) =
        inl (SignatureExpired "Signature age exceeds max_age")
  | inl _ => False
  end.
Proof. vm_compute. repeat split. Qed.

(** The signers of class [TestSigner] sign at any time that fits eight
    bytes and unsign what they signed. *)
Lemma TestSigner_sign_total (key : option bytes_or_str) (t : Z) :
  (0 <= t < 2 ^ 64)%Z ->
  forall v, exists tok,
    sign (new_signer TestSigner key None) (PyBytes v) t = inr tok.
Proof.
  intros Ht v.
  exact (spec_sign_total test_settings reference_backend_laws key None SHA256
           eq_refl (PyBytes v) t Ht).
Qed.

Lemma TestSigner_unsign_sign (key : option bytes_or_str) (t : Z) :
  forall v tok w,
    sign (new_signer TestSigner key None) (PyBytes v) t = inr tok ->
    unsign (new_signer TestSigner key None) w tok None = inr v.
Proof.
  intros v tok w H.
  exact (spec_unsign_sign test_settings reference_backend_laws key None SHA256
           eq_refl (PyBytes v) t tok w H).
Qed.

(** * The claims *)

(** C1. Round trip: for every engine instance (of [FernetBytes] or of the
    base64 variant [Fernet]) whose key is a valid AES key, over a backend
    whose block cipher decrypts what it encrypts and a signer that unsigns
    what it signs, encrypting any data [d] at any fixed time succeeds with
    a token, and decrypting that token with no TTL returns exactly the bytes
    of [d]. *)
Theorem fernet_encrypt_decrypt_roundtrip
  (settings : CryptographyConf) (self : FernetObj) (d : bytes_or_str)
  (t : Z) (w : World) :
  BackendLaws (CRYPTOGRAPHY_BACKEND settings) ->
  aes_key_size_ok (force_bytes (self_key self)) = true ->
  (forall v, exists tok, sign (self_signer self) (PyBytes v) t = inr tok) ->
  (forall v tok w',
     sign (self_signer self) (PyBytes v) t = inr tok ->
     unsign (self_signer self) w' tok None = inr v) ->
  exists tok,
    fst (encrypt_at_time settings self d t w) = inr tok /\
    forall w', decrypt settings self w' tok None = inr (force_bytes d).
Proof.
  intros HB Hkey Hsign Hunsign.
  exact (encrypt_decrypt_roundtrip settings HB self Hkey t Hsign Hunsign d w).
Qed.

Lemma fernet_encrypt_decrypt_roundtrip_witness :
  (exists tok,
     fst (encrypt_at_time test_settings test_fernet_bytes
            (PyBytes hello_world) 1000 test_world) = inr tok /\
     forall w', decrypt test_settings test_fernet_bytes w' tok None =
                inr hello_world) /\
  (exists tok,
     fst (encrypt_at_time test_settings test_fernet
            (PyBytes hello_world) 1000 test_world) = inr tok /\
     forall w', decrypt test_settings test_fernet w' tok None =
                inr hello_world).
Proof.
  split.
  - apply (fernet_encrypt_decrypt_roundtrip test_settings test_fernet_bytes
             (PyBytes hello_world) 1000 test_world).
    + exact reference_backend_laws.
    + reflexivity.
    + apply TestSigner_sign_total. lia.
    + apply TestSigner_unsign_sign.
  - apply (fernet_encrypt_decrypt_roundtrip test_settings test_fernet
             (PyBytes hello_world) 1000 test_world).
    + exact reference_backend_laws.
    + reflexivity.
    + apply TestSigner_sign_total. lia.
    + apply TestSigner_unsign_sign.
Defined.

(** ** Failures of the signer *)

(** C2, as the code has it. When the signer's [unsign] raises an exception
    [e] on the token, [FernetBytes.decrypt] raises that same exception [e]:
    the call of [unsign] is outside every [try], so [BadSignature] and
    [SignatureExpired] reach the caller unchanged and are not turned into
    [InvalidToken]. *)
Theorem FernetBytes_decrypt_propagates_signer_error
  (settings : CryptographyConf) (self : FernetObj) (w : World)
  (data : bytes) (ttl : option Z) (e : exn) :
  unsign (self_signer self) w data ttl = inl e ->
  FernetBytes_decrypt settings self w data ttl = inl e.
Proof. intros H. unfold FernetBytes_decrypt. rewrite H. reflexivity. Qed.

Lemma FernetBytes_decrypt_propagates_signer_error_witness :
  FernetBytes_decrypt test_settings test_fernet_bytes late_world hello_token
    (Some 1%Z) = inl (SignatureExpired "Signature age exceeds max_age").
Proof.
  apply (FernetBytes_decrypt_propagates_signer_error test_settings
           test_fernet_bytes late_world hello_token (Some 1%Z)).
  vm_compute. reflexivity.
Defined.

(** C2, as stated, fails: on a forged token the signer raises
    [BadSignature], on an expired one [SignatureExpired], and
    [FernetBytes.decrypt] raises these, not [InvalidToken]. *)
Lemma FernetBytes_decrypt_signer_error_not_InvalidToken :
  (unsign (self_signer test_fernet_bytes) test_world forged_token None =
     inl (BadSignature "Signature is not valid") /\
   FernetBytes_decrypt test_settings test_fernet_bytes test_world
     forged_token None = inl (BadSignature "Signature is not valid") /\
   FernetBytes_decrypt test_settings test_fernet_bytes test_world
     forged_token None <> inl InvalidToken) /\
  (unsign (self_signer test_fernet_bytes) late_world hello_token (Some 1%Z) =
     inl (SignatureExpired "Signature age exceeds max_age") /\
   FernetBytes_decrypt test_settings test_fernet_bytes late_world
     hello_token (Some 1%Z) =
     inl (SignatureExpired "Signature age exceeds max_age") /\
   FernetBytes_decrypt test_settings test_fernet_bytes late_world
     hello_token (Some 1%Z) <> inl InvalidToken).
Proof.
  repeat split; try (vm_compute; reflexivity);
    vm_compute; intros H; discriminate H.
Qed.

(** ** Construction of a [Fernet] *)

Section FernetInit.

Variable settings : CryptographyConf.
Variable FernetSigner : SignerClass.

Lemma py_or_nonempty (b : bytes) (d : bytes_or_str) :
  b <> [] -> py_or (Some (PyBytes b)) d = PyBytes b.
Proof. intros H. destruct b; [contradiction|reflexivity]. Qed.

Lemma Fernet_init_decoded (key : bytes_or_str) (signer : option Signer)
  (raw : bytes) :
  urlsafe_b64decode key = inr raw ->
  Fernet_init settings FernetSigner (Some key) signer =
  if length raw =? 32 then
    inr {| self_class := FernetClass;
           self_key := PyBytes (drop 16 raw);
           self_signer := new_signer
                            (signer_type (given_signer FernetSigner signer))
                            (Some (PyBytes (take 16 raw))) None |}
  else inl (ValueError "Fernet key must be 32 url-safe base64-encoded bytes.").
Proof.
  intros Hdec. unfold Fernet_init. rewrite Hdec. cbn [bind].
  destruct (length raw =? 32) eqn:E; cbn [negb]; [|reflexivity].
  apply Nat.eqb_eq in E. unfold FernetBytes_init, ret.
  rewrite py_or_nonempty; [reflexivity|].
  intros Hnil. apply (f_equal (@length byte)) in Hnil.
  unfold drop in Hnil. rewrite length_skipn in Hnil. simpl in Hnil. lia.
Qed.

End FernetInit.

Example Fernet_init_zero_key :
  Fernet_init test_settings TestSigner (Some zero_key) None = inr test_fernet.
Proof.
  rewrite (Fernet_init_decoded test_settings TestSigner zero_key None
             (repeat x00 32)) by (vm_compute; reflexivity).
  reflexivity.
Qed.

(** C3. When [Fernet] is constructed with a key that base64-url-decodes to
    32 bytes [raw], the construction succeeds, the first 16 bytes of [raw]
    are the key of the signer, a new signer of the class of the given (or
    default) signer, and the last 16 bytes are the engine's key, the key the
    AES cipher is built with; the two halves make up [raw]. *)
Theorem Fernet_init_splits_key
  (settings : CryptographyConf) (FernetSigner : SignerClass)
  (key : bytes_or_str) (signer : option Signer) (raw : bytes) :
  urlsafe_b64decode key = inr raw ->
  length raw = 32 ->
  exists self,
    Fernet_init settings FernetSigner (Some key) signer = inr self /\
    self_class self = FernetClass /\
    self_signer self =
      new_signer
        (signer_type match signer with
                     | None => new_signer FernetSigner None None
                     | Some s => s
                     end)
        (Some (PyBytes (take 16 raw))) None /\
    self_key self = PyBytes (drop 16 raw) /\
    AES (force_bytes (self_key self)) = inr (drop 16 raw) /\
    length (take 16 raw) = 16 /\ length (drop 16 raw) = 16 /\
    take 16 raw ++ drop 16 raw = raw.
Proof.
  intros Hdec Hlen.
  rewrite (Fernet_init_decoded settings FernetSigner key signer raw Hdec).
  rewrite Hlen. cbn [Nat.eqb]. eexists. split; [reflexivity|].
  cbn [self_class self_signer self_key force_bytes].
  assert (Hd : length (drop 16 raw) = 16)
    by (unfold drop; rewrite length_skipn; lia).
  repeat split.
  - apply AES_valid_key. apply aes_key_size_ok_length. left. exact Hd.
  - unfold take. rewrite length_firstn. lia.
  - exact Hd.
  - apply firstn_skipn.
Qed.

Lemma Fernet_init_splits_key_witness :
  exists self,
    Fernet_init test_settings TestSigner (Some zero_key) None = inr self /\
    self_class self = FernetClass /\
    self_signer self =
      new_signer (signer_type (new_signer TestSigner None None))
        (Some (PyBytes (take 16 (repeat x00 32)))) None /\
    self_key self = PyBytes (drop 16 (repeat x00 32)) /\
    AES (force_bytes (self_key self)) = inr (drop 16 (repeat x00 32)) /\
    length (take 16 (repeat x00 32)) = 16 /\
    length (drop 16 (repeat x00 32)) = 16 /\
    take 16 (repeat x00 32) ++ drop 16 (repeat x00 32) = repeat x00 32.
Proof.
  apply (Fernet_init_splits_key test_settings TestSigner zero_key None
           (repeat x00 32)).
  - vm_compute. reflexivity.
  - reflexivity.
Defined.

(** C4. When the supplied key base64-url-decodes to [raw], constructing a
    [Fernet] raises the key-format error (the [ValueError] of
    [Fernet.__init__]) if the length of [raw] is any value other than 32,
    and succeeds if it is exactly 32. *)
Theorem Fernet_init_key_length
  (settings : CryptographyConf) (FernetSigner : SignerClass)
  (key : bytes_or_str) (signer : option Signer) (raw : bytes) :
  urlsafe_b64decode key = inr raw ->
  (length raw <> 32 ->
   Fernet_init settings FernetSigner (Some key) signer =
   inl (ValueError "Fernet key must be 32 url-safe base64-encoded bytes.")) /\
  (length raw = 32 ->
   exists self, Fernet_init settings FernetSigner (Some key) signer = inr self).
Proof.
  intros Hdec.
  rewrite (Fernet_init_decoded settings FernetSigner key signer raw Hdec).
  split; intros H.
  - apply Nat.eqb_neq in H. rewrite H. reflexivity.
  - apply Nat.eqb_eq in H. rewrite H. eexists. reflexivity.
Qed.

Lemma Fernet_init_key_length_witness :
  Fernet_init test_settings TestSigner
    (Some (PyStr "MDEyMzQ1Njc4OWFiY2RlZg==")) None =
  inl (ValueError "Fernet key must be 32 url-safe base64-encoded bytes.") /\
  exists self,
    Fernet_init test_settings TestSigner (Some zero_key) None = inr self.
Proof.
  split.
  - apply (Fernet_init_key_length test_settings TestSigner
             (PyStr "MDEyMzQ1Njc4OWFiY2RlZg==") None
             (bytes_of_string "0123456789abcdef")).
    + vm_compute. reflexivity.
    + simpl. lia.
  - apply (Fernet_init_key_length test_settings TestSigner zero_key None
             (repeat x00 32)).
    + vm_compute. reflexivity.
    + reflexivity.
Defined.

(** C9. Constructing a [Fernet] with [key=None] never fails: no base64
    decoding and no length check take place, the key of the instance is the
    [CRYPTOGRAPHY_KEY] of the settings as it is, whatever its length, and no
    half of it becomes a signer key: the signer is a default
    [FernetSigner()] built without a key. *)
Theorem Fernet_init_without_key
  (settings : CryptographyConf) (FernetSigner : SignerClass)
  (signer : option Signer) :
  Fernet_init settings FernetSigner None signer =
  inr {| self_class := FernetClass;
         self_key := CRYPTOGRAPHY_KEY settings;
         self_signer := new_signer FernetSigner None None |}.
Proof. reflexivity. Qed.

(** ** Failures of the base64 decoder *)

Lemma a2b_loop_error (s : bytes) :
  forall q lc pads out e,
    a2b_loop s q lc pads out = inl e -> exists msg, e = BinasciiError msg.
Proof.
  induction s as [|c s IH]; intros q lc pads out e H.
  - cbn [a2b_loop] in H. destruct q as [|[|q]]; try discriminate;
      injection H as <-; eexists; reflexivity.
  - cbn [a2b_loop] in H.
    destruct (Byte.eqb c BASE64_PAD).
    + destruct (2 <=? q).
      * destruct (4 <=? q + (pads + 1)); [discriminate|]. eapply IH, H.
      * eapply IH, H.
    + destruct (table_a2b_base64 c) as [v|]; [|eapply IH, H].
      destruct q as [|[|[|q]]]; eapply IH, H.
Qed.

Lemma urlsafe_b64decode_bytes_error (token : bytes) (e : exn) :
  urlsafe_b64decode (PyBytes token) = inl e -> exists msg, e = BinasciiError msg.
Proof.
  unfold urlsafe_b64decode, a2b_base64. cbn [bytes_from_decode_types bind ret].
  apply a2b_loop_error.
Qed.

(** C5. For every token on which the base64-url-decoding fails,
    [Fernet.decrypt] raises [InvalidToken]. *)
Theorem Fernet_decrypt_decode_error
  (settings : CryptographyConf) (self : FernetObj) (w : World)
  (token : bytes) (ttl : option Z) (e : exn) :
  urlsafe_b64decode (PyBytes token) = inl e ->
  Fernet_decrypt settings self w token ttl = inl InvalidToken.
Proof.
  intros H. unfold Fernet_decrypt.
  destruct (urlsafe_b64decode_bytes_error token e H) as [msg ->].
  rewrite H. reflexivity.
Qed.

Lemma Fernet_decrypt_decode_error_witness :
  Fernet_decrypt test_settings test_fernet test_world
    (bytes_of_string "gAAAAAAAAAPoAQgPFh0kKzI5Q") None = inl InvalidToken /\
  Fernet_decrypt test_settings test_fernet test_world
    (bytes_of_string "gAAA!AAAAAPoAQgPFh0kKzI5QEd=") None = inl InvalidToken.
Proof.
  split.
  - apply (Fernet_decrypt_decode_error test_settings test_fernet test_world
             (bytes_of_string "gAAAAAAAAAPoAQgPFh0kKzI5Q") None
             (BinasciiError
                "Invalid base64-encoded string: number of data characters cannot be 1 more than a multiple of 4")).
    vm_compute. reflexivity.
  - apply (Fernet_decrypt_decode_error test_settings test_fernet test_world
             (bytes_of_string "gAAA!AAAAAPoAQgPFh0kKzI5QEd=") None
             (BinasciiError "Incorrect padding")).
    vm_compute. reflexivity.
Defined.

(** ** Failures inside [FernetBytes.decrypt] *)

Lemma context_finalize_error (ctx : CipherContext) (e : exn) :
  context_finalize ctx = inl e -> class_of e = ValueErrorC.
Proof.
  unfold context_finalize. destruct (ctx_buffer ctx); [discriminate|].
  intros H. injection H as <-. reflexivity.
Qed.

Lemma unpadder_finalize_error (ctx : PaddingContext) (e : exn) :
  unpadder_finalize ctx = inl e -> e = ValueError "Invalid padding bytes.".
Proof.
  unfold unpadder_finalize.
  destruct (negb (length (pad_buffer ctx) =? pad_block_size ctx / 8)).
  - intros H. injection H as <-. reflexivity.
  - destruct (negb (check_pkcs7_padding (pad_buffer ctx)
                      (pad_block_size ctx / 8))).
    + intros H. injection H as <-. reflexivity.
    + discriminate.
Qed.

Lemma pkcs7_unpad_error (p : bytes) (e : exn) :
  pkcs7_unpad p = inl e -> e = ValueError "Invalid padding bytes.".
Proof.
  unfold pkcs7_unpad.
  destruct (unpadder_update (PKCS7_unpadder AES_block_size) p) as [u head].
  destruct (unpadder_finalize u) eqn:E; [|discriminate].
  cbn [bind]. intros H. injection H as <-.
  apply (unpadder_finalize_error u). exact E.
Qed.

(** [FernetBytes.decrypt] after a successful [unsign], with a valid key and
    a payload that holds an IV. *)
Lemma FernetBytes_decrypt_unsigned (settings : CryptographyConf)
  (self : FernetObj) (w : World) (data : bytes) (ttl : option Z)
  (payload : bytes) :
  unsign (self_signer self) w data ttl = inr payload ->
  aes_key_size_ok (force_bytes (self_key self)) = true ->
  16 <= length payload ->
  FernetBytes_decrypt settings self w data ttl =
  let '(dctx, plaintext_padded) :=
    decryptor_update (decryptor (decrypt_cipher settings self payload))
      (drop 16 payload) in
  tail <- try_except (decryptor_finalize dctx) [ValueErrorC] InvalidToken ;;
  try_except (pkcs7_unpad (plaintext_padded ++ tail)) [ValueErrorC] InvalidToken.
Proof.
  intros Hu Hk Hl. unfold FernetBytes_decrypt. rewrite Hu. cbn [bind].
  rewrite (AES_valid_key _ Hk). cbn [bind].
  rewrite (Cipher_valid _ _ _ Hk)
    by (unfold take; rewrite length_firstn; lia).
  cbn [bind]. fold (decrypt_cipher settings self payload).
  destruct (decryptor_update (decryptor (decrypt_cipher settings self payload))
              (drop 16 payload)) as [dctx pp].
  destruct (try_except (decryptor_finalize dctx) [ValueErrorC] InvalidToken)
    as [e|tail]; [reflexivity|].
  cbn [bind]. unfold pkcs7_unpad.
  destruct (unpadder_update (PKCS7_unpadder AES_block_size) (pp ++ tail))
    as [u head].
  destruct (unpadder_finalize u) as [e|t]; cbn [bind try_except];
    [destruct (isinstance_exn e [ValueErrorC])|]; reflexivity.
Qed.

Lemma decryptor_finalize_misaligned (c : CipherObj) (ct : bytes) :
  length ct mod 16 <> 0 ->
  exists msg,
    decryptor_finalize (fst (decryptor_update (decryptor c) ct)) =
    inl (ValueError msg).
Proof.
  intros H. unfold decryptor_update, context_update, decryptor, new_context.
  cbn [ctx_backend ctx_key ctx_chain ctx_buffer app].
  destruct (cbc_decrypt_blocks (cipher_backend c) (cipher_key c)
              (length ct / 16) (cipher_iv c) ct) as [out chain'].
  cbn [fst]. unfold decryptor_finalize, context_finalize. cbn [ctx_buffer].
  destruct (drop (length ct / 16 * 16) ct) eqn:E.
  - exfalso. apply (f_equal (@length byte)) in E. unfold drop in E.
    rewrite length_skipn in E. cbn [length] in E.
    pose proof (Nat.div_mod_eq (length ct) 16). lia.
  - eexists. reflexivity.
Qed.

(** C6. In [FernetBytes.decrypt], once the token is unsigned (under a valid
    key, with a payload that holds an IV): if the finalization of the
    AES-CBC decryptor raises, the call raises [InvalidToken]; if the
    decryptor finishes and the finalization of the PKCS7 unpadder raises,
    the call raises [InvalidToken]; and the decryptor does raise when the
    length of the ciphertext is not a multiple of the block size. *)
Theorem FernetBytes_decrypt_cipher_and_padding_errors
  (settings : CryptographyConf) (self : FernetObj) (w : World) (data : bytes)
  (ttl : option Z) (payload : bytes) :
  unsign (self_signer self) w data ttl = inr payload ->
  aes_key_size_ok (force_bytes (self_key self)) = true ->
  16 <= length payload ->
  let ciphertext := drop 16 payload in
  let dctx :=
    fst (decryptor_update (decryptor (decrypt_cipher settings self payload))
           ciphertext) in
  let plaintext_padded :=
    snd (decryptor_update (decryptor (decrypt_cipher settings self payload))
           ciphertext) in
  (forall e, decryptor_finalize dctx = inl e ->
     FernetBytes_decrypt settings self w data ttl = inl InvalidToken) /\
  (forall tail e,
     decryptor_finalize dctx = inr tail ->
     pkcs7_unpad (plaintext_padded ++ tail) = inl e ->
     FernetBytes_decrypt settings self w data ttl = inl InvalidToken) /\
  (length ciphertext mod 16 <> 0 ->
   exists e, decryptor_finalize dctx = inl e).
Proof.
  intros Hu Hk Hl ciphertext dctx pp.
  rewrite (FernetBytes_decrypt_unsigned settings self w data ttl payload Hu Hk Hl).
  fold ciphertext. subst dctx pp.
  destruct (decryptor_update (decryptor (decrypt_cipher settings self payload))
              ciphertext) as [dctx pp] eqn:E.
  cbn [fst snd]. repeat split.
  - intros e He. rewrite He. unfold try_except, isinstance_exn.
    rewrite (context_finalize_error dctx e He). reflexivity.
  - intros tail e Ht Hp. rewrite Ht. cbn [try_except bind]. rewrite Hp.
    rewrite (pkcs7_unpad_error _ _ Hp). reflexivity.
  - intros Hm.
    destruct (decryptor_finalize_misaligned
                (decrypt_cipher settings self payload) ciphertext Hm)
      as [msg Hmsg].
    rewrite E in Hmsg. eexists. exact Hmsg.
Qed.

Lemma FernetBytes_decrypt_cipher_and_padding_errors_witness :
  FernetBytes_decrypt test_settings test_fernet_bytes test_world
    misaligned_token None = inl InvalidToken /\
  FernetBytes_decrypt test_settings test_fernet_bytes test_world
    unpadded_token None = inl InvalidToken.
Proof.
  split.
  - refine (proj1 (FernetBytes_decrypt_cipher_and_padding_errors
                     test_settings test_fernet_bytes test_world
                     misaligned_token None misaligned_payload _ _ _)
              (ValueError
                 "The length of the provided data is not a multiple of the block length.")
              _).
    + vm_compute. reflexivity.
    + reflexivity.
    + simpl. lia.
    + vm_compute. reflexivity.
  - refine (proj1 (proj2 (FernetBytes_decrypt_cipher_and_padding_errors
                            test_settings test_fernet_bytes test_world
                            unpadded_token None unpadded_payload _ _ _))
              [] (ValueError "Invalid padding bytes.") _ _).
    + vm_compute. reflexivity.
    + reflexivity.
    + simpl. lia.
    + vm_compute. reflexivity.
    + vm_compute. reflexivity.
Defined.

(** C10. If [signer.unsign] returns a payload shorter than 16 bytes,
    [FernetBytes.decrypt] does not raise [InvalidToken]: the slice
    [data[:16]] is the whole short payload, and the construction of the
    cipher, which is outside the [try] blocks, raises a [ValueError] that
    reaches the caller. Under a valid AES key it is the [ValueError] for the
    size of the IV (under an invalid key, [AES] has raised one before). *)
Theorem FernetBytes_decrypt_short_payload
  (settings : CryptographyConf) (self : FernetObj) (w : World) (data : bytes)
  (ttl : option Z) (payload : bytes) :
  unsign (self_signer self) w data ttl = inr payload ->
  length payload < 16 ->
  take 16 payload = payload /\
  (exists msg,
     FernetBytes_decrypt settings self w data ttl = inl (ValueError msg)) /\
  FernetBytes_decrypt settings self w data ttl <> inl InvalidToken /\
  (aes_key_size_ok (force_bytes (self_key self)) = true ->
   FernetBytes_decrypt settings self w data ttl =
   inl (ValueError "Invalid IV size for AES.")).
Proof.
  intros Hu Hl.
  assert (Ht : take 16 payload = payload)
    by (unfold take; apply firstn_all2; lia).
  assert (H : exists msg,
             FernetBytes_decrypt settings self w data ttl = inl (ValueError msg)).
  { unfold FernetBytes_decrypt. rewrite Hu. cbn [bind].
    destruct (AES_result (force_bytes (self_key self))) as [Hk|[msg Hk]];
      rewrite Hk; cbn [bind].
    - destruct (Cipher_short_iv (force_bytes (self_key self)) (take 16 payload)
                  (CRYPTOGRAPHY_BACKEND settings)) as [msg Hc].
      + rewrite Ht. exact Hl.
      + rewrite Hc. exists msg. reflexivity.
    - exists msg. reflexivity. }
  split; [exact Ht|]. split; [exact H|]. split.
  - destruct H as [msg ->]. discriminate.
  - intros Hk. unfold FernetBytes_decrypt. rewrite Hu. cbn [bind].
    rewrite (AES_valid_key _ Hk). cbn [bind]. rewrite Ht.
    apply aes_key_size_ok_length in Hk. unfold Cipher, CBC.
    replace (32 <? length (force_bytes (self_key self))) with false
      by (symmetry; apply Nat.ltb_ge; lia).
    replace (length payload * 8 =? AES_block_size) with false
      by (symmetry; apply Nat.eqb_neq; unfold AES_block_size; lia).
    reflexivity.
Qed.

Lemma FernetBytes_decrypt_short_payload_witness :
  FernetBytes_decrypt test_settings test_fernet_bytes test_world
    short_token None = inl (ValueError "Invalid IV size for AES.") /\
  FernetBytes_decrypt test_settings test_fernet_bytes test_world
    short_token None <> inl InvalidToken.
Proof.
  destruct (FernetBytes_decrypt_short_payload test_settings test_fernet_bytes
              test_world short_token None short_payload)
    as (_ & _ & Hne & Hiv).
  - vm_compute. reflexivity.
  - simpl. lia.
  - split; [apply Hiv; reflexivity|exact Hne].
Defined.

(** ** Key derivation *)

(** C7 fails on the names of the extendable-output classes. When the
    upper-cased name of the algorithm is [SHAKE128] or [SHAKE256], the
    class is found in the [hashes] module, so that [InvalidAlgorithm] is
    not raised, and the call [hasher()], which lacks the digest size these
    classes require and is outside the [try], raises [TypeError]:
    [salted_hmac] returns no HMAC and does not raise the error for an
    unsupported algorithm. *)
Theorem salted_hmac_shake_TypeError
  (settings : CryptographyConf) (key_salt value : bytes_or_str)
  (secret : option bytes_or_str) (algorithm : string) :
  hashes_getattr (upper algorithm) = Some SHAKE128 \/
  hashes_getattr (upper algorithm) = Some SHAKE256 ->
  salted_hmac settings key_salt value secret algorithm =
    inl (TypeError "__init__() missing 1 required positional argument: 'digest_size'") /\
  salted_hmac settings key_salt value secret algorithm <>
    inl (InvalidAlgorithm algorithm).
Proof.
  intros H. unfold salted_hmac.
  destruct H as [H|H]; rewrite H; cbn [bind ret raise call_hasher];
    (split; [reflexivity|discriminate]).
Qed.

Lemma salted_hmac_shake_TypeError_witness :
  salted_hmac test_settings (PyStr "salt") (PyStr "value") None "shake128" =
    inl (TypeError "__init__() missing 1 required positional argument: 'digest_size'") /\
  salted_hmac test_settings (PyStr "salt") (PyStr "value") None "shake128" <>
    inl (InvalidAlgorithm "shake128").
Proof.
  apply (salted_hmac_shake_TypeError test_settings (PyStr "salt")
           (PyStr "value") None "shake128").
  left. reflexivity.
Defined.

(** The extendable-output classes are found by name, but cannot be called
    without a digest size. *)
Lemma salted_hmac_shake (settings : CryptographyConf)
  (key_salt value : bytes_or_str) (secret : option bytes_or_str) :
  salted_hmac settings key_salt value secret "shake128" =
  inl (TypeError "__init__() missing 1 required positional argument: 'digest_size'").
Proof. reflexivity. Qed.

Lemma digest_size_pos (a : HashAlgorithm) : 0 < digest_size a.
Proof. destruct a; simpl; lia. Qed.

Lemma length_pbkdf2_rounds (prf : bytes -> bytes) (h : nat) :
  (forall x, length (prf x) = h) ->
  forall n u acc, length acc = h -> length (pbkdf2_rounds prf n u acc) = h.
Proof.
  intros Hprf. induction n as [|n IH]; intros u acc Hacc; cbn [pbkdf2_rounds].
  - exact Hacc.
  - apply IH. rewrite length_xor_bytes, Hacc, Hprf. apply Nat.min_id.
Qed.

Lemma length_pbkdf2_F (B : Backend) (a : HashAlgorithm)
  (password salt : bytes) (c : nat) (i : N) :
  BackendLaws B -> length (pbkdf2_F B a password salt c i) = digest_size a.
Proof.
  intros HB. unfold pbkdf2_F. apply length_pbkdf2_rounds.
  - intros x. apply length_hmac. exact HB.
  - apply length_hmac. exact HB.
Qed.

Lemma length_pbkdf2_blocks (B : Backend) (a : HashAlgorithm)
  (password salt : bytes) (c l : nat) :
  BackendLaws B ->
  forall i,
    length (pbkdf2_blocks B a password salt c l i) = l * digest_size a.
Proof.
  intros HB. induction l as [|l IH]; intros i; cbn [pbkdf2_blocks].
  - reflexivity.
  - rewrite length_app, IH, length_pbkdf2_F by exact HB. simpl. reflexivity.
Qed.

Lemma blocks_cover (n h : nat) : 0 < h -> n <= (n + h - 1) / h * h.
Proof.
  intros Hh.
  pose proof (Nat.div_mod_eq (n + h - 1) h) as Hd.
  pose proof (Nat.mod_upper_bound (n + h - 1) h ltac:(lia)) as Hm.
  rewrite (Nat.mul_comm _ h). lia.
Qed.

Lemma PBKDF2HMAC_derive_length (B : Backend) (a : HashAlgorithm)
  (len iterations : Z) (salt password : bytes) :
  BackendLaws B ->
  (1 <= iterations)%Z ->
  (0 <= len <= (2 ^ 32 - 1) * Z.of_nat (digest_size a))%Z ->
  let n := Z.to_nat len in
  let dk :=
    take n (pbkdf2_blocks B a password salt (Z.to_nat iterations)
              ((n + digest_size a - 1) / digest_size a) 1) in
  PBKDF2HMAC_derive (PBKDF2HMAC a len salt iterations B) password = inr dk /\
  length dk = n.
Proof.
  intros HB Hi Hl n dk. split.
  - unfold PBKDF2HMAC_derive, PBKDF2HMAC.
    cbn [kdf_backend kdf_algorithm kdf_length kdf_salt kdf_iterations].
    replace (len <? 0)%Z with false by (symmetry; apply Z.ltb_ge; lia).
    replace (iterations <? 1)%Z with false by (symmetry; apply Z.ltb_ge; lia).
    replace ((2 ^ 32 - 1) * Z.of_nat (digest_size a) <? len)%Z with false
      by (symmetry; apply Z.ltb_ge; lia).
    reflexivity.
  - unfold dk, take. rewrite length_firstn, length_pbkdf2_blocks by exact HB.
    pose proof (blocks_cover n (digest_size a) (digest_size_pos a)). lia.
Qed.

(** C8. [pbkdf2(password, salt, iterations, dklen, digest)] takes SHA-256
    when no digest is given and the digest's own output size when [dklen]
    is zero (the default); for an iteration count of at least one and a
    length within the bound of PBKDF2 it returns the PBKDF2-HMAC key
    derived from the password and the salt with that iteration count, cut
    to exactly [dklen] bytes. *)
Theorem pbkdf2_defaults_and_length
  (settings : CryptographyConf) (password salt : bytes_or_str)
  (iterations dklen : Z) (digest : option HashAlgorithm) :
  let B := CRYPTOGRAPHY_BACKEND settings in
  let d := match digest with
           | None => SHA256
           | Some d => d
           end in
  let n := if (dklen =? 0)%Z then digest_size d else Z.to_nat dklen in
  BackendLaws B ->
  (1 <= iterations)%Z ->
  (0 <= dklen <= (2 ^ 32 - 1) * Z.of_nat (digest_size d))%Z ->
  pbkdf2 settings password salt iterations dklen None =
    pbkdf2 settings password salt iterations dklen (Some SHA256) /\
  pbkdf2 settings password salt iterations 0 digest =
    pbkdf2 settings password salt iterations (Z.of_nat (digest_size d)) digest /\
  exists dk,
    pbkdf2 settings password salt iterations dklen digest = inr dk /\
    length dk = n /\
    dk = take n (pbkdf2_blocks B d (force_bytes password) (force_bytes salt)
                   (Z.to_nat iterations)
                   ((n + digest_size d - 1) / digest_size d) 1).
Proof.
  intros B d n HB Hi Hl. split; [reflexivity|]. split.
  - unfold pbkdf2. fold d. cbn [Z.eqb].
    pose proof (digest_size_pos d).
    replace (Z.of_nat (digest_size d) =? 0)%Z with false
      by (symmetry; apply Z.eqb_neq; lia).
    reflexivity.
  - unfold pbkdf2. fold d. fold B.
    pose proof (digest_size_pos d) as Hpos.
    set (len := if (dklen =? 0)%Z then Z.of_nat (digest_size d) else dklen).
    assert (Hn : n = Z.to_nat len).
    { unfold n, len. destruct (dklen =? 0)%Z; lia. }
    assert (Hlen : (0 <= len <= (2 ^ 32 - 1) * Z.of_nat (digest_size d))%Z).
    { unfold len. destruct (dklen =? 0)%Z; lia. }
    destruct (PBKDF2HMAC_derive_length B d len iterations (force_bytes salt)
                (force_bytes password) HB Hi Hlen) as [Hd Hlength].
    rewrite Hd. rewrite <- Hn in *. eexists. split; [reflexivity|].
    split; [exact Hlength|reflexivity].
Qed.

Lemma pbkdf2_defaults_and_length_witness :
  exists dk,
    pbkdf2 test_settings (PyStr "password") (PyStr "salt") 1 0 None = inr dk /\
    length dk = 32.
Proof.
  destruct (pbkdf2_defaults_and_length test_settings (PyStr "password")
              (PyStr "salt") 1 0 None reference_backend_laws)
    as (_ & _ & dk & Hdk & Hlen & _).
  - lia.
  - simpl. lia.
  - exists dk. split; [exact Hdk|exact Hlen].
Defined.

(** * Further properties *)

(** ** Keys *)

Lemma force_bytes_empty (key : bytes_or_str) :
  force_bytes key = [] -> truthy (Some key) = false.
Proof.
  destruct key as [b|s]; cbn [force_bytes truthy].
  - intros ->. reflexivity.
  - destruct s; [reflexivity|discriminate].
Qed.

Lemma force_bytes_nonempty (key : bytes_or_str) :
  force_bytes key <> [] -> truthy (Some key) = true.
Proof.
  destruct key as [b|s]; cbn [force_bytes truthy].
  - destruct b; [contradiction|reflexivity].
  - destruct s; [contradiction|reflexivity].
Qed.

Lemma urlsafe_b64decode_empty (key : bytes_or_str) :
  force_bytes key = [] -> urlsafe_b64decode key = inr [].
Proof.
  destruct key as [b|s]; cbn [force_bytes]; intros H.
  - subst b. reflexivity.
  - unfold urlsafe_b64decode, bytes_from_decode_types. rewrite H. reflexivity.
Qed.

(** X1. An empty key ([b""] or [""]) counts as missing in
    [FernetBytes.__init__], which takes the key of the settings in its
    place, while [Fernet.__init__] tests [key is None] only and raises its
    key-format error on an empty key; a key that is not empty is kept by
    [FernetBytes.__init__] as it is given. *)
Theorem empty_key_is_missing_in_FernetBytes_only
  (settings : CryptographyConf) (FernetSigner : SignerClass)
  (cls : engine_class) (key : bytes_or_str) (signer : option Signer) :
  (force_bytes key = [] ->
   self_key (FernetBytes_init settings FernetSigner cls (Some key) signer) =
     CRYPTOGRAPHY_KEY settings /\
   Fernet_init settings FernetSigner (Some key) signer =
     inl (ValueError "Fernet key must be 32 url-safe base64-encoded bytes.")) /\
  (force_bytes key <> [] ->
   self_key (FernetBytes_init settings FernetSigner cls (Some key) signer) =
     key).
Proof.
  split; intros H.
  - split.
    + unfold FernetBytes_init, py_or. cbn [self_key].
      rewrite (force_bytes_empty key H). reflexivity.
    + rewrite (Fernet_init_decoded settings FernetSigner key signer []
                 (urlsafe_b64decode_empty key H)).
      reflexivity.
  - unfold FernetBytes_init, py_or. cbn [self_key].
    rewrite (force_bytes_nonempty key H). reflexivity.
Qed.

Lemma empty_key_is_missing_in_FernetBytes_only_witness :
  (self_key (FernetBytes_init test_settings TestSigner FernetBytesClass
               (Some (PyStr "")) None) = CRYPTOGRAPHY_KEY test_settings /\
   Fernet_init test_settings TestSigner (Some (PyStr "")) None =
     inl (ValueError "Fernet key must be 32 url-safe base64-encoded bytes.")) /\
  self_key (FernetBytes_init test_settings TestSigner FernetBytesClass
              (Some (PyStr "short")) None) = PyStr "short".
Proof.
  split.
  - apply (proj1 (empty_key_is_missing_in_FernetBytes_only test_settings
                    TestSigner FernetBytesClass (PyStr "") None)).
    reflexivity.
  - apply (proj2 (empty_key_is_missing_in_FernetBytes_only test_settings
                    TestSigner FernetBytesClass (PyStr "short") None)).
    discriminate.
Defined.

Lemma urlsafe_b64decode_error (key : bytes_or_str) (e : exn) :
  urlsafe_b64decode key = inl e ->
  (exists msg, e = BinasciiError msg) \/
  e = ValueError "string argument should contain only ASCII characters".
Proof.
  unfold urlsafe_b64decode, bytes_from_decode_types.
  destruct key as [b|s].
  - cbn [bind ret]. intros H. left. unfold a2b_base64 in H.
    apply (a2b_loop_error _ _ _ _ _ _ H).
  - destruct (is_ascii (bytes_of_string s)); cbn [bind ret raise].
    + intros H. left. unfold a2b_base64 in H.
      apply (a2b_loop_error _ _ _ _ _ _ H).
    + intros H. right. injection H as <-. reflexivity.
Qed.

(** X2. When the base64 decoding of the key fails, [Fernet.__init__]
    raises the error of the decoder: the call is outside every [try], so
    the caller gets a [binascii.Error] (or the [ValueError] for a [str]
    that is not ASCII) and neither the key-format error nor
    [InvalidToken]. *)
Theorem Fernet_init_decode_error
  (settings : CryptographyConf) (FernetSigner : SignerClass)
  (key : bytes_or_str) (signer : option Signer) (e : exn) :
  urlsafe_b64decode key = inl e ->
  Fernet_init settings FernetSigner (Some key) signer = inl e /\
  e <> ValueError "Fernet key must be 32 url-safe base64-encoded bytes." /\
  e <> InvalidToken.
Proof.
  intros H. split.
  - unfold Fernet_init. rewrite H. reflexivity.
  - destruct (urlsafe_b64decode_error key e H) as [[msg ->]| ->];
      split; discriminate.
Qed.

Lemma Fernet_init_decode_error_witness :
  Fernet_init test_settings TestSigner (Some (PyStr "abc")) None =
    inl (BinasciiError "Incorrect padding") /\
  BinasciiError "Incorrect padding" <>
    ValueError "Fernet key must be 32 url-safe base64-encoded bytes." /\
  BinasciiError "Incorrect padding" <> InvalidToken.
Proof.
  apply (Fernet_init_decode_error test_settings TestSigner (PyStr "abc") None).
  vm_compute. reflexivity.
Defined.

(** ** Keys of a wrong size *)

Lemma invalid_key_cipher (key iv : bytes) (B : Backend) :
  aes_key_size_ok key = false ->
  exists msg,
    (algorithm <- AES key ;; Cipher algorithm (CBC iv) B) =
    inl (ValueError msg).
Proof.
  intros Hk. unfold AES. rewrite Hk. cbn [orb].
  destruct (length key =? 64) eqn:E.
  - apply Nat.eqb_eq in E. cbn [bind ret]. unfold Cipher. rewrite E.
    eexists. reflexivity.
  - eexists. reflexivity.
Qed.

Lemma FernetBytes_encrypt_invalid_key (settings : CryptographyConf)
  (self : FernetObj) (data : bytes) (t : Z) (iv : bytes) :
  aes_key_size_ok (force_bytes (self_key self)) = false ->
  exists msg,
    FernetBytes_encrypt_from_parts settings self data t iv =
    inl (ValueError msg).
Proof.
  intros Hk. unfold FernetBytes_encrypt_from_parts.
  destruct (padder_update (PKCS7_padder AES_block_size) data) as [p head].
  destruct (invalid_key_cipher (force_bytes (self_key self)) iv
              (CRYPTOGRAPHY_BACKEND settings) Hk) as [msg Hc].
  exists msg.
  destruct (AES (force_bytes (self_key self))) as [e|a]; cbn [bind] in *.
  - injection Hc as ->. reflexivity.
  - rewrite Hc. reflexivity.
Qed.

Lemma FernetBytes_decrypt_invalid_key (settings : CryptographyConf)
  (self : FernetObj) (w : World) (data : bytes) (ttl : option Z)
  (payload : bytes) :
  aes_key_size_ok (force_bytes (self_key self)) = false ->
  unsign (self_signer self) w data ttl = inr payload ->
  exists msg,
    FernetBytes_decrypt settings self w data ttl = inl (ValueError msg).
Proof.
  intros Hk Hu. unfold FernetBytes_decrypt. rewrite Hu. cbn [bind].
  destruct (invalid_key_cipher (force_bytes (self_key self))
              (take 16 payload) (CRYPTOGRAPHY_BACKEND settings) Hk)
    as [msg Hc].
  exists msg.
  destruct (AES (force_bytes (self_key self))) as [e|a]; cbn [bind] in *.
  - injection Hc as ->. reflexivity.
  - rewrite Hc. reflexivity.
Qed.

(** X3. With a key that is not 16, 24 or 32 bytes long, every encryption
    raises a [ValueError], for both classes and whatever the signer, and so
    does the decryption of every token that the signer accepts: the
    constructors of the cipher are outside the [try] blocks, so the error
    is not turned into [InvalidToken]. *)
Theorem invalid_key_size_raises_ValueError
  (settings : CryptographyConf) (self : FernetObj) :
  aes_key_size_ok (force_bytes (self_key self)) = false ->
  (forall data t w,
     exists msg,
       fst (encrypt_at_time settings self data t w) = inl (ValueError msg)) /\
  (forall w data ttl payload,
     unsign (self_signer self) w data ttl = inr payload ->
     exists msg,
       FernetBytes_decrypt settings self w data ttl = inl (ValueError msg)).
Proof.
  intros Hk. split.
  - intros data t w. unfold encrypt_at_time, encrypt_from_parts.
    destruct (os_urandom 16 w) as [iv w']. cbn [fst].
    destruct (FernetBytes_encrypt_invalid_key settings self (force_bytes data)
                t iv Hk) as [msg H].
    exists msg. destruct (self_class self).
    + exact H.
    + unfold Fernet_encrypt_from_parts. rewrite H. reflexivity.
  - intros w data ttl payload Hu.
    apply (FernetBytes_decrypt_invalid_key settings self w data ttl payload
             Hk Hu).
Qed.

Lemma invalid_key_size_raises_ValueError_witness :
  (forall data t w,
     exists msg,
       fst (encrypt_at_time test_settings short_key_fernet data t w) =
       inl (ValueError msg)) /\
  (forall w data ttl payload,
     unsign (self_signer short_key_fernet) w data ttl = inr payload ->
     exists msg,
       FernetBytes_decrypt test_settings short_key_fernet w data ttl =
       inl (ValueError msg)).
Proof.
  apply (invalid_key_size_raises_ValueError test_settings short_key_fernet).
  reflexivity.
Defined.

(** ** The payload of a token *)

Lemma encryptor_update_blocks (B : Backend) (key iv data : bytes) (n : nat) :
  BackendLaws B -> aes_key_size_ok key = true ->
  length iv = 16 -> length data = n * 16 ->
  let cipher := {| cipher_backend := B; cipher_key := key; cipher_iv := iv |} in
  exists ectx,
    encryptor_update (encryptor cipher) data =
      (ectx, fst (cbc_encrypt_blocks B key n iv data)) /\
    encryptor_finalize ectx = inr [] /\
    length (fst (cbc_encrypt_blocks B key n iv data)) = n * 16.
Proof.
  intros HB Hk Hiv Hd cipher.
  destruct (cbc_blocks_roundtrip B HB key Hk n iv data Hiv Hd)
    as (ct & chain' & He & Hl & _).
  unfold encryptor_update, context_update, encryptor, new_context, cipher.
  cbn [ctx_backend ctx_key ctx_chain ctx_buffer cipher_backend cipher_key
       cipher_iv app].
  rewrite Hd, Nat.div_mul by lia. rewrite He. cbn [fst].
  eexists. split; [reflexivity|]. split; [|exact Hl].
  unfold encryptor_finalize, context_finalize, drop. cbn [ctx_buffer].
  rewrite <- Hd, skipn_all. reflexivity.
Qed.

Lemma encrypt_at_time_payload_eq
  (settings : CryptographyConf) (self : FernetObj) (data : bytes_or_str)
  (t : Z) (w : World) :
  BackendLaws (CRYPTOGRAPHY_BACKEND settings) ->
  aes_key_size_ok (force_bytes (self_key self)) = true ->
  let iv := fst (os_urandom 16 w) in
  let signed :=
    sign (self_signer self)
      (PyBytes (iv ++
                fst (cbc_encrypt_blocks (CRYPTOGRAPHY_BACKEND settings)
                       (force_bytes (self_key self))
                       (length (force_bytes data) / 16 + 1) iv
                       (pkcs7_padded (force_bytes data))))) t in
  length iv = 16 /\
  fst (encrypt_at_time settings self data t w) =
    match self_class self with
    | FernetBytesClass => signed
    | FernetClass => map_result urlsafe_b64encode signed
    end.
Proof.
  intros HB Hk iv signed.
  assert (Hiv : length iv = 16) by apply length_os_urandom.
  destruct (encryptor_update_blocks (CRYPTOGRAPHY_BACKEND settings)
              (force_bytes (self_key self)) iv
              (pkcs7_padded (force_bytes data))
              (length (force_bytes data) / 16 + 1) HB Hk Hiv
              (length_pkcs7_padded (force_bytes data)))
    as (ectx & Hupd & Hfin & Hlen).
  split; [exact Hiv|].
  assert (Hparts :
    FernetBytes_encrypt_from_parts settings self (force_bytes data) t iv =
    signed).
  { unfold FernetBytes_encrypt_from_parts.
    pose proof (padder_update_finalize (force_bytes data)) as Hpad.
    destruct (padder_update (PKCS7_padder AES_block_size) (force_bytes data))
      as [pctx head].
    rewrite Hpad, (AES_valid_key _ Hk). cbn [bind].
    rewrite (Cipher_valid _ _ _ Hk Hiv). cbn [bind].
    rewrite Hupd, Hfin. cbn [bind]. rewrite app_nil_r. reflexivity. }
  unfold encrypt_at_time, encrypt_from_parts. subst iv.
  destruct (os_urandom 16 w) as [iv w']. cbn [fst snd] in *.
  destruct (self_class self).
  - exact Hparts.
  - unfold Fernet_encrypt_from_parts. rewrite Hparts.
    destruct signed; reflexivity.
Qed.

(** X4. What an encryption hands to the signer, under a valid key: the 16
    bytes drawn from [os.urandom], followed by the CBC encryption of the
    padded data, whose length is the next multiple of 16 above the length
    of the data (a whole block more when the data is a whole number of
    blocks, one block for empty data). An instance of [Fernet] encodes the
    signer's output in base64. *)
Theorem encrypt_at_time_payload
  (settings : CryptographyConf) (self : FernetObj) (data : bytes_or_str)
  (t : Z) (w : World) :
  BackendLaws (CRYPTOGRAPHY_BACKEND settings) ->
  aes_key_size_ok (force_bytes (self_key self)) = true ->
  let iv := fst (os_urandom 16 w) in
  let n := length (force_bytes data) / 16 + 1 in
  let ciphertext :=
    fst (cbc_encrypt_blocks (CRYPTOGRAPHY_BACKEND settings)
           (force_bytes (self_key self)) n iv
           (pkcs7_padded (force_bytes data))) in
  let signed := sign (self_signer self) (PyBytes (iv ++ ciphertext)) t in
  length iv = 16 /\
  length ciphertext = n * 16 /\
  length (force_bytes data) < length ciphertext <=
    length (force_bytes data) + 16 /\
  fst (encrypt_at_time settings self data t w) =
    match self_class self with
    | FernetBytesClass => signed
    | FernetClass => map_result urlsafe_b64encode signed
    end.
Proof.
  intros HB Hk iv n ciphertext signed.
  destruct (encrypt_at_time_payload_eq settings self data t w HB Hk)
    as (Hiv & Henc).
  destruct (cbc_blocks_roundtrip _ HB _ Hk n iv
              (pkcs7_padded (force_bytes data)) Hiv
              (length_pkcs7_padded (force_bytes data)))
    as (ct & chain' & He & Hl & _).
  assert (Hlen : length ciphertext = n * 16).
  { unfold ciphertext. rewrite He. exact Hl. }
  split; [exact Hiv|]. split; [exact Hlen|]. split; [|exact Henc].
  rewrite Hlen. unfold n.
  pose proof (Nat.div_mod_eq (length (force_bytes data)) 16).
  pose proof (Nat.mod_upper_bound (length (force_bytes data)) 16). lia.
Qed.

Lemma encrypt_at_time_payload_witness :
  let iv := fst (os_urandom 16 test_world) in
  let n := length (force_bytes (PyStr "")) / 16 + 1 in
  let ciphertext :=
    fst (cbc_encrypt_blocks (CRYPTOGRAPHY_BACKEND test_settings)
           (force_bytes (self_key test_fernet)) n iv
           (pkcs7_padded (force_bytes (PyStr "")))) in
  let signed := sign (self_signer test_fernet) (PyBytes (iv ++ ciphertext))
                  1000 in
  length iv = 16 /\
  length ciphertext = n * 16 /\
  length (force_bytes (PyStr "")) < length ciphertext <=
    length (force_bytes (PyStr "")) + 16 /\
  fst (encrypt_at_time test_settings test_fernet (PyStr "") 1000 test_world) =
    match self_class test_fernet with
    | FernetBytesClass => signed
    | FernetClass => map_result urlsafe_b64encode signed
    end.
Proof.
  apply (encrypt_at_time_payload test_settings test_fernet (PyStr "") 1000
           test_world).
  - exact reference_backend_laws.
  - reflexivity.
Defined.

(** ** What a successful decryption shows *)

Lemma byte_of_N_to_N (b : byte) : byte_of_N (Byte.to_N b) = b.
Proof.
  unfold byte_of_N. pose proof (Byte.to_N_bounded b).
  rewrite N.mod_small by lia. rewrite Byte.of_to_N. reflexivity.
Qed.

Lemma forallb_eqb_repeat (x : byte) (l : bytes) :
  forallb (Byte.eqb x) l = true -> l = repeat x (length l).
Proof.
  induction l as [|y l IH]; cbn [forallb length repeat]; intros H.
  - reflexivity.
  - apply andb_true_iff in H. destruct H as [H1 H2].
    apply Byte.byte_dec_bl in H1. subst y. rewrite <- IH by exact H2.
    reflexivity.
Qed.

(** The unpadder accepts padded data only, and returns the data. *)
Lemma pkcs7_unpad_padded (p d : bytes) :
  pkcs7_unpad p = inr d -> p = pkcs7_padded d.
Proof.
  unfold pkcs7_unpad, unpadder_update, unpadder_finalize, PKCS7_unpadder.
  cbn [pad_block_size pad_buffer app]. change (AES_block_size / 8) with 16.
  set (f := length p / 16 - 1).
  destruct (length (drop (f * 16) p) =? 16) eqn:Elen; cbn [negb];
    [|discriminate].
  apply Nat.eqb_eq in Elen.
  destruct (check_pkcs7_padding (drop (f * 16) p) 16) eqn:Echk; cbn [negb];
    [|discriminate].
  cbn [bind ret]. intros H. apply inr_inj in H.
  unfold check_pkcs7_padding in Echk.
  set (buf := drop (f * 16) p) in *.
  set (lb := last buf x00) in *.
  set (k := N.to_nat (Byte.to_N lb)) in *.
  apply andb_true_iff in Echk. destruct Echk as [Echk Hall].
  apply andb_true_iff in Echk. destruct Echk as [Hpos Hle].
  apply Nat.ltb_lt in Hpos. apply Nat.leb_le in Hle.
  apply forallb_eqb_repeat in Hall.
  unfold drop in Hall. rewrite length_skipn, Elen in Hall.
  replace (16 - (16 - k)) with k in Hall by lia.
  assert (Hlb : byte_of_nat k = lb).
  { unfold k, byte_of_nat. rewrite N2Nat.id. apply byte_of_N_to_N. }
  assert (Hp : p = d ++ repeat lb k).
  { rewrite <- H, Elen. unfold take. rewrite <- app_assoc, <- Hall.
    rewrite firstn_skipn. unfold buf, drop. symmetry. apply firstn_skipn. }
  assert (Hd : length p = length d + k).
  { rewrite Hp, length_app, repeat_length. reflexivity. }
  assert (Hpl : length p = f * 16 + 16).
  { unfold buf, drop in Elen. rewrite length_skipn in Elen. lia. }
  unfold pkcs7_padded, pkcs7_pad_size.
  pose proof (Nat.div_mod_eq (length d) 16) as Hdm.
  pose proof (Nat.mod_upper_bound (length d) 16 ltac:(lia)) as Hmm.
  assert (Hk : 16 - length d mod 16 = k) by lia.
  rewrite Hk, Hlb. exact Hp.
Qed.

Lemma decryptor_finalize_aligned (c : CipherObj) (ct tail : bytes) :
  decryptor_finalize (fst (decryptor_update (decryptor c) ct)) = inr tail ->
  tail = [] /\ length ct mod 16 = 0 /\
  (ct = [] -> snd (decryptor_update (decryptor c) ct) = []).
Proof.
  unfold decryptor_update, context_update, decryptor, new_context.
  cbn [ctx_backend ctx_key ctx_chain ctx_buffer app].
  destruct (cbc_decrypt_blocks (cipher_backend c) (cipher_key c)
              (length ct / 16) (cipher_iv c) ct) as [out chain'] eqn:E.
  cbn [fst snd]. unfold decryptor_finalize, context_finalize.
  cbn [ctx_buffer].
  destruct (drop (length ct / 16 * 16) ct) eqn:Ed; [|discriminate].
  intros H. apply inr_inj in H. split; [auto|]. split.
  - apply (f_equal (@length byte)) in Ed. unfold drop in Ed.
    rewrite length_skipn in Ed. cbn [length] in Ed.
    pose proof (Nat.div_mod_eq (length ct) 16). lia.
  - intros ->. cbn in E. injection E as <- _. reflexivity.
Qed.

(** X5. [FernetBytes.decrypt] returns data [d] only if the key is a valid
    AES key, the unsigned payload holds an IV and at least one block of
    ciphertext in whole blocks, and the CBC decryption of the ciphertext is
    exactly [d] with its PKCS7 padding: it never returns the data of a
    payload whose padding is not well formed, and never more than the
    ciphertext holds. *)
Theorem FernetBytes_decrypt_success
  (settings : CryptographyConf) (self : FernetObj) (w : World) (data : bytes)
  (ttl : option Z) (payload d : bytes) :
  unsign (self_signer self) w data ttl = inr payload ->
  FernetBytes_decrypt settings self w data ttl = inr d ->
  aes_key_size_ok (force_bytes (self_key self)) = true /\
  32 <= length payload /\
  length payload mod 16 = 0 /\
  snd (decryptor_update (decryptor (decrypt_cipher settings self payload))
         (drop 16 payload)) = pkcs7_padded d.
Proof.
  intros Hu Hdec.
  assert (Hk : aes_key_size_ok (force_bytes (self_key self)) = true).
  { destruct (aes_key_size_ok (force_bytes (self_key self))) eqn:E;
      [reflexivity|].
    destruct (FernetBytes_decrypt_invalid_key settings self w data ttl
                payload E Hu) as [msg Hm].
    rewrite Hm in Hdec. discriminate. }
  assert (Hl : 16 <= length payload).
  { destruct (Nat.le_gt_cases 16 (length payload)) as [H|H]; [exact H|].
    unfold FernetBytes_decrypt in Hdec. rewrite Hu in Hdec. cbn [bind] in Hdec.
    rewrite (AES_valid_key _ Hk) in Hdec. cbn [bind] in Hdec.
    destruct (Cipher_short_iv (force_bytes (self_key self)) (take 16 payload)
                (CRYPTOGRAPHY_BACKEND settings)) as [msg Hc].
    - unfold take. rewrite length_firstn. lia.
    - rewrite Hc in Hdec. discriminate. }
  rewrite (FernetBytes_decrypt_unsigned settings self w data ttl payload
             Hu Hk Hl) in Hdec.
  pose proof (decryptor_finalize_aligned
                (decrypt_cipher settings self payload) (drop 16 payload))
    as Hfin.
  destruct (decryptor_update (decryptor (decrypt_cipher settings self payload))
              (drop 16 payload)) as [dctx pp].
  cbn [fst snd] in *.
  destruct (decryptor_finalize dctx) as [e|tail] eqn:Ef.
  { cbn [try_except bind] in Hdec.
    destruct (isinstance_exn e [ValueErrorC]); discriminate. }
  destruct (Hfin tail eq_refl) as (-> & Hmod & Hempty).
  cbn [try_except bind] in Hdec. rewrite app_nil_r in Hdec.
  destruct (pkcs7_unpad pp) as [e|d'] eqn:Eu.
  { cbn [try_except] in Hdec.
    destruct (isinstance_exn e [ValueErrorC]); discriminate. }
  cbn [try_except] in Hdec. apply inr_inj in Hdec. subst d'.
  apply pkcs7_unpad_padded in Eu.
  assert (Hct : length (drop 16 payload) = length payload - 16)
    by (unfold drop; apply length_skipn).
  split; [exact Hk|].
  assert (Hne : drop 16 payload <> []).
  { intros Hnil. specialize (Hempty Hnil). rewrite Hempty in Eu.
    unfold pkcs7_padded in Eu. pose proof (pkcs7_pad_size_bounds d).
    apply (f_equal (@length byte)) in Eu.
    rewrite length_app, repeat_length in Eu. cbn [length] in Eu. lia. }
  assert (Hpos : 0 < length (drop 16 payload)).
  { destruct (drop 16 payload); [contradiction|cbn [length]; lia]. }
  pose proof (Nat.div_mod_eq (length (drop 16 payload)) 16) as Hdm.
  pose proof (Nat.div_mod_eq (length payload) 16) as Hpm.
  pose proof (Nat.mod_upper_bound (length payload) 16 ltac:(lia)) as Hpb.
  split; [lia|]. split; [lia|exact Eu].
Qed.

Lemma FernetBytes_decrypt_success_witness :
  aes_key_size_ok (force_bytes (self_key test_fernet_bytes)) = true /\
  32 <= length hello_payload /\
  length hello_payload mod 16 = 0 /\
  snd (decryptor_update
         (decryptor (decrypt_cipher test_settings test_fernet_bytes
                       hello_payload))
         (drop 16 hello_payload)) = pkcs7_padded hello_world.
Proof.
  apply (FernetBytes_decrypt_success test_settings test_fernet_bytes
           test_world hello_token None hello_payload hello_world).
  - vm_compute. reflexivity.
  - vm_compute. reflexivity.
Defined.

(** ** [Fernet] and [FernetBytes] *)

Lemma FernetBytes_methods_same_state (settings : CryptographyConf)
  (a b : FernetObj) :
  self_key a = self_key b -> self_signer a = self_signer b ->
  (forall data t iv,
     FernetBytes_encrypt_from_parts settings a data t iv =
     FernetBytes_encrypt_from_parts settings b data t iv) /\
  (forall w data ttl,
     FernetBytes_decrypt settings a w data ttl =
     FernetBytes_decrypt settings b w data ttl).
Proof.
  intros Hk Hs.
  unfold FernetBytes_encrypt_from_parts, FernetBytes_decrypt.
  rewrite Hk, Hs. split; reflexivity.
Qed.

(** X6. An instance of [Fernet] and an instance of [FernetBytes] with the
    same key and signer work on the same tokens up to base64: what the
    first makes of some data is the URL-safe encoding of what the second
    makes of it (with the same entropy and time), and the first decrypts
    the encoding of a token to what the second decrypts the token to, an
    exception included. *)
Theorem Fernet_is_FernetBytes_in_base64
  (settings : CryptographyConf) (f fb : FernetObj) :
  self_class f = FernetClass -> self_class fb = FernetBytesClass ->
  self_key f = self_key fb -> self_signer f = self_signer fb ->
  (forall data t w,
     fst (encrypt_at_time settings f data t w) =
     map_result urlsafe_b64encode (fst (encrypt_at_time settings fb data t w))) /\
  (forall w token ttl,
     decrypt settings f w (urlsafe_b64encode token) ttl =
     decrypt settings fb w token ttl).
Proof.
  intros Hf Hfb Hk Hs.
  destruct (FernetBytes_methods_same_state settings f fb Hk Hs) as [He Hd].
  split.
  - intros data t w. unfold encrypt_at_time, encrypt_from_parts.
    rewrite Hf, Hfb. destruct (os_urandom 16 w) as [iv w']. cbn [fst].
    unfold Fernet_encrypt_from_parts. rewrite He.
    destruct (FernetBytes_encrypt_from_parts settings fb (force_bytes data) t iv);
      reflexivity.
  - intros w token ttl. unfold decrypt. rewrite Hf, Hfb.
    unfold Fernet_decrypt. rewrite urlsafe_b64decode_encode.
    cbn [try_except bind]. apply Hd.
Qed.

Lemma Fernet_is_FernetBytes_in_base64_witness :
  (forall data t w,
     fst (encrypt_at_time test_settings test_fernet data t w) =
     map_result urlsafe_b64encode
       (fst (encrypt_at_time test_settings test_fernet_twin data t w))) /\
  (forall w token ttl,
     decrypt test_settings test_fernet w (urlsafe_b64encode token) ttl =
     decrypt test_settings test_fernet_twin w token ttl).
Proof.
  apply (Fernet_is_FernetBytes_in_base64 test_settings test_fernet
           test_fernet_twin); reflexivity.
Defined.

(** ** Tokens that decode alike *)

Lemma a2b_loop_filter (s : bytes) :
  forall q lc pads out,
    a2b_loop (translate2 "-" "+" "_" "/" s) q lc pads out =
    a2b_loop (translate2 "-" "+" "_" "/" (filter b64_significant s))
      q lc pads out.
Proof.
  induction s as [|c s IH]; intros q lc pads out; [reflexivity|].
  cbn [filter]. unfold b64_significant at 1.
  cbn [translate2 map].
  set (c' := translate_char "-" "+" "_" "/" c).
  fold (translate2 "-" "+" "_" "/" s).
  destruct (Byte.eqb c' BASE64_PAD) eqn:Ep.
  - cbn [orb translate2 map]. fold c'.
    fold (translate2 "-" "+" "_" "/" (filter b64_significant s)).
    cbn [a2b_loop]. rewrite Ep.
    destruct (2 <=? q); [destruct (4 <=? q + (pads + 1))|];
      try reflexivity; apply IH.
  - destruct (table_a2b_base64 c') as [v|] eqn:Et.
    + cbn [orb translate2 map]. fold c'.
      fold (translate2 "-" "+" "_" "/" (filter b64_significant s)).
      cbn [a2b_loop]. rewrite Ep, Et.
      destruct q as [|[|[|q]]]; apply IH.
    + cbn [orb]. cbn [a2b_loop]. rewrite Ep, Et. apply IH.
Qed.

(** X7. [Fernet.decrypt] skips every byte of a token that is neither in
    the URL-safe alphabet (nor [+] or [/]) nor the padding character:
    a token with such bytes inserted anywhere (spaces, line breaks)
    decrypts exactly like the token without them, so that a token has many
    spellings. *)
Theorem Fernet_decrypt_skips_other_bytes
  (settings : CryptographyConf) (self : FernetObj) (w : World)
  (token : bytes) (ttl : option Z) :
  Fernet_decrypt settings self w token ttl =
  Fernet_decrypt settings self w (filter b64_significant token) ttl.
Proof.
  unfold Fernet_decrypt, urlsafe_b64decode, a2b_base64.
  cbn [bytes_from_decode_types bind ret].
  rewrite a2b_loop_filter. reflexivity.
Qed.

Lemma translate2_app (x x' y y' : byte) (a b : bytes) :
  translate2 x x' y y' (a ++ b) =
  translate2 x x' y y' a ++ translate2 x x' y y' b.
Proof. apply map_app. Qed.

Lemma a2b_loop_b2a_app (rest : bytes) (n : nat) :
  forall s out, length s <= n ->
    a2b_loop
      (translate2 "-" "+" "_" "/" (translate2 "+" "-" "/" "_" (b2a_base64 s))
       ++ rest) 0 0 0 out =
    if length s mod 3 =? 0 then a2b_loop rest 0 0 0 (out ++ s)
    else inr (out ++ s).
Proof.
  induction n as [|n IH]; intros s out Hn.
  - destruct s; [|simpl in Hn; lia]. simpl. rewrite app_nil_r. reflexivity.
  - destruct s as [|a [|b [|c s]]].
    + simpl. rewrite app_nil_r. reflexivity.
    + cbn [b2a_base64]. rewrite !urlsafe_translate_cons. cbn [app].
      rewrite (a2b_loop_step _ _ 0) by apply sextet0_ok.
      rewrite (a2b_loop_step _ _ 1) by apply sextet1_ok.
      rewrite quantum_byte0. reflexivity.
    + cbn [b2a_base64]. rewrite !urlsafe_translate_cons. cbn [app].
      rewrite (a2b_loop_step _ _ 0) by apply sextet0_ok.
      rewrite (a2b_loop_step _ _ 1) by apply sextet1_ok.
      rewrite (a2b_loop_step _ _ 2) by apply sextet2_ok.
      rewrite quantum_byte0, quantum_byte1.
      rewrite <- !app_assoc. reflexivity.
    + cbn [b2a_base64]. rewrite !urlsafe_translate_cons. cbn [app].
      rewrite a2b_loop_quantum. rewrite IH by (simpl in Hn; lia).
      replace (length (a :: b :: c :: s) mod 3) with (length s mod 3).
      * rewrite <- !app_assoc. reflexivity.
      * cbn [length]. replace (S (S (S (length s)))) with (length s + 1 * 3)
          by lia. rewrite Nat.Div0.mod_add. reflexivity.
Qed.

(** X8. When a token is the URL-safe encoding of a payload whose length is
    not a multiple of three, and so ends in padding, [Fernet.decrypt]
    reads nothing after the padding: the token followed by any bytes
    decrypts exactly like the token. *)
Theorem Fernet_decrypt_ignores_bytes_after_padding
  (settings : CryptographyConf) (self : FernetObj) (w : World)
  (payload extra : bytes) (ttl : option Z) :
  length payload mod 3 <> 0 ->
  Fernet_decrypt settings self w (urlsafe_b64encode payload ++ extra) ttl =
  Fernet_decrypt settings self w (urlsafe_b64encode payload) ttl.
Proof.
  intros Hm. unfold Fernet_decrypt.
  rewrite urlsafe_b64decode_encode.
  unfold urlsafe_b64decode, a2b_base64, urlsafe_b64encode.
  cbn [bytes_from_decode_types bind ret]. rewrite translate2_app.
  rewrite (a2b_loop_b2a_app _ (length payload)) by apply Nat.le_refl.
  apply Nat.eqb_neq in Hm. rewrite Hm. reflexivity.
Qed.

Lemma Fernet_decrypt_ignores_bytes_after_padding_witness :
  Fernet_decrypt test_settings test_fernet test_world
    (urlsafe_b64encode hello_twin_token ++ bytes_of_string "AAAA") None =
  Fernet_decrypt test_settings test_fernet test_world
    (urlsafe_b64encode hello_twin_token) None.
Proof.
  apply (Fernet_decrypt_ignores_bytes_after_padding test_settings test_fernet
           test_world hello_twin_token (bytes_of_string "AAAA") None).
  vm_compute. discriminate.
Defined.

Example Fernet_decrypt_lenient :
  Fernet_decrypt test_settings test_fernet test_world
    (urlsafe_b64encode hello_twin_token) None = inr hello_world /\
  Fernet_decrypt test_settings test_fernet test_world
    (bytes_of_string " " ++ urlsafe_b64encode hello_twin_token ++
     bytes_of_string "AAAA") None = inr hello_world.
Proof. vm_compute. split; reflexivity. Qed.

(** ** Tokens of the engine itself, under any TTL *)

Section OwnToken.

Variable settings : CryptographyConf.
Hypothesis HB : BackendLaws (CRYPTOGRAPHY_BACKEND settings).

Variable self : FernetObj.
Hypothesis Hkey : aes_key_size_ok (force_bytes (self_key self)) = true.

Lemma FernetBytes_decrypt_of_encrypted (w : World) (token : bytes)
  (ttl : option Z) (d iv : bytes) :
  length iv = 16 ->
  unsign (self_signer self) w token ttl =
    inr (iv ++ fst (cbc_encrypt_blocks (CRYPTOGRAPHY_BACKEND settings)
                      (force_bytes (self_key self)) (length d / 16 + 1) iv
                      (pkcs7_padded d))) ->
  FernetBytes_decrypt settings self w token ttl = inr d.
Proof.
  intros Hiv Hu.
  destruct (cbc_context_roundtrip _ HB _ Hkey iv (pkcs7_padded d)
              (length d / 16 + 1) Hiv (length_pkcs7_padded d))
    as (ct & ectx & dctx & He & _ & Hd & Hdf).
  destruct (encryptor_update_blocks (CRYPTOGRAPHY_BACKEND settings)
              (force_bytes (self_key self)) iv (pkcs7_padded d)
              (length d / 16 + 1) HB Hkey Hiv (length_pkcs7_padded d))
    as (ectx' & He' & _ & _).
  rewrite He in He'. apply (f_equal snd) in He'. cbn [snd] in He'.
  rewrite <- He' in Hu.
  unfold FernetBytes_decrypt. rewrite Hu. cbn [bind].
  rewrite (take_app_exact iv ct 16 Hiv), (drop_app_exact iv ct 16 Hiv).
  rewrite (AES_valid_key _ Hkey). cbn [bind].
  rewrite (Cipher_valid _ _ _ Hkey Hiv). cbn [bind].
  rewrite Hd, Hdf. cbn [try_except bind]. rewrite app_nil_r.
  pose proof (unpadder_update_finalize d) as Hun.
  destruct (unpadder_update (PKCS7_unpadder AES_block_size) (pkcs7_padded d))
    as [uctx uhead].
  destruct Hun as (tail & Hfin & Hdata).
  rewrite Hfin. cbn [try_except bind ret]. rewrite Hdata. reflexivity.
Qed.

End OwnToken.

(** X9. On a token the engine made itself, under a valid key, decryption
    has two outcomes only, for every TTL and at every time: if the signer
    accepts the token, the data that was encrypted comes back; if the
    signer raises, that exception reaches the caller. The signer is one
    that signs at the time of the encryption and whose [unsign], when it
    returns, returns what was signed. *)
Theorem decrypt_own_token
  (settings : CryptographyConf) (self : FernetObj) (d : bytes_or_str)
  (t : Z) (w : World) :
  BackendLaws (CRYPTOGRAPHY_BACKEND settings) ->
  aes_key_size_ok (force_bytes (self_key self)) = true ->
  (forall v, exists tok, sign (self_signer self) (PyBytes v) t = inr tok) ->
  (forall v tok w' ttl v',
     sign (self_signer self) (PyBytes v) t = inr tok ->
     unsign (self_signer self) w' tok ttl = inr v' -> v' = v) ->
  exists tok signed,
    fst (encrypt_at_time settings self d t w) = inr tok /\
    tok = match self_class self with
          | FernetBytesClass => signed
          | FernetClass => urlsafe_b64encode signed
          end /\
    forall w' ttl,
      decrypt settings self w' tok ttl =
      match unsign (self_signer self) w' signed ttl with
      | inr _ => inr (force_bytes d)
      | inl e => inl e
      end.
Proof.
  intros HB Hkey Hsign Hsound.
  destruct (encrypt_at_time_payload_eq settings self d t w HB Hkey)
    as (Hiv & Henc).
  set (iv := fst (os_urandom 16 w)) in *.
  set (ct := fst (cbc_encrypt_blocks (CRYPTOGRAPHY_BACKEND settings)
                    (force_bytes (self_key self))
                    (length (force_bytes d) / 16 + 1) iv
                    (pkcs7_padded (force_bytes d)))) in *.
  destruct (Hsign (iv ++ ct)) as [signed Hs].
  assert (Hbytes : forall w' ttl,
    FernetBytes_decrypt settings self w' signed ttl =
    match unsign (self_signer self) w' signed ttl with
    | inr _ => inr (force_bytes d)
    | inl e => inl e
    end).
  { intros w' ttl.
    destruct (unsign (self_signer self) w' signed ttl) as [e|v'] eqn:Eu.
    - unfold FernetBytes_decrypt. rewrite Eu. reflexivity.
    - pose proof (Hsound _ _ _ _ _ Hs Eu) as ->.
      apply (FernetBytes_decrypt_of_encrypted settings HB self Hkey w' signed
               ttl (force_bytes d) iv Hiv Eu). }
  rewrite Hs in Henc.
  exists (match self_class self with
          | FernetBytesClass => signed
          | FernetClass => urlsafe_b64encode signed
          end), signed.
  split; [|split; [reflexivity|]].
  - rewrite Henc. destruct (self_class self); reflexivity.
  - intros w' ttl. unfold decrypt. destruct (self_class self).
    + apply Hbytes.
    + unfold Fernet_decrypt. rewrite urlsafe_b64decode_encode.
      cbn [try_except bind]. apply Hbytes.
Qed.

Section SpecSignerSound.

Variable settings : CryptographyConf.
Hypothesis HB : BackendLaws (CRYPTOGRAPHY_BACKEND settings).

Variable key : option bytes_or_str.
Variable algorithm : option string.
Variable a : HashAlgorithm.
Hypothesis Halg : spec_signer_digest algorithm = Some (Digest a).

(** When a signer of class [SpecSigner] accepts a token it made, it
    returns what was signed, whatever the maximal age. *)
Lemma spec_unsign_sound (value : bytes_or_str) (t : Z) (tok : bytes)
  (w : World) (max_age : option Z) (v' : bytes) :
  spec_sign settings key algorithm value t = inr tok ->
  spec_unsign settings key algorithm w tok max_age = inr v' ->
  v' = force_bytes value.
Proof.
  unfold spec_sign.
  destruct ((t <? 0) || (2 ^ 64 <=? t))%Z; [discriminate|].
  set (payload := x80 :: INT_64_BE t ++ force_bytes value).
  destruct (spec_signature_known settings HB key algorithm a Halg
              (PyBytes payload)) as (sig & Hsig & Hlen).
  rewrite Hsig. unfold bind at 1. unfold ret. intros Htok.
  apply inr_inj in Htok. subst tok.
  unfold spec_unsign.
  rewrite (spec_digest_size_known settings key algorithm a Halg).
  cbn [bind].
  assert (Hp : length payload = 9 + length (force_bytes value)).
  { unfold payload. cbn [length].
    rewrite length_app, (length_INT_64_BE t). lia. }
  rewrite length_app, Hlen.
  replace (length payload + digest_size a <? 9 + digest_size a) with false
    by (symmetry; apply Nat.ltb_ge; lia).
  replace (length payload + digest_size a - digest_size a)
    with (length payload) by lia.
  rewrite (take_app_exact payload sig _ eq_refl).
  rewrite (drop_app_exact payload sig _ eq_refl).
  replace (Byte.eqb (hd x00 payload) x80) with true by reflexivity.
  cbn [negb]. rewrite Hsig. cbn [bind].
  unfold constant_time_compare. cbn [force_bytes].
  rewrite bytes_eq_refl. cbn [negb ret].
  assert (Hv : drop 9 payload = force_bytes value).
  { unfold payload, drop. rewrite skipn_cons.
    rewrite (skipn_app 8), (length_INT_64_BE t), skipn_all2
      by (rewrite (length_INT_64_BE t); lia).
    reflexivity. }
  rewrite Hv.
  destruct max_age as [age|].
  - destruct (age <? clock w - decode_BE (take 8 (drop 1 payload)))%Z;
      [discriminate|].
    intros H. apply inr_inj in H. auto.
  - intros H. apply inr_inj in H. auto.
Qed.

End SpecSignerSound.

Lemma TestSigner_unsign_sound (key : option bytes_or_str) (t : Z) :
  forall v tok w ttl v',
    sign (new_signer TestSigner key None) (PyBytes v) t = inr tok ->
    unsign (new_signer TestSigner key None) w tok ttl = inr v' -> v' = v.
Proof.
  intros v tok w ttl v' Hs Hu.
  exact (spec_unsign_sound test_settings reference_backend_laws key None
           SHA256 eq_refl (PyBytes v) t tok w ttl v' Hs Hu).
Qed.

Lemma decrypt_own_token_witness :
  exists tok signed,
    fst (encrypt_at_time test_settings test_fernet (PyBytes hello_world) 1000
           test_world) = inr tok /\
    tok = match self_class test_fernet with
          | FernetBytesClass => signed
          | FernetClass => urlsafe_b64encode signed
          end /\
    forall w' ttl,
      decrypt test_settings test_fernet w' tok ttl =
      match unsign (self_signer test_fernet) w' signed ttl with
      | inr _ => inr (force_bytes (PyBytes hello_world))
      | inl e => inl e
      end.
Proof.
  apply (decrypt_own_token test_settings test_fernet (PyBytes hello_world)
           1000 test_world).
  - exact reference_backend_laws.
  - reflexivity.
  - apply TestSigner_sign_total. lia.
  - apply TestSigner_unsign_sound.
Defined.

(** ** Derived keys *)

(** X10. [salted_hmac] joins [key_salt] and [secret] without a separator
    before hashing them, and turns text into bytes first: two calls agree
    whenever the bytes of [key_salt] followed by those of the secret are
    the same and the values have the same bytes, so that bytes moved from
    the end of the salt to the front of the secret give the same HMAC. *)
Theorem salted_hmac_salt_secret_boundary
  (settings : CryptographyConf) (key_salt1 key_salt2 value1 value2 : bytes_or_str)
  (secret1 secret2 : option bytes_or_str) (algorithm : string) :
  force_bytes key_salt1 ++ resolved_secret settings secret1 =
    force_bytes key_salt2 ++ resolved_secret settings secret2 ->
  force_bytes value1 = force_bytes value2 ->
  salted_hmac settings key_salt1 value1 secret1 algorithm =
  salted_hmac settings key_salt2 value2 secret2 algorithm.
Proof.
  intros Hk Hv. unfold salted_hmac. unfold resolved_secret in Hk.
  rewrite Hk, Hv. reflexivity.
Qed.

Lemma salted_hmac_salt_secret_boundary_witness :
  salted_hmac test_settings (PyStr "salt:x") (PyStr "value")
    (Some (PyStr "secret")) "sha256" =
  salted_hmac test_settings (PyBytes (bytes_of_string "salt"))
    (PyBytes (bytes_of_string "value")) (Some (PyStr ":xsecret")) "sha256".
Proof.
  apply (salted_hmac_salt_secret_boundary test_settings); reflexivity.
Defined.

(** X14. [salted_hmac(key_salt, value, secret, algorithm)] works in two
    steps when the upper-cased name of the algorithm is the name of a
    fixed-size digest [a] of the [hashes] module: the key of the returned
    HMAC is the digest under [a] of [key_salt] followed by the secret, and
    the HMAC is the HMAC under [a] of the value with that key. When the
    upper-cased name is no attribute of the module, the call raises
    [InvalidAlgorithm] with the name as it was given. *)
Theorem salted_hmac_two_steps
  (settings : CryptographyConf) (key_salt value : bytes_or_str)
  (secret : option bytes_or_str) (algorithm : string) :
  let B := CRYPTOGRAPHY_BACKEND settings in
  let derived_key a :=
    hash_digest B a (force_bytes key_salt ++ resolved_secret settings secret) in
  (forall a,
     hashes_getattr (upper algorithm) = Some (Digest a) ->
     exists h,
       salted_hmac settings key_salt value secret algorithm = inr h /\
       hmac_key h = derived_key a /\
       hmac_algorithm h = a /\
       HMAC_finalize h = hmac B a (derived_key a) (force_bytes value)) /\
  (hashes_getattr (upper algorithm) = None ->
   salted_hmac settings key_salt value secret algorithm =
   inl (InvalidAlgorithm algorithm)).
Proof.
  intros B derived_key. split.
  - intros a Ha.
    rewrite (salted_hmac_known settings key_salt value secret algorithm a Ha).
    eexists. split; [reflexivity|]. repeat split.
  - apply salted_hmac_unknown.
Qed.

Lemma salted_hmac_two_steps_witness :
  (exists h,
     salted_hmac test_settings (PyStr "salt") (PyStr "value") None "sha1" =
       inr h /\
     hmac_key h =
       hash_digest (CRYPTOGRAPHY_BACKEND test_settings) SHA1
         (force_bytes (PyStr "salt") ++ resolved_secret test_settings None) /\
     hmac_algorithm h = SHA1 /\
     HMAC_finalize h =
       hmac (CRYPTOGRAPHY_BACKEND test_settings) SHA1
         (hash_digest (CRYPTOGRAPHY_BACKEND test_settings) SHA1
            (force_bytes (PyStr "salt") ++ resolved_secret test_settings None))
         (force_bytes (PyStr "value"))) /\
  salted_hmac test_settings (PyStr "salt") (PyStr "value") None "sha7" =
    inl (InvalidAlgorithm "sha7").
Proof.
  split.
  - apply (proj1 (salted_hmac_two_steps test_settings (PyStr "salt")
                    (PyStr "value") None "sha1") SHA1).
    reflexivity.
  - apply (proj2 (salted_hmac_two_steps test_settings (PyStr "salt")
                    (PyStr "value") None "sha7")).
    reflexivity.
Defined.

(** X11. The name of the algorithm is looked up in upper case, so its case
    does not matter: for every text [name], [salted_hmac] with [name] and
    with the upper-case form of [name] return the same HMAC, or fail both;
    with a name that is not found, the exception carries the name as it
    was given. *)
Theorem salted_hmac_algorithm_case
  (settings : CryptographyConf) (key_salt value : bytes_or_str)
  (secret : option bytes_or_str) (name : list N) :
  forallb code_point name = true ->
  let algorithm := utf8_encode_all name in
  (forall h,
     salted_hmac settings key_salt value secret algorithm = inr h <->
     salted_hmac settings key_salt value secret (upper algorithm) = inr h) /\
  (forall e,
     salted_hmac settings key_salt value secret algorithm = inl e ->
     e = InvalidAlgorithm algorithm \/
     salted_hmac settings key_salt value secret (upper algorithm) = inl e).
Proof.
  intros Hname algorithm. unfold salted_hmac, algorithm.
  rewrite (upper_idempotent name Hname).
  destruct (hashes_getattr (upper (utf8_encode_all name))) as [hc|];
    cbn [bind raise].
  - split; [intros h; reflexivity|]. intros e H. right. exact H.
  - split.
    + intros h. split; discriminate.
    + intros e H. left. injection H as <-. reflexivity.
Qed.

Lemma salted_hmac_algorithm_case_witness :
  forallb code_point long_s_ha1 = true /\
  (forall h,
     salted_hmac test_settings (PyStr "salt") (PyStr "value") None
       (utf8_encode_all long_s_ha1) = inr h <->
     salted_hmac test_settings (PyStr "salt") (PyStr "value") None
       (upper (utf8_encode_all long_s_ha1)) = inr h).
Proof.
  split; [reflexivity|].
  apply (salted_hmac_algorithm_case test_settings (PyStr "salt")
           (PyStr "value") None long_s_ha1).
  reflexivity.
Defined.

(** With the long s for its first letter, the name is that of SHA-1. *)
Example salted_hmac_long_s_ha1 :
  salted_hmac test_settings (PyStr "salt") (PyStr "value") None
    (utf8_encode_all long_s_ha1) =
  salted_hmac test_settings (PyStr "salt") (PyStr "value") None "sha1".
Proof.
  rewrite (salted_hmac_known test_settings _ _ _ _ SHA1) by reflexivity.
  rewrite (salted_hmac_known test_settings _ _ _ "sha1" SHA1) by reflexivity.
  reflexivity.
Qed.

(** ** PBKDF2 *)

Lemma pbkdf2_blocks_app (B : Backend) (a : HashAlgorithm)
  (password salt : bytes) (c : nat) (l k : nat) :
  forall i,
    pbkdf2_blocks B a password salt c (l + k) i =
    pbkdf2_blocks B a password salt c l i ++
    pbkdf2_blocks B a password salt c k (i + N.of_nat l)%N.
Proof.
  induction l as [|l IH]; intros i.
  - cbn [pbkdf2_blocks plus app]. rewrite N.add_0_r. reflexivity.
  - cbn [pbkdf2_blocks plus]. rewrite IH, <- app_assoc.
    replace (N.succ i + N.of_nat l)%N with (i + N.of_nat (S l))%N by lia.
    reflexivity.
Qed.

Lemma div_le_blocks (n m h : nat) :
  0 < h -> n <= m -> (n + h - 1) / h <= (m + h - 1) / h.
Proof.
  intros Hh Hnm. apply Nat.Div0.div_le_mono. lia.
Qed.

(** X12. A shorter key that [pbkdf2] derives is the beginning of a longer
    one: for the same password, salt, iteration count and digest,
    [pbkdf2(..., dklen=n)] is the first [n] bytes of [pbkdf2(..., dklen=m)]
    when [0 < n <= m]. Asking for more bytes adds nothing to the strength
    of the first ones. *)
Theorem pbkdf2_prefix
  (settings : CryptographyConf) (password salt : bytes_or_str)
  (iterations n m : Z) (digest : option HashAlgorithm) :
  let d := match digest with
           | None => SHA256
           | Some d => d
           end in
  BackendLaws (CRYPTOGRAPHY_BACKEND settings) ->
  (1 <= iterations)%Z ->
  (0 < n <= m)%Z ->
  (m <= (2 ^ 32 - 1) * Z.of_nat (digest_size d))%Z ->
  exists short long,
    pbkdf2 settings password salt iterations n digest = inr short /\
    pbkdf2 settings password salt iterations m digest = inr long /\
    short = take (Z.to_nat n) long.
Proof.
  intros d HB Hi Hnm Hm.
  unfold pbkdf2. fold d.
  replace (n =? 0)%Z with false by (symmetry; apply Z.eqb_neq; lia).
  replace (m =? 0)%Z with false by (symmetry; apply Z.eqb_neq; lia).
  destruct (PBKDF2HMAC_derive_length (CRYPTOGRAPHY_BACKEND settings) d n
              iterations (force_bytes salt) (force_bytes password) HB Hi)
    as [Hn _]; [lia|].
  destruct (PBKDF2HMAC_derive_length (CRYPTOGRAPHY_BACKEND settings) d m
              iterations (force_bytes salt) (force_bytes password) HB Hi)
    as [Hm' _]; [lia|].
  rewrite Hn, Hm'. do 2 eexists. split; [reflexivity|]. split; [reflexivity|].
  set (h := digest_size d).
  pose proof (digest_size_pos d) as Hh. fold h in Hh.
  set (ln := (Z.to_nat n + h - 1) / h).
  set (lm := (Z.to_nat m + h - 1) / h).
  assert (Hl : ln <= lm) by (apply div_le_blocks; [exact Hh|lia]).
  unfold take. rewrite firstn_firstn.
  replace (Nat.min (Z.to_nat n) (Z.to_nat m)) with (Z.to_nat n) by lia.
  replace lm with (ln + (lm - ln)) by lia.
  rewrite pbkdf2_blocks_app.
  rewrite firstn_app_le; [reflexivity|].
  rewrite length_pbkdf2_blocks by exact HB. fold h.
  apply blocks_cover. exact Hh.
Qed.

Lemma pbkdf2_prefix_witness :
  exists short long,
    pbkdf2 test_settings (PyStr "password") (PyStr "salt") 2 20 None =
      inr short /\
    pbkdf2 test_settings (PyStr "password") (PyStr "salt") 2 40 None =
      inr long /\
    short = take (Z.to_nat 20) long.
Proof.
  apply (pbkdf2_prefix test_settings (PyStr "password") (PyStr "salt") 2 20 40
           None).
  - exact reference_backend_laws.
  - lia.
  - lia.
  - simpl. lia.
Defined.
